(** * my-ai-agent: the conversation orchestrator, its message store and the
      agent's tool adapters

    A shallow embedding of
      - the chat router          (chatRouter: sendChat, getMessages, clearMessages),
      - the agent router         (agentRouter.chat built on createAgent),
      - the executor agent router (agentRouter.chat built on AgentExecutor),
      - the user and post routers and the tool adapters built on them,
      - the insert schema of Message and the submit logic of the chat page,
    over one explicit world: the three tables, the server clock and the trace
    of calls made to the hosted model. *)

From Stdlib Require Import ZArith List String Ascii Bool Lia.
From Stdlib Require Import DecimalString.
From Stdlib Require Import Sorting.Permutation Sorting.Sorted.
Import ListNotations.

Set Warnings "-register-all".

Local Open Scope list_scope.
Local Open Scope string_scope.
Local Open Scope Z_scope.

(* ===================================================================== *)
(** ** JavaScript values and strings *)
(* ===================================================================== *)

(** A string is a sequence of code units; [js_length] is JavaScript's
    [.length], the quantity zod's [min]/[max] compare. *)
Definition js_length (s : string) : Z := Z.of_nat (String.length s).

(** The double quote character, as a one-character string. *)
Definition dquote : string := String (ascii_of_nat 34) EmptyString.

(** Template-literal rendering of an integer: [`${n}`]. *)
Definition string_of_Z (n : Z) : string :=
  NilZero.string_of_int (Z.to_int n).

(** [digits w n]: the decimal digits of [n], zero-padded on the left to at
    least [w] characters ([String.prototype.padStart(w, "0")]). *)
Fixpoint zeros (k : nat) : string :=
  match k with
  | O => EmptyString
  | S k' => String "0" (zeros k')
  end.

Definition digits (w : nat) (n : Z) : string :=
  let s := string_of_Z n in
  zeros (w - String.length s) ++ s.

(** The values that cross the procedure boundary or are handed to
    [JSON.stringify]: numbers are the integers the code handles. *)
Inductive JsValue : Type :=
| JsUndefined
| JsNull
| JsBool (b : bool)
| JsNumber (n : Z)
| JsString (s : string)
| JsDate (t : Z)
| JsArray (items : list JsValue)
| JsObject (fields : list (string * JsValue)).

(** Property read [o[k]]: [undefined] when [o] is no object or has no [k]. *)
Fixpoint lookup_field (k : string) (fields : list (string * JsValue)) : JsValue :=
  match fields with
  | [] => JsUndefined
  | (k', v) :: rest => if String.eqb k k' then v else lookup_field k rest
  end.

Definition prop (k : string) (o : JsValue) : JsValue :=
  match o with
  | JsObject fields => lookup_field k fields
  | _ => JsUndefined
  end.

(** *** Date.prototype.toISOString *)

(** Civil date of a day count since 1970-01-01 (proleptic Gregorian). *)
Definition civil_from_days (days : Z) : Z * Z * Z :=
  let z := days + 719468 in
  let era := z / 146097 in
  let doe := z - era * 146097 in
  let yoe := (doe - doe / 1460 + doe / 36524 - doe / 146096) / 365 in
  let doy := doe - (365 * yoe + yoe / 4 - yoe / 100) in
  let mp := (5 * doy + 2) / 153 in
  let d := doy - (153 * mp + 2) / 5 + 1 in
  let m := if mp <? 10 then mp + 3 else mp - 9 in
  let y := yoe + era * 400 + (if m <=? 2 then 1 else 0) in
  (y, m, d).

Definition iso_year (y : Z) : string :=
  if (0 <=? y) && (y <=? 9999) then digits 4 y
  else if y <? 0 then "-" ++ digits 6 (- y)
  else "+" ++ digits 6 y.

(** [toISOString t] for [t] milliseconds since the epoch. *)
Definition toISOString (t : Z) : string :=
  let days := t / 86400000 in
  let ms := t mod 86400000 in
  let '(y, m, d) := civil_from_days days in
  iso_year y ++ "-" ++ digits 2 m ++ "-" ++ digits 2 d ++ "T" ++
  digits 2 (ms / 3600000) ++ ":" ++ digits 2 ((ms / 60000) mod 60) ++ ":" ++
  digits 2 ((ms / 1000) mod 60) ++ "." ++ digits 3 (ms mod 1000) ++ "Z".

(** *** JSON.stringify(value, null, 2) *)

Definition hex_digit (n : Z) : string :=
  String.substring (Z.to_nat n) 1 "0123456789abcdef".

Definition escape_char (c : ascii) : string :=
  let n := Z.of_nat (nat_of_ascii c) in
  if n =? 34 then "\" ++ dquote
  else if n =? 92 then "\\"
  else if n =? 8 then "\b"
  else if n =? 12 then "\f"
  else if n =? 10 then "\n"
  else if n =? 13 then "\r"
  else if n =? 9 then "\t"
  else if n <? 32 then "\u00" ++ hex_digit (n / 16) ++ hex_digit (n mod 16)
  else String c EmptyString.

Fixpoint escape (s : string) : string :=
  match s with
  | EmptyString => EmptyString
  | String c rest => escape_char c ++ escape rest
  end.

Definition quote (s : string) : string := dquote ++ escape s ++ dquote.

Definition newline : string := String (ascii_of_nat 10) EmptyString.

Fixpoint spaces (k : nat) : string :=
  match k with
  | O => EmptyString
  | S k' => String " " (spaces k')
  end.

Fixpoint join (sep : string) (l : list string) : string :=
  match l with
  | [] => EmptyString
  | [x] => x
  | x :: rest => x ++ sep ++ join sep rest
  end.

(** [stringify_at ind v]: the text of [v] when it sits at indentation
    [ind]; [None] is JavaScript's [undefined] result (the value is left
    out of an object and printed as [null] inside an array). *)
Fixpoint stringify_at (ind : nat) (v : JsValue) : option string :=
  match v with
  | JsUndefined => None
  | JsNull => Some "null"
  | JsBool true => Some "true"
  | JsBool false => Some "false"
  | JsNumber n => Some (string_of_Z n)
  | JsString s => Some (quote s)
  | JsDate t => Some (quote (toISOString t))
  | JsArray items =>
      match items with
      | [] => Some "[]"
      | _ =>
          let inner := (ind + 2)%nat in
          let parts :=
            map (fun x => spaces inner ++
                          match stringify_at inner x with
                          | Some s => s
                          | None => "null"
                          end) items in
          Some ("[" ++ newline ++ join ("," ++ newline) parts ++
                newline ++ spaces ind ++ "]")
      end
  | JsObject fields =>
      let inner := (ind + 2)%nat in
      let parts :=
        flat_map (fun kv =>
                    match stringify_at inner (snd kv) with
                    | Some s => [spaces inner ++ quote (fst kv) ++ ": " ++ s]
                    | None => []
                    end) fields in
      match parts with
      | [] => Some "{}"
      | _ => Some ("{" ++ newline ++ join ("," ++ newline) parts ++
                   newline ++ spaces ind ++ "}")
      end
  end.

Definition JSON_stringify (v : JsValue) : string :=
  match stringify_at 0 v with
  | Some s => s
  | None => "undefined"
  end.

(* ===================================================================== *)
(** ** zod schemas *)
(* ===================================================================== *)

(** A schema parses an unknown value; [None] is a failed parse. *)
Definition Schema (A : Type) : Type := JsValue -> option A.

Definition z_string : Schema string :=
  fun v => match v with JsString s => Some s | _ => None end.

Definition z_min (n : Z) (sch : Schema string) : Schema string :=
  fun v => match sch v with
           | Some s => if n <=? js_length s then Some s else None
           | None => None
           end.

Definition z_max (n : Z) (sch : Schema string) : Schema string :=
  fun v => match sch v with
           | Some s => if js_length s <=? n then Some s else None
           | None => None
           end.

Definition z_enum (keys : list string) : Schema string :=
  fun v => match v with
           | JsString s => if existsb (String.eqb s) keys then Some s else None
           | _ => None
           end.

Definition z_optional {A} (sch : Schema A) : Schema (option A) :=
  fun v => match v with
           | JsUndefined => Some None
           | _ => option_map Some (sch v)
           end.

Definition z_default {A} (d : A) (sch : Schema (option A)) : Schema A :=
  fun v => match v with
           | JsUndefined => Some d
           | _ => match sch v with
                  | Some (Some a) => Some a
                  | Some None => Some d
                  | None => None
                  end
           end.

Definition z_number_int_positive : Schema Z :=
  fun v => match v with
           | JsNumber n => if 0 <? n then Some n else None
           | _ => None
           end.

Definition z_boolean : Schema bool :=
  fun v => match v with JsBool b => Some b | _ => None end.

Definition z_is_object (v : JsValue) : bool :=
  match v with JsObject _ => true | _ => false end.

(* ===================================================================== *)
(** ** The schema: tables and rows *)
(* ===================================================================== *)

Inductive Role : Type := user | assistant.

Definition Role_eqb (a b : Role) : bool :=
  match a, b with
  | user, user | assistant, assistant => true
  | _, _ => false
  end.

(** [Message]: id is the identity column, createdAt is [defaultNow()]. *)
Module Message.
Record row : Type := mk {
  id : Z;
  role : Role;
  content : string;
  createdAt : Z
}.
End Message.

Module User.
Record row : Type := mk {
  id : Z;
  name : string;
  email : string;
  bio : option string;
  createdAt : Z;
  updatedAt : Z
}.
End User.

Module Post.
Record row : Type := mk {
  id : Z;
  userId : Z;
  title : string;
  content : string;
  published : bool;
  createdAt : Z;
  updatedAt : Z
}.
End Post.

(** One entry of the conversation handed to the model. *)
Definition ChatMessage : Type := (Role * string)%type.

(** What the program asks of the hosted model, in call order (newest
    first in the list). *)
Inductive Event : Type :=
| GenerateTextCall (system : option string) (messages : list ChatMessage)
| AgentInvoke (systemPrompt : string) (toolNames : list string)
              (messages : list ChatMessage)
| ExecutorInvoke (systemPrompt : string) (toolNames : list string)
                 (input : string) (chat_history : list ChatMessage)
| ToolRun (toolName : string) (args : JsValue).

(** The world a request runs in. Tables hold their rows in insertion
    order, each with the next value of its identity sequence; [clock] is
    the server time in milliseconds, the source of [defaultNow()] and of
    [new Date()]. *)
Record World : Type := mkWorld {
  Messages : list Message.row;
  Message_seq : Z;
  Users : list User.row;
  User_seq : Z;
  Posts : list Post.row;
  Post_seq : Z;
  clock : Z;
  trace : list Event
}.

Definition empty_world : World :=
  mkWorld [] 1 [] 1 [] 1 0 [].

(* ===================================================================== *)
(** ** Requests: state that survives a throw *)
(* ===================================================================== *)

Inductive Exception : Type :=
| ValidationError
| UpstreamGenerationError (cause : string)
| StoreError (cause : string).

Inductive Result (A : Type) : Type :=
| Returned (a : A)
| Thrown (e : Exception).
Arguments Returned {A} a.
Arguments Thrown {A} e.

(** No request runs inside a transaction: every statement commits on its
    own, so the world reached before a throw is the world that remains. *)
Definition M (A : Type) : Type := World -> World * Result A.

Definition ret {A} (a : A) : M A := fun w => (w, Returned a).

Definition throw {A} (e : Exception) : M A := fun w => (w, Thrown e).

Definition bind {A B} (c : M A) (k : A -> M B) : M B :=
  fun w => match c w with
           | (w', Returned a) => k a w'
           | (w', Thrown e) => (w', Thrown e)
           end.

Notation "x <- c ;; k" := (bind c (fun x => k))
  (at level 61, c at next level, right associativity).
Notation "c ;;; k" := (bind c (fun _ => k))
  (at level 61, right associativity).

Definition get_world : M World := fun w => (w, Returned w).

(** Time passing while the request awaits a remote call. *)
Definition sleep (d : N) : M unit :=
  fun w => (mkWorld (Messages w) (Message_seq w) (Users w) (User_seq w)
                    (Posts w) (Post_seq w) (clock w + Z.of_N d) (trace w),
            Returned tt).

Definition emit (e : Event) : M unit :=
  fun w => (mkWorld (Messages w) (Message_seq w) (Users w) (User_seq w)
                    (Posts w) (Post_seq w) (clock w) (e :: trace w),
            Returned tt).

(** A tRPC procedure: the input schema runs first, the resolver only on a
    successful parse. *)
Definition procedure {A B} (input_schema : Schema A) (resolver : A -> M B)
  : JsValue -> M B :=
  fun input => match input_schema input with
               | Some a => resolver a
               | None => throw ValidationError
               end.

(* ===================================================================== *)
(** ** The query builder *)
(* ===================================================================== *)

(** [ORDER BY]: the rows are compared on the key alone. The sort moves a
    row only past rows it must come before, so rows with equal keys stay
    in table order, whichever the direction; the code names no second
    key. The clause itself promises no order among equal keys: what is
    stated below about the place of a row in a result is stated for rows
    whose key differs from the others', or for every arrangement that is
    sorted on the key. *)
Section OrderBy.
Context {A : Type} (le : A -> A -> bool).

Fixpoint insert_sorted (x : A) (l : list A) : list A :=
  match l with
  | [] => [x]
  | y :: rest => if le x y then x :: l else y :: insert_sorted x rest
  end.

Fixpoint sort_by (l : list A) : list A :=
  match l with
  | [] => []
  | x :: rest => insert_sorted x (sort_by rest)
  end.
End OrderBy.

Definition asc {A} (key : A -> Z) : A -> A -> bool :=
  fun a b => key a <=? key b.

Definition desc {A} (key : A -> Z) : A -> A -> bool :=
  fun a b => key b <=? key a.

Definition orderBy {A} (le : A -> A -> bool) (rows : list A) : list A :=
  sort_by le rows.

Definition limit {A} (n : nat) (rows : list A) : list A := firstn n rows.

(** The id columns are [t.integer()]: four bytes, so no stored id is above
    [int4_max] and the identity sequences stop there. A parameter compared
    with such a column, or written to it, is read at the column's type: one
    that does not fit makes the statement raise before it runs. Since a
    stored id always fits, the statements below look the id up first and
    raise on a miss with an id that does not fit. The end of a sequence is
    followed for the User and Post tables; the Message sequence is taken
    to have values left. *)
Definition int4_max : Z := 2147483647.

Definition out_of_range (k : Z) : bool := int4_max <? k.

Definition is_nil {A} (l : list A) : bool :=
  match l with [] => true | _ :: _ => false end.

(** [db.insert(Message).values({ role, content }).returning()]: the one
    inserted row, which callers read as element 0 of the result. *)
Definition insert_Message (r : Role) (c : string) : M Message.row :=
  fun w =>
    let m := Message.mk (Message_seq w) r c (clock w) in
    (mkWorld (Messages w ++ [m])%list (Message_seq w + 1) (Users w) (User_seq w)
             (Posts w) (Post_seq w) (clock w) (trace w),
     Returned m).

(** [db.select().from(Message).orderBy(desc(Message.createdAt)).limit(n)] *)
Definition select_Message_recent (n : nat) : M (list Message.row) :=
  fun w => (w, Returned (limit n (orderBy (desc Message.createdAt) (Messages w)))).

(** [db.select().from(Message).orderBy(Message.createdAt)] *)
Definition select_Message_all : M (list Message.row) :=
  fun w => (w, Returned (orderBy (asc Message.createdAt) (Messages w))).

(** [db.delete(Message)]: no [where], every row goes; the result carries
    the number of rows removed. *)
Definition delete_Message : M Z :=
  fun w =>
    (mkWorld [] (Message_seq w) (Users w) (User_seq w)
             (Posts w) (Post_seq w) (clock w) (trace w),
     Returned (Z.of_nat (List.length (Messages w)))).

(** The two reads of the Message Store named by the contract. *)
Definition recent (n : nat) (w : World) : list Message.row :=
  limit n (orderBy (desc Message.createdAt) (Messages w)).

Definition all (w : World) : list Message.row :=
  orderBy (asc Message.createdAt) (Messages w).

(* ===================================================================== *)
(** ** The hosted model *)
(* ===================================================================== *)

(** What a remote call comes back with: how long it took and either the
    cause it threw with or its value. *)
Record Reply (A : Type) : Type := mkReply {
  elapsed : N;
  outcome : string + A
}.
Arguments mkReply {A} elapsed outcome.
Arguments elapsed {A} r.
Arguments outcome {A} r.

(** [generateText({ model, system, messages })], an opaque capability. *)
Definition GenerateText : Type :=
  option string -> list ChatMessage -> Reply string.

Definition generateText (model : GenerateText) (system : option string)
    (messages : list ChatMessage) : M string :=
  emit (GenerateTextCall system messages) ;;;
  let r := model system messages in
  sleep (elapsed r) ;;;
  match outcome r with
  | inl cause => throw (UpstreamGenerationError cause)
  | inr text => ret text
  end.

(* ===================================================================== *)
(** ** chatRouter *)
(* ===================================================================== *)

Definition prompt_default : string :=
  "You are a friendly and helpful AI assistant. Please answer questions in a concise and clear manner.".

Definition prompt_luffy : string :=
  ("You are Monkey D. Luffy, the main character from One Piece and captain of the Straw Hat Pirates.

Personality traits:
- Energetic, optimistic, and never give up
- Speak simply and directly, often say " ++ dquote ++
   "I'm gonna be King of the Pirates!" ++ dquote ++
   "
- Love eating meat, especially huge chunks of meat
- Extremely loyal to friends, would do anything for crewmates
- A bit naive but very brave
- Use catchphrases like " ++ dquote ++
   "Hehe" ++ dquote ++
   ", " ++ dquote ++
   "That's awesome!" ++ dquote ++
   ", " ++ dquote ++
   "That's interesting!" ++ dquote ++
   "

Speaking style:
- Use simple, enthusiastic language
- Often mention adventure, friends, and dreams
- Show great enthusiasm for food (especially meat)
- When facing difficulties, say " ++ dquote ++
   "I'll never give up!" ++ dquote ++
   "

Please answer user questions in Luffy's tone and style.").

Definition prompt_ironman : string :=
  ("You are Tony Stark (Iron Man), genius inventor and superhero.

Personality traits:
- Intelligent, confident, a bit narcissistic
- Like to respond with humor and sarcasm
- Often mention technology and inventions
- Speak with a bit of arrogance but very charming

Speaking style:
- Use smart, witty language
- Occasionally joke or self-deprecate
- Mention Stark Industries and technology
- Call others " ++ dquote ++
   "kid" ++ dquote ++
   ", " ++ dquote ++
   "buddy" ++ dquote ++
   ", etc.").

Definition prompt_goku : string :=
  ("You are Son Goku, the main character from Dragon Ball and Super Saiyan warrior.

Personality traits:
- Love fighting and always want to get stronger
- Simple, kind, optimistic
- Love eating a lot
- Passionate about training and fighting

Speaking style:
- Use simple, direct language
- Often mention training, getting stronger, fighting
- Show great interest in food
- Use catchphrases like " ++ dquote ++
   "Yoshi" ++ dquote ++
   ", " ++ dquote ++
   "Not bad!" ++ dquote).

(** The persona table, an object literal read by key. *)
Definition SYSTEM_PROMPTS : list (string * string) :=
  [ ("default", prompt_default);
    ("luffy", prompt_luffy);
    ("ironman", prompt_ironman);
    ("goku", prompt_goku) ].

Fixpoint object_get (k : string) (o : list (string * string)) : option string :=
  match o with
  | [] => None
  | (k', v) :: rest => if String.eqb k k' then Some v else object_get k rest
  end.

Definition to_chat_message (msg : Message.row) : ChatMessage :=
  (Message.role msg, Message.content msg).

Module chatRouter.

Record input : Type := mkInput {
  content : string;
  character : string
}.

Record output : Type := mkOutput {
  userMessage : Message.row;
  assistantMessage : Message.row
}.

Definition character_keys : list string :=
  ["default"; "luffy"; "ironman"; "goku"].

Definition input_schema : Schema input :=
  fun v =>
    if z_is_object v then
      match z_max 10000 (z_min 1 z_string) (prop "content" v),
            z_default "default" (z_optional (z_enum character_keys))
                      (prop "character" v) with
      | Some c, Some k => Some (mkInput c k)
      | _, _ => None
      end
    else None.

Definition sendChat (model : GenerateText) : JsValue -> M output :=
  procedure input_schema (fun input =>
    (* 1. Save user message to database *)
    userMessage <- insert_Message user (content input) ;;
    (* 2. Get recent message history *)
    history <- select_Message_recent 10 ;;
    let messages := rev history in
    (* 3. Call the model *)
    let systemPrompt := object_get (character input) SYSTEM_PROMPTS in
    text <- generateText model systemPrompt (map to_chat_message messages) ;;
    (* 4. Save AI response to database *)
    assistantMessage <- insert_Message assistant text ;;
    ret (mkOutput userMessage assistantMessage)).

Definition getMessages : M (list Message.row) := select_Message_all.

Definition clearMessages : M Z := delete_Message.

End chatRouter.

(* ===================================================================== *)
(** ** userRouter and postRouter *)
(* ===================================================================== *)

(** zod's [email()] format test, a library regular expression. *)
Class Zod : Type := { is_email : string -> bool }.

Definition z_email `{Zod} (sch : Schema string) : Schema string :=
  fun v => match sch v with
           | Some s => if is_email s then Some s else None
           | None => None
           end.

Definition set_Users (us : list User.row) (seq : Z) (w : World) : World :=
  mkWorld (Messages w) (Message_seq w) us seq (Posts w) (Post_seq w)
          (clock w) (trace w).

Definition set_Posts (ps : list Post.row) (seq : Z) (w : World) : World :=
  mkWorld (Messages w) (Message_seq w) (Users w) (User_seq w) ps seq
          (clock w) (trace w).

Module userRouter.

Record create_input : Type := mkCreate {
  name : string;
  email : string;
  bio : option string
}.

(** [CreateUserSchema] *)
Definition CreateUserSchema `{Zod} : Schema create_input :=
  fun v =>
    if z_is_object v then
      match z_max 255 (z_min 1 z_string) (prop "name" v),
            z_max 255 (z_email z_string) (prop "email" v),
            z_optional (z_max 1000 z_string) (prop "bio" v) with
      | Some n, Some e, Some b => Some (mkCreate n e b)
      | _, _, _ => None
      end
    else None.

(** [db.insert(User).values(input).returning()]; email is unique. The id
    is drawn from the identity sequence when the row is formed, before the
    unique index is consulted, and a refused row does not give it back. *)
Definition insert_User (input : create_input) : M User.row :=
  fun w =>
    if int4_max <? User_seq w
    then (w, Thrown (StoreError "nextval: reached maximum value of sequence"))
    else if existsb (fun u => String.eqb (User.email u) (email input)) (Users w)
    then (set_Users (Users w) (User_seq w + 1) w,
          Thrown (StoreError "duplicate key value violates unique constraint"))
    else
      let u := User.mk (User_seq w) (name input) (email input) (bio input)
                       (clock w) (clock w) in
      (set_Users (Users w ++ [u])%list (User_seq w + 1) w, Returned u).

Definition create `{Zod} : JsValue -> M User.row :=
  procedure CreateUserSchema insert_User.

Definition id_schema (field : string) : Schema Z :=
  fun v => if z_is_object v then z_number_int_positive (prop field v) else None.

(** [db.query.User.findFirst({ where: eq(User.id, id), with: { posts } })];
    the posts come with no [orderBy], here in table order. An id that no
    row has and that is no integer of the column makes the query raise. *)
Definition getById : JsValue -> M (option (User.row * list Post.row)) :=
  procedure (id_schema "id") (fun id w =>
    match find (fun u => User.id u =? id) (Users w) with
    | Some u =>
        (w, Returned (Some (u, filter (fun p => Post.userId p =? User.id u) (Posts w))))
    | None =>
        if out_of_range id
        then (w, Thrown (StoreError "value out of range for type integer"))
        else (w, Returned None)
    end).

Record update_data : Type := mkData {
  set_name : option string;
  set_email : option string;
  set_bio : option string
}.

(** [UpdateUserSchema = CreateUserSchema.partial()] *)
Definition UpdateUserSchema `{Zod} : Schema update_data :=
  fun v =>
    if z_is_object v then
      match z_optional (z_max 255 (z_min 1 z_string)) (prop "name" v),
            z_optional (z_max 255 (z_email z_string)) (prop "email" v),
            z_optional (z_max 1000 z_string) (prop "bio" v) with
      | Some n, Some e, Some b => Some (mkData n e b)
      | _, _, _ => None
      end
    else None.

Definition update_schema `{Zod} : Schema (Z * update_data) :=
  fun v =>
    if z_is_object v then
      match z_number_int_positive (prop "id" v), UpdateUserSchema (prop "data" v) with
      | Some i, Some d => Some (i, d)
      | _, _ => None
      end
    else None.

(** [{ ...input.data, updatedAt: new Date() }] applied to one row: a field
    left out of the data keeps its value. *)
Definition apply_data (data : update_data) (now : Z) (u : User.row) : User.row :=
  User.mk (User.id u)
          (match set_name data with Some n => n | None => User.name u end)
          (match set_email data with Some e => e | None => User.email u end)
          (match set_bio data with Some b => Some b | None => User.bio u end)
          (User.createdAt u)
          now.

(** [db.update(User).set(...).where(eq(User.id, id)).returning()], read as
    [const [user] = ...]; email stays unique. *)
Definition update_User (input : Z * update_data) : M (option User.row) :=
  fun w =>
    let '(i, data) := input in
    let hit := existsb (fun u => User.id u =? i) (Users w) in
    let clash :=
      match set_email data with
      | Some e => hit && existsb (fun u => negb (User.id u =? i) &&
                                          String.eqb (User.email u) e) (Users w)
      | None => false
      end in
    if negb hit && out_of_range i
    then (w, Thrown (StoreError "value out of range for type integer"))
    else if clash
    then (w, Thrown (StoreError "duplicate key value violates unique constraint"))
    else
      let rows := map (fun u => if User.id u =? i
                                then apply_data data (clock w) u else u)
                      (Users w) in
      (set_Users rows (User_seq w) w,
       Returned (find (fun u => User.id u =? i) rows)).

Definition update `{Zod} : JsValue -> M (option User.row) :=
  procedure update_schema update_User.

Definition list : M (list User.row) :=
  fun w => (w, Returned (orderBy (desc User.createdAt) (Users w))).

Definition count : M Z :=
  fun w => (w, Returned (Z.of_nat (List.length (Users w)))).

End userRouter.

Module postRouter.

Record create_input : Type := mkCreate {
  userId : Z;
  title : string;
  content : string;
  published : option bool
}.

(** [CreatePostSchema] *)
Definition CreatePostSchema : Schema create_input :=
  fun v =>
    if z_is_object v then
      match z_number_int_positive (prop "userId" v),
            z_max 500 (z_min 1 z_string) (prop "title" v),
            z_min 1 z_string (prop "content" v),
            z_optional z_boolean (prop "published" v) with
      | Some u, Some t, Some c, Some p => Some (mkCreate u t c p)
      | _, _, _, _ => None
      end
    else None.

(** [db.insert(Post).values(input).returning()]; userId references
    User.id, published defaults to false. The id is drawn when the row is
    formed; the reference is checked on the row once it is written, and a
    refused row does not give the id back. *)
Definition insert_Post (input : create_input) : M Post.row :=
  fun w =>
    let known := existsb (fun u => User.id u =? userId input) (Users w) in
    if negb known && out_of_range (userId input)
    then (w, Thrown (StoreError "value out of range for type integer"))
    else if int4_max <? Post_seq w
    then (w, Thrown (StoreError "nextval: reached maximum value of sequence"))
    else if known
    then
      let p := Post.mk (Post_seq w) (userId input) (title input)
                       (content input)
                       (match published input with Some b => b | None => false end)
                       (clock w) (clock w) in
      (set_Posts (Posts w ++ [p])%list (Post_seq w + 1) w, Returned p)
    else (set_Posts (Posts w) (Post_seq w + 1) w,
          Thrown (StoreError "violates foreign key constraint")).

Definition create : JsValue -> M Post.row :=
  procedure CreatePostSchema insert_Post.

(** [limit: z.number().int().positive().max(100).default(50)], the whole
    object optional. *)
Definition list_schema : Schema (option Z) :=
  fun v =>
    match v with
    | JsUndefined => Some None
    | JsObject _ =>
        match prop "limit" v with
        | JsUndefined => Some (Some 50)
        | l => match z_number_int_positive l with
               | Some n => if n <=? 100 then Some (Some n) else None
               | None => None
               end
        end
    | _ => None
    end.

(** [db.query.Post.findMany({ where: eq(Post.userId, userId), orderBy })];
    a user id that no post has and that is no integer of the column makes
    the query raise. *)
Definition listByUser : JsValue -> M (list Post.row) :=
  procedure (userRouter.id_schema "userId") (fun uid w =>
    let rows := filter (fun p => Post.userId p =? uid) (Posts w) in
    if is_nil rows && out_of_range uid
    then (w, Thrown (StoreError "value out of range for type integer"))
    else (w, Returned (orderBy (desc Post.createdAt) rows))).

Record update_data : Type := mkData {
  set_userId : option Z;
  set_title : option string;
  set_content : option string;
  set_published : option bool
}.

(** [UpdatePostSchema = CreatePostSchema.partial()] *)
Definition UpdatePostSchema : Schema update_data :=
  fun v =>
    if z_is_object v then
      match z_optional z_number_int_positive (prop "userId" v),
            z_optional (z_max 500 (z_min 1 z_string)) (prop "title" v),
            z_optional (z_min 1 z_string) (prop "content" v),
            z_optional z_boolean (prop "published" v) with
      | Some u, Some t, Some c, Some p => Some (mkData u t c p)
      | _, _, _, _ => None
      end
    else None.

Definition update_schema : Schema (Z * update_data) :=
  fun v =>
    if z_is_object v then
      match z_number_int_positive (prop "id" v), UpdatePostSchema (prop "data" v) with
      | Some i, Some d => Some (i, d)
      | _, _ => None
      end
    else None.

Definition apply_data (data : update_data) (now : Z) (p : Post.row) : Post.row :=
  Post.mk (Post.id p)
          (match set_userId data with Some u => u | None => Post.userId p end)
          (match set_title data with Some t => t | None => Post.title p end)
          (match set_content data with Some c => c | None => Post.content p end)
          (match set_published data with Some b => b | None => Post.published p end)
          (Post.createdAt p)
          now.

(** [db.update(Post).set(...).where(eq(Post.id, id)).returning()]; userId
    still references a user. *)
Definition update_Post (input : Z * update_data) : M (option Post.row) :=
  fun w =>
    let '(i, data) := input in
    let hit := existsb (fun p => Post.id p =? i) (Posts w) in
    let known u := existsb (fun x => User.id x =? u) (Users w) in
    let orphan :=
      match set_userId data with
      | Some u => hit && negb (known u)
      | None => false
      end in
    let unfit :=
      match set_userId data with
      | Some u => negb (known u) && out_of_range u
      | None => false
      end in
    if (negb hit && out_of_range i) || unfit
    then (w, Thrown (StoreError "value out of range for type integer"))
    else if orphan
    then (w, Thrown (StoreError "violates foreign key constraint"))
    else
      let rows := map (fun p => if Post.id p =? i
                                then apply_data data (clock w) p else p)
                      (Posts w) in
      (set_Posts rows (Post_seq w) w,
       Returned (find (fun p => Post.id p =? i) rows)).

Definition update : JsValue -> M (option Post.row) :=
  procedure update_schema update_Post.

(** [db.query.Post.findFirst({ where: eq(Post.id, id), with: { user } })] *)
Definition getById : JsValue -> M (option (Post.row * option User.row)) :=
  procedure (userRouter.id_schema "id") (fun i w =>
    match find (fun p => Post.id p =? i) (Posts w) with
    | Some p =>
        (w, Returned (Some (p, find (fun u => User.id u =? Post.userId p) (Users w))))
    | None =>
        if out_of_range i
        then (w, Thrown (StoreError "value out of range for type integer"))
        else (w, Returned None)
    end).

Definition list : JsValue -> M (list (Post.row * option User.row)) :=
  procedure list_schema (fun input w =>
    let n := match input with Some l => l | None => 50 end in
    (w, Returned
          (map (fun p => (p, find (fun u => User.id u =? Post.userId p) (Users w)))
               (limit (Z.to_nat n) (orderBy (desc Post.createdAt) (Posts w)))))).

End postRouter.

(* ===================================================================== *)
(** ** Tool adapters *)
(* ===================================================================== *)

Record DynamicStructuredTool : Type := mkTool {
  name : string;
  description : string;
  Input : Type;
  schema : Schema Input;
  func : Input -> M string
}.

Definition js_option_string (o : option string) : JsValue :=
  match o with Some s => JsString s | None => JsUndefined end.

Definition js_nullable_string (o : option string) : JsValue :=
  match o with Some s => JsString s | None => JsNull end.

Definition js_option_bool (o : option bool) : JsValue :=
  match o with Some b => JsBool b | None => JsUndefined end.

Definition string_of_bool (b : bool) : string :=
  if b then "true" else "false".

Section UserTools.
Context `{Zod}.

Definition createUserTool : DynamicStructuredTool :=
  mkTool "create_user"
    ("Create a new user in the database. Use this when asked to add, create, or register a user. Provide the user's name, email, and optionally a bio.")
    (string * string * option string)
    (fun v =>
       if z_is_object v then
         match z_string (prop "name" v), z_email z_string (prop "email" v),
               z_optional z_string (prop "bio" v) with
         | Some n, Some e, Some b => Some (n, e, b)
         | _, _, _ => None
         end
       else None)
    (fun '(n, e, b) =>
       u <- userRouter.create
              (JsObject [("name", JsString n); ("email", JsString e);
                         ("bio", js_option_string b)]) ;;
       ret ("Successfully created user: " ++ User.name u ++ " (ID: " ++
            string_of_Z (User.id u) ++ ", Email: " ++ User.email u ++ ")")).

Definition getUserTool : DynamicStructuredTool :=
  mkTool "get_user"
    "Get detailed information about a specific user by their ID, including their posts. Use this when you need to look up user details or check if a user exists."
    Z
    (userRouter.id_schema "id")
    (fun id =>
       found <- userRouter.getById (JsObject [("id", JsNumber id)]) ;;
       match found with
       | None => ret ("User with ID " ++ string_of_Z id ++ " not found")
       | Some (u, posts) =>
           ret (JSON_stringify
                  (JsObject [("id", JsNumber (User.id u));
                             ("name", JsString (User.name u));
                             ("email", JsString (User.email u));
                             ("bio", js_nullable_string (User.bio u));
                             ("postCount", JsNumber (Z.of_nat (List.length posts)));
                             ("createdAt", JsDate (User.createdAt u))]))
       end).

Definition listUsersTool : DynamicStructuredTool :=
  mkTool "list_users"
    "Get a list of all users in the database. Use this to see who exists in the system or when asked to show all users."
    unit
    (fun v => if z_is_object v then Some tt else None)
    (fun _ =>
       users <- userRouter.list ;;
       if Z.of_nat (List.length users) =? 0
       then ret "No users found in the database."
       else ret (JSON_stringify
                   (JsArray (map (fun u =>
                                    JsObject [("id", JsNumber (User.id u));
                                              ("name", JsString (User.name u));
                                              ("email", JsString (User.email u))])
                                 users)))).

Definition countUsersTool : DynamicStructuredTool :=
  mkTool "count_users"
    "Count the total number of users in the database. Use this when asked 'how many users' or to get user statistics."
    unit
    (fun v => if z_is_object v then Some tt else None)
    (fun _ =>
       n <- userRouter.count ;;
       ret ("Total users in database: " ++ string_of_Z n)).

Definition createUserTools : list DynamicStructuredTool :=
  [createUserTool; getUserTool; listUsersTool; countUsersTool].
End UserTools.

Definition createPostTool : DynamicStructuredTool :=
  mkTool "create_post"
    "Create a new blog post for a specific user. You must provide the userId of the author, along with the post title and content. Optionally specify if it should be published immediately."
    (Z * string * string * option bool)
    (fun v =>
       if z_is_object v then
         match z_number_int_positive (prop "userId" v), z_string (prop "title" v),
               z_string (prop "content" v), z_optional z_boolean (prop "published" v) with
         | Some u, Some t, Some c, Some p => Some (u, t, c, p)
         | _, _, _, _ => None
         end
       else None)
    (fun '(u, t, c, p) =>
       post <- postRouter.create
                 (JsObject [("userId", JsNumber u); ("title", JsString t);
                            ("content", JsString c); ("published", js_option_bool p)]) ;;
       ret ("Successfully created post: " ++ dquote ++ Post.title post ++ dquote ++
            " (ID: " ++ string_of_Z (Post.id post) ++ ") for user " ++
            string_of_Z (Post.userId post) ++ ". Published: " ++
            string_of_bool (Post.published post))).

Definition getPostsByUserTool : DynamicStructuredTool :=
  mkTool "get_posts_by_user"
    "Get all posts created by a specific user. Use this to see what a user has written or to check a user's posts."
    Z
    (userRouter.id_schema "userId")
    (fun userId =>
       posts <- postRouter.listByUser (JsObject [("userId", JsNumber userId)]) ;;
       if Z.of_nat (List.length posts) =? 0
       then ret ("User " ++ string_of_Z userId ++ " has not created any posts yet.")
       else ret (JSON_stringify
                   (JsArray (map (fun p =>
                                    JsObject [("id", JsNumber (Post.id p));
                                              ("title", JsString (Post.title p));
                                              ("published", JsBool (Post.published p));
                                              ("contentPreview",
                                               JsString (String.substring 0 100 (Post.content p) ++ "..."));
                                              ("createdAt", JsDate (Post.createdAt p))])
                                 posts)))).

Definition listPostsTool : DynamicStructuredTool :=
  mkTool "list_posts"
    "Get a list of all posts in the database with their authors. Use this to see all posts across all users."
    unit
    (fun v => if z_is_object v then Some tt else None)
    (fun _ =>
       posts <- postRouter.list JsUndefined ;;
       if Z.of_nat (List.length posts) =? 0
       then ret "No posts found in the database."
       else ret (JSON_stringify
                   (JsArray (map (fun pu =>
                                    let p := fst pu in
                                    JsObject [("id", JsNumber (Post.id p));
                                              ("title", JsString (Post.title p));
                                              ("authorName",
                                               JsString (match snd pu with
                                                         | Some u => User.name u
                                                         | None => "Unknown"
                                                         end));
                                              ("published", JsBool (Post.published p));
                                              ("createdAt", JsDate (Post.createdAt p))])
                                 posts)))).

Definition createPostTools : list DynamicStructuredTool :=
  [createPostTool; getPostsByUserTool; listPostsTool].

(* ===================================================================== *)
(** ** The agent runtime *)
(* ===================================================================== *)

(** What the runtime gets back from one tool call. *)
Inductive ToolOutcome : Type :=
| ToolReturned (text : string)
| ToolThrew (e : Exception)
| ToolNotFound.

(** One invocation of the agent, as the hosted model drives it: it waits,
    then finishes with a result, throws, or asks for a tool and goes on
    with what the tool gave. The runtime bounds the number of rounds, so a
    run is a finite tree. *)
Inductive AgentRun (R : Type) : Type :=
| Finish (d : N) (result : R)
| Fail (d : N) (cause : string)
| CallTool (d : N) (toolName : string) (args : JsValue)
           (k : ToolOutcome -> AgentRun R).
Arguments Finish {R} d result.
Arguments Fail {R} d cause.
Arguments CallTool {R} d toolName args k.

Fixpoint find_tool (nm : string) (tools : list DynamicStructuredTool)
  : option DynamicStructuredTool :=
  match tools with
  | [] => None
  | t :: rest => if String.eqb (name t) nm then Some t else find_tool nm rest
  end.

(** [tool.invoke(args)]: parse with the tool's schema, then [func]. *)
Definition invoke_tool (t : DynamicStructuredTool) (args : JsValue) : M string :=
  match schema t args with
  | Some i => func t i
  | None => throw ValidationError
  end.

Definition call_tool (tools : list DynamicStructuredTool) (nm : string)
    (args : JsValue) (w : World) : World * ToolOutcome :=
  match find_tool nm tools with
  | None => (w, ToolNotFound)
  | Some t =>
      match (emit (ToolRun nm args) ;;; invoke_tool t args) w with
      | (w', Returned text) => (w', ToolReturned text)
      | (w', Thrown e) => (w', ToolThrew e)
      end
  end.

Fixpoint run_agent {R} (tools : list DynamicStructuredTool) (run : AgentRun R)
  : M R :=
  match run with
  | Finish d result => sleep d ;;; ret result
  | Fail d cause => sleep d ;;; throw (UpstreamGenerationError cause)
  | CallTool d nm args k =>
      sleep d ;;;
      (fun w => let (w', out) := call_tool tools nm args w in
                run_agent tools (k out) w')
  end.

Definition AGENT_SYSTEM_PROMPT : string :=
  ("You are an AI assistant that helps manage a blog platform with users and posts.

You have access to tools that can:
- User management: create users, get user details, list all users, count total users
- Post management: create posts for users, get posts by user, list all posts

When users ask you to perform actions:
1. Use the appropriate tools to complete the task
2. Be conversational and friendly in your responses
3. Provide clear confirmation of what you've done with specific details (IDs, names)
4. If you need information (like a user ID), first use list or get tools to find it
5. When creating mock data, use realistic names, emails, and content

For example:
- " ++ dquote ++
   "create some mock users" ++ dquote ++
   " → Use create_user tool multiple times with realistic data, then confirm what you created
- " ++ dquote ++
   "create posts for user 1" ++ dquote ++
   " → Use create_post tool with userId=1, confirm with post titles and IDs
- " ++ dquote ++
   "how many users do we have?" ++ dquote ++
   " → Use count_users tool and provide a friendly response

Always confirm successful operations and provide relevant details. Be educational and explain what you're doing since this is a tutorial demonstration!").

(** [a || b] on strings: the empty string is falsy. *)
Definition or_else (a b : string) : string :=
  match a with EmptyString => b | _ => a end.

(* ===================================================================== *)
(** ** agentRouter (createAgent) *)
(* ===================================================================== *)

Module agentRouter.

(** The part of a result message the procedure reads. *)
Inductive ContentPart : Type :=
| PartString (s : string)
| PartObject (text : option string).

Inductive MessageContent : Type :=
| ContentString (s : string)
| ContentArray (parts : list ContentPart)
| ContentOther.

Record RawToolCall : Type := mkRaw {
  raw_name : option string;
  raw_args : JsValue
}.

(** [tool_calls] is [Some] when the message has the property and it is
    an array. *)
Record ResultMessage : Type := mkMsg {
  content : MessageContent;
  tool_calls : option (list RawToolCall)
}.

Record AgentState : Type := mkState { messages : list ResultMessage }.

Definition Agent : Type := list ChatMessage -> AgentRun AgentState.

Record toolCall : Type := mkToolCall {
  toolName : string;
  input : JsValue;
  output : JsValue;
  timestamp : string;
  success : bool
}.

Record chat_output : Type := mkOutput {
  userMessage : Message.row;
  assistantMessage : Message.row;
  toolCalls : option (list toolCall)
}.

Definition input_schema : Schema string :=
  fun v => if z_is_object v
           then z_max 10000 (z_min 1 z_string) (prop "message" v)
           else None.

(** [result.messages[result.messages.length - 1]] *)
Definition lastMessage (result : AgentState) : option ResultMessage :=
  nth_error (messages result) (List.length (messages result) - 1).

Definition part_text (c : ContentPart) : string :=
  match c with
  | PartString s => s
  | PartObject t => or_else (match t with Some s => s | None => EmptyString end) EmptyString
  end.

Definition aiResponse (result : AgentState) : string :=
  or_else
    match option_map content (lastMessage result) with
    | Some (ContentString s) => s
    | Some (ContentArray parts) => String.concat EmptyString (map part_text parts)
    | _ => EmptyString
    end
    EmptyString.

Definition extract_toolCalls (now : Z) (result : AgentState) : list toolCall :=
  flat_map
    (fun msg =>
       match tool_calls msg with
       | Some msgToolCalls =>
           map (fun tc =>
                  mkToolCall
                    (or_else (match raw_name tc with Some s => s | None => EmptyString end)
                             "unknown")
                    (raw_args tc)
                    (JsObject [])
                    (toISOString now)
                    true)
               msgToolCalls
       | None => []
       end)
    (messages result).

Definition chat `{Zod} (agent : Agent) : JsValue -> M chat_output :=
  procedure input_schema (fun message =>
    (* 1. Save user message to database *)
    userMessage <- insert_Message user message ;;
    (* 2. Get conversation history (last 10 messages) *)
    history <- select_Message_recent 10 ;;
    let previousMessages := rev history in
    (* 3. Build conversation messages *)
    let conversationMessages :=
      (map (fun msg => (if Role_eqb (Message.role msg) user then user else assistant,
                        Message.content msg))
           previousMessages
       ++ [(user, message)])%list in
    (* 4-5. Caller and tools *)
    let tools := (createUserTools ++ createPostTools)%list in
    (* 6-7. Create and invoke the agent *)
    emit (AgentInvoke AGENT_SYSTEM_PROMPT (map name tools) conversationMessages) ;;;
    result <- run_agent tools (agent conversationMessages) ;;
    (* 8-9. Extract the response and the tool calls *)
    w <- get_world ;;
    let toolCalls := extract_toolCalls (clock w) result in
    (* 10. Save agent response to database *)
    assistantMessage <- insert_Message assistant (aiResponse result) ;;
    ret (mkOutput userMessage assistantMessage
                  (if 0 <? Z.of_nat (List.length toolCalls)
                   then Some toolCalls else None))).

Definition getMessages : M (list Message.row) := select_Message_all.

Definition clearMessages : M Z := delete_Message.

End agentRouter.

(* ===================================================================== *)
(** ** agentRouter (AgentExecutor) *)
(* ===================================================================== *)

Module executorAgentRouter.

Record Step : Type := mkStep {
  tool : string;
  toolInput : JsValue;
  observation : string
}.

Record ExecutorResult : Type := mkResult {
  output : string;
  intermediateSteps : option (list Step)
}.

(** The executor is invoked with the input and the chat history. *)
Definition Executor : Type :=
  string -> list ChatMessage -> AgentRun ExecutorResult.

Record chat_output : Type := mkOutput {
  userMessage : Message.row;
  assistantMessage : Message.row;
  steps : option (list Step)
}.

(** The prompt template: system, chat history, the human input, then
    the scratchpad. *)
Definition prompt_messages (input : string) (chat_history : list ChatMessage)
  : list ChatMessage :=
  (chat_history ++ [(user, input)])%list.

Definition chat `{Zod} (executor : Executor) : JsValue -> M chat_output :=
  procedure agentRouter.input_schema (fun message =>
    (* 2-3. Caller and tools *)
    let tools := (createUserTools ++ createPostTools)%list in
    (* 7. Save user message to database *)
    userMessage <- insert_Message user message ;;
    (* 8. Get conversation history (last 10 messages) *)
    history <- select_Message_recent 10 ;;
    let messages := rev history in
    let chatHistory :=
      map (fun msg => match Message.role msg with
                      | user => (user, Message.content msg)
                      | assistant => (assistant, Message.content msg)
                      end) messages in
    (* 9. Execute the agent *)
    emit (ExecutorInvoke AGENT_SYSTEM_PROMPT (map name tools) message chatHistory) ;;;
    result <- run_agent tools (executor message chatHistory) ;;
    (* 10. Save agent response to database *)
    assistantMessage <- insert_Message assistant (output result) ;;
    ret (mkOutput userMessage assistantMessage
                  (option_map (map (fun step =>
                                      mkStep (tool step) (toolInput step)
                                             (observation step)))
                              (intermediateSteps result)))).

Definition getMessages : M (list Message.row) := select_Message_all.

Definition clearMessages : M Z := delete_Message.

End executorAgentRouter.

(* ===================================================================== *)
(** ** Requests and reachable worlds *)
(* ===================================================================== *)

Inductive Request : Type :=
| SendChat (model : GenerateText) (input : JsValue)
| AgentChat (agent : agentRouter.Agent) (input : JsValue)
| ExecutorChat (executor : executorAgentRouter.Executor) (input : JsValue)
| GetMessages
| ClearMessages
| UserCreate (input : JsValue)
| PostCreate (input : JsValue)
| Idle (d : N).

(** The world a request leaves behind, whether it returned or threw. *)
Definition serve `{Zod} (rq : Request) (w : World) : World :=
  match rq with
  | SendChat model input => fst (chatRouter.sendChat model input w)
  | AgentChat agent input => fst (agentRouter.chat agent input w)
  | ExecutorChat executor input => fst (executorAgentRouter.chat executor input w)
  | GetMessages => fst (chatRouter.getMessages w)
  | ClearMessages => fst (chatRouter.clearMessages w)
  | UserCreate input => fst (userRouter.create input w)
  | PostCreate input => fst (postRouter.create input w)
  | Idle d => fst (sleep d w)
  end.

Definition serve_all `{Zod} (rqs : list Request) (w : World) : World :=
  fold_left (fun w' rq => serve rq w') rqs w.

Definition reachable `{Zod} (w : World) : Prop :=
  exists rqs, w = serve_all rqs empty_world.

(* ===================================================================== *)
(** ** The words of the contract *)
(* ===================================================================== *)

(** No row carries a timestamp later than the clock. *)
Definition no_future (w : World) : Prop :=
  Forall (fun m => Message.createdAt m <= clock w) (Messages w).

Definition most_recent_first (rows : list Message.row) : Prop :=
  StronglySorted (fun a b => Message.createdAt b <= Message.createdAt a) rows.

Definition oldest_first (rows : list Message.row) : Prop :=
  StronglySorted (fun a b => Message.createdAt a <= Message.createdAt b) rows.

(** Every stored row is older than the clock: time has passed since the
    last row was stored. *)
Definition before_now (w : World) : Prop :=
  Forall (fun m => Message.createdAt m < clock w) (Messages w).

(** createdAt strictly increases along the table: no two rows share a
    timestamp. *)
Definition strictly_chronological (w : World) : Prop :=
  StronglySorted (fun a b => Message.createdAt a < Message.createdAt b)
                 (Messages w).

(** What [orderBy(Message.createdAt)] promises of a table: [l] holds its
    rows, each once, and createdAt never decreases along [l]. Among rows of
    one timestamp the clause promises no order. *)
Definition oldest_first_read (rows l : list Message.row) : Prop :=
  Permutation l rows /\ oldest_first l.

(** The row [insert_Message r c] adds to [w]. *)
Definition new_row (r : Role) (c : string) (w : World) : Message.row :=
  Message.mk (Message_seq w) r c (clock w).

(** The world right after the user turn is stored. *)
Definition after_user_turn (c : string) (w : World) : World :=
  fst (insert_Message user c w).

(** The rows of the context window, oldest first, read from the world
    that already holds the user turn. *)
Definition context_window (w1 : World) : list Message.row :=
  rev (recent 10 w1).

(** The history part of what the model or an agent is sent: the context
    window as role and content pairs. *)
Definition chat_history (w1 : World) : list ChatMessage :=
  map to_chat_message (context_window w1).

(** The world once an event was recorded, and once a remote call was
    recorded and has come back after [d] milliseconds. *)
Definition with_event (e : Event) (w : World) : World :=
  mkWorld (Messages w) (Message_seq w) (Users w) (User_seq w)
          (Posts w) (Post_seq w) (clock w) (e :: trace w).

Definition with_call (e : Event) (d : N) (w : World) : World :=
  mkWorld (Messages w) (Message_seq w) (Users w) (User_seq w)
          (Posts w) (Post_seq w) (clock w + Z.of_N d) (e :: trace w).

(** The tools an agent is given. *)
Definition agent_tools `{Zod} : list DynamicStructuredTool :=
  (createUserTools ++ createPostTools)%list.

(** The tool calls recorded in the messages an agent run returned. *)
Definition issued (result : agentRouter.AgentState) : list agentRouter.RawToolCall :=
  flat_map (fun msg => match agentRouter.tool_calls msg with
                       | Some l => l
                       | None => []
                       end)
           (agentRouter.messages result).

(** The entry the procedure records for one tool call of the result. *)
Definition trace_entry (now : Z) (raw : agentRouter.RawToolCall)
  : agentRouter.toolCall :=
  agentRouter.mkToolCall
    (or_else (match agentRouter.raw_name raw with
              | Some s => s
              | None => EmptyString
              end)
             "unknown")
    (agentRouter.raw_args raw)
    (JsObject [])
    (toISOString now)
    true.

Definition is_ToolRun (e : Event) : Prop :=
  match e with ToolRun _ _ => True | _ => False end.

(** [w'] differs from [w] in the user and post tables at most. *)
Definition entity_step (w w' : World) : Prop :=
  Messages w' = Messages w /\ Message_seq w' = Message_seq w /\
  clock w' = clock w /\ trace w' = trace w.

(** [w'] is [w] after an agent run: the Message table is untouched, the
    clock has not gone back and the trace has gained tool runs only. *)
Definition agent_step (w w' : World) : Prop :=
  Messages w' = Messages w /\ Message_seq w' = Message_seq w /\
  clock w <= clock w' /\
  exists evs, trace w' = (evs ++ trace w)%list /\ Forall is_ToolRun evs.

(* ===================================================================== *)
(** ** Sample worlds and collaborators *)
(* ===================================================================== *)

(** Two rows stamped in the same millisecond. *)
Definition tied_world : World :=
  mkWorld [ Message.mk 1 user "first" 5; Message.mk 2 user "second" 5 ]
          3 [] 1 [] 1 5 [].

(** One completed exchange, some time ago. *)
Definition two_turn_world : World :=
  mkWorld [ Message.mk 1 user "Hello" 5; Message.mk 2 assistant "Hi there" 9 ]
          3 [] 1 [] 1 12 [].

(** One completed exchange, the answer stored in this very millisecond. *)
Definition just_answered_world : World :=
  mkWorld [ Message.mk 1 user "Hello" 5; Message.mk 2 assistant "Hi there" 9 ]
          3 [] 1 [] 1 9 [].

(** A string of [n] copies of one character. *)
Fixpoint replicate (n : nat) (c : ascii) : string :=
  match n with
  | O => EmptyString
  | S n' => String c (replicate n' c)
  end.

Definition chat_input (s : string) : JsValue :=
  JsObject [("content", JsString s)].

Definition agent_input (s : string) : JsValue :=
  JsObject [("message", JsString s)].

(** A format test to run the procedures with: one [@], not at either end. *)
Definition sample_zod : Zod :=
  {| is_email := fun s =>
       match String.index 0 "@" s with
       | Some i => (0 <? Z.of_nat i) && (Z.of_nat i + 1 <? js_length s)
       | None => false
       end |}.

(** A model that is over quota, and one that answers [text] after [d] ms. *)
Definition failing_model : GenerateText :=
  fun _ _ => mkReply 0 (inl "quota exceeded").

Definition answering_model (d : N) (text : string) : GenerateText :=
  fun _ _ => mkReply d (inr text).

Definition failing_agent : agentRouter.Agent :=
  fun _ => Fail 2 "quota exceeded".

Definition failing_executor : executorAgentRouter.Executor :=
  fun _ _ => Fail 2 "quota exceeded".

(** Agents that answer nothing at all, and one that lists the users before
    it answers. *)
Definition silent_agent : agentRouter.Agent :=
  fun _ => Finish 4 (agentRouter.mkState []).

Definition silent_executor : executorAgentRouter.Executor :=
  fun _ _ => Finish 4 (executorAgentRouter.mkResult EmptyString None).

Definition listing_agent : agentRouter.Agent :=
  fun _ =>
    CallTool 1 "list_users" (JsObject [])
      (fun out =>
         Finish 1
           (agentRouter.mkState
              [ agentRouter.mkMsg (agentRouter.ContentString EmptyString)
                  (Some [agentRouter.mkRaw (Some "list_users") (JsObject [])]);
                agentRouter.mkMsg
                  (agentRouter.ContentString
                     match out with
                     | ToolReturned text => text
                     | _ => "error"
                     end)
                  None;
                agentRouter.mkMsg (agentRouter.ContentString "Nobody yet.")
                  (Some []) ])).

(** An agent asked to register Ada: it calls create_user and answers with
    what the tool said. *)
Definition registering_agent : agentRouter.Agent :=
  fun _ =>
    CallTool 1 "create_user"
      (JsObject [("name", JsString "Ada"); ("email", JsString "ada@example.com")])
      (fun out =>
         Finish 1
           (agentRouter.mkState
              [ agentRouter.mkMsg
                  (agentRouter.ContentArray
                     [ agentRouter.PartObject (Some "Done. ");
                       agentRouter.PartString
                         match out with
                         | ToolReturned text => text
                         | _ => "error"
                         end ])
                  (Some []) ])).

(* ===================================================================== *)
(** ** The insert schema of Message *)
(* ===================================================================== *)




(* ===================================================================== *)
(** ** The chat page *)
(* ===================================================================== *)

Module ChatPage.

Record state : Type := mkState {
  input : string;
  isLoading : bool
}.

(** The white space and line terminator code units below 256. *)
Definition is_white_space (c : ascii) : bool :=
  let n := Z.of_nat (nat_of_ascii c) in
  ((9 <=? n) && (n <=? 13)) || (n =? 32) || (n =? 160).

Fixpoint trimStart (s : string) : string :=
  match s with
  | EmptyString => EmptyString
  | String c rest => if is_white_space c then trimStart rest else s
  end.

(** [trimEnd s]: [s] without its trailing white space. *)
Fixpoint trimEnd (s : string) : string :=
  match s with
  | EmptyString => EmptyString
  | String c rest =>
      match trimEnd rest with
      | EmptyString => if is_white_space c then EmptyString
                       else String c EmptyString
      | kept => String c kept
      end
  end.

Definition trim (s : string) : string := trimEnd (trimStart s).

Definition is_empty (s : string) : bool :=
  match s with EmptyString => true | _ => false end.

Definition setInput (value : string) (s : state) : state :=
  mkState value (isLoading s).

(** [handleSubmit]: the new state and the mutation sent, if any. *)
Definition handleSubmit (s : state) : state * option JsValue :=
  if is_empty (trim (input s)) || isLoading s then (s, None)
  else (mkState (input s) true,
        Some (JsObject [("message", JsString (trim (input s)))])).

Definition handleKeyPress (key : string) (shiftKey : bool) (s : state)
  : state * option JsValue :=
  if String.eqb key "Enter" && negb shiftKey then handleSubmit s else (s, None).

Definition onSuccess (s : state) : state := mkState EmptyString false.

Definition onError (s : state) : state := mkState (input s) false.

End ChatPage.

(* ===================================================================== *)
(** ** Every procedure of the API, and what the tables always satisfy *)
(* ===================================================================== *)

Inductive Call : Type :=
| Serve (rq : Request)
| UserUpdate (input : JsValue)
| UserGetById (input : JsValue)
| UserList
| UserCount
| PostUpdate (input : JsValue)
| PostGetById (input : JsValue)
| PostList (input : JsValue)
| PostListByUser (input : JsValue).

Definition perform `{Zod} (c : Call) (w : World) : World :=
  match c with
  | Serve rq => serve rq w
  | UserUpdate input => fst (userRouter.update input w)
  | UserGetById input => fst (userRouter.getById input w)
  | UserList => fst (userRouter.list w)
  | UserCount => fst (userRouter.count w)
  | PostUpdate input => fst (postRouter.update input w)
  | PostGetById input => fst (postRouter.getById input w)
  | PostList input => fst (postRouter.list input w)
  | PostListByUser input => fst (postRouter.listByUser input w)
  end.

Definition perform_all `{Zod} (cs : list Call) (w : World) : World :=
  fold_left (fun w' c => perform c w') cs w.

(** The Message table: ids grow along the table and stay below the
    sequence, timestamps never go back along the table and none lies in
    the future. *)
Definition message_wf (w : World) : Prop :=
  Forall (fun m => Message.id m < Message_seq w) (Messages w) /\
  StronglySorted (fun a b => Message.id a < Message.id b) (Messages w) /\
  oldest_first (Messages w) /\
  no_future w.

(** The User and Post tables: ids are positive, below their sequence and
    never repeated, no email is held twice, and every post's userId is the
    id of a stored user. *)
Definition entity_wf (w : World) : Prop :=
  0 < User_seq w /\ 0 < Post_seq w /\
  Forall (fun u => 0 < User.id u < User_seq w) (Users w) /\
  NoDup (map User.id (Users w)) /\
  NoDup (map User.email (Users w)) /\
  Forall (fun p => 0 < Post.id p < Post_seq w) (Posts w) /\
  NoDup (map Post.id (Posts w)) /\
  Forall (fun p => existsb (fun u => User.id u =? Post.userId p) (Users w) = true)
         (Posts w).

(** Neither identity sequence has run past the last value an integer
    column holds. *)
Definition seqs_fit (w : World) : Prop :=
  User_seq w <= int4_max + 1 /\ Post_seq w <= int4_max + 1.

(** [s] begins with the character [c]. *)
Definition starts_with (c : ascii) (s : string) : bool :=
  match s with
  | String c' _ => Ascii.eqb c c'
  | EmptyString => false
  end.

(** Two registered users, the second with one post. *)
Definition ada : User.row := User.mk 1 "Ada" "ada@example.com" None 3 3.

Definition bob : User.row := User.mk 2 "Bob" "bob@example.com" (Some "Builder") 4 4.

Definition bobs_post : Post.row := Post.mk 1 2 "Hello" "First post" false 6 6.

Definition blog_world : World :=
  mkWorld [] 1 [ada; bob] 3 [bobs_post] 2 8 [].

(** The first and the last character of a string, and whether a string
    is white space throughout. *)
Definition first_char (s : string) : option ascii :=
  match s with
  | String c _ => Some c
  | EmptyString => None
  end.

Fixpoint last_char (s : string) : option ascii :=
  match s with
  | EmptyString => None
  | String c EmptyString => Some c
  | String _ rest => last_char rest
  end.

Fixpoint all_white_space (s : string) : bool :=
  match s with
  | EmptyString => true
  | String c rest => ChatPage.is_white_space c && all_white_space rest
  end.

Definition not_white_space (o : option ascii) : Prop :=
  exists c, o = Some c /\ ChatPage.is_white_space c = false.

(* ===================================================================== *)
(** * Properties *)
(* ===================================================================== *)

Local Open Scope list_scope.

Example toISOString_epoch : toISOString 0 = "1970-01-01T00:00:00.000Z".
Proof. reflexivity. Qed.

Example toISOString_sample :
  toISOString 1793635200123 = "2026-11-02T16:00:00.123Z".
Proof. vm_compute. reflexivity. Qed.

Example JSON_stringify_empty_array : JSON_stringify (JsArray []) = "[]".
Proof. reflexivity. Qed.

(** ** Two runs *)

(** A question and its answer, read back in order. *)
Example hello_scenario :
  let w := fst (chatRouter.sendChat (answering_model 3 "Hi there")
                  (chat_input "Hello") empty_world) in
  chatRouter.getMessages w
  = (w, Returned [ Message.mk 1 user "Hello" 0;
                   Message.mk 2 assistant "Hi there" 3 ]).
Proof. reflexivity. Qed.

(** The agent registers a user through create_user: one User row, and an
    answer naming the generated id. *)
Example register_scenario :
  let w := fst (@agentRouter.chat sample_zod registering_agent
                  (agent_input "Please register Ada, ada@example.com")
                  empty_world) in
  Users w = [User.mk 1 "Ada" "ada@example.com" None 1 1] /\
  map Message.content (Messages w)
  = [ "Please register Ada, ada@example.com"%string;
      "Done. Successfully created user: Ada (ID: 1, Email: ada@example.com)"%string ].
Proof. vm_compute. split; reflexivity. Qed.

(** ** ORDER BY *)

Section SortFacts.
Context {A : Type} (le : A -> A -> bool).

Let R (a b : A) : Prop := le a b = true.

Lemma insert_sorted_perm (x : A) (l : list A) :
  Permutation (insert_sorted le x l) (x :: l).
Proof.
  induction l as [|y l IH]; simpl.
  - apply Permutation_refl.
  - destruct (le x y).
    + apply Permutation_refl.
    + eapply perm_trans; [apply perm_skip, IH | apply perm_swap].
Qed.

Lemma sort_by_perm (l : list A) : Permutation (sort_by le l) l.
Proof.
  induction l as [|x l IH]; simpl.
  - constructor.
  - eapply perm_trans; [apply insert_sorted_perm | apply perm_skip, IH].
Qed.

Lemma sort_by_length (l : list A) :
  List.length (sort_by le l) = List.length l.
Proof. apply Permutation_length, sort_by_perm. Qed.

Lemma sort_by_in (x : A) (l : list A) : In x (sort_by le l) <-> In x l.
Proof.
  split; apply Permutation_in;
    [apply sort_by_perm | apply Permutation_sym, sort_by_perm].
Qed.

Hypothesis le_total : forall a b, le a b = true \/ le b a = true.
Hypothesis le_trans :
  forall a b c, le a b = true -> le b c = true -> le a c = true.

Lemma insert_sorted_sorted (x : A) (l : list A) :
  StronglySorted R l -> StronglySorted R (insert_sorted le x l).
Proof.
  induction 1 as [|y l Hs IH Hy]; simpl.
  - repeat constructor.
  - destruct (le x y) eqn:E.
    + constructor; [constructor; assumption|].
      constructor; [exact E|].
      eapply Forall_impl; [|exact Hy].
      intros z Hz. eapply le_trans; [exact E | exact Hz].
    + constructor; [exact IH|].
      eapply Permutation_Forall;
        [apply Permutation_sym, insert_sorted_perm|].
      constructor; [|exact Hy].
      destruct (le_total x y) as [H|H]; [congruence | exact H].
Qed.

Lemma sort_by_sorted (l : list A) : StronglySorted R (sort_by le l).
Proof.
  induction l as [|x l IH]; simpl.
  - constructor.
  - apply insert_sorted_sorted, IH.
Qed.



(** A new last row that no row precedes comes first. *)
Lemma sort_by_snoc_first (u : A) (l : list A) :
  Forall (fun x => le x u = false) l ->
  sort_by le (l ++ [u]) = u :: sort_by le l.
Proof.
  induction 1 as [|x l Hx Hl IH]; simpl.
  - reflexivity.
  - rewrite IH. simpl. rewrite Hx. reflexivity.
Qed.
End SortFacts.

(** Two sorted arrangements of the same rows agree when the order never
    relates two different rows both ways. *)
Lemma sorted_perm_unique {A} (R : A -> A -> Prop) (l1 l2 : list A) :
  (forall x y, In x l1 -> In y l1 -> R x y -> R y x -> x = y) ->
  StronglySorted R l1 -> StronglySorted R l2 -> Permutation l1 l2 ->
  l1 = l2.
Proof.
  revert l2. induction l1 as [|a l1 IH]; intros l2 Hanti H1 H2 HP.
  - apply Permutation_nil in HP. congruence.
  - destruct l2 as [|b l2].
    + apply Permutation_sym, Permutation_nil in HP. discriminate.
    + inversion H1 as [|? ? Hs1 Ha]; subst.
      inversion H2 as [|? ? Hs2 Hb]; subst.
      assert (Hab : a = b).
      { assert (Hain : In a (b :: l2))
          by (eapply Permutation_in; [exact HP | left; reflexivity]).
        assert (Hbin : In b (a :: l1))
          by (eapply Permutation_in;
              [apply Permutation_sym; exact HP | left; reflexivity]).
        destruct Hain as [->|Hain]; [reflexivity|].
        destruct Hbin as [->|Hbin]; [reflexivity|].
        apply Hanti; [left; reflexivity | right; exact Hbin | |].
        - rewrite Forall_forall in Ha. apply Ha, Hbin.
        - rewrite Forall_forall in Hb. apply Hb, Hain. }
      subst b. f_equal.
      apply IH; [| assumption | assumption |
                 eapply Permutation_cons_inv; exact HP].
      intros x y Hx Hy. apply Hanti; right; assumption.
Qed.

Lemma StronglySorted_snoc {A} (R : A -> A -> Prop) (l : list A) (x : A) :
  StronglySorted R l -> Forall (fun y => R y x) l ->
  StronglySorted R (l ++ [x]).
Proof.
  induction 1 as [|y l Hs IH Hy]; intros Hx; simpl.
  - repeat constructor.
  - inversion Hx; subst. constructor.
    + apply IH. assumption.
    + apply Forall_app. split; [assumption | repeat constructor; assumption].
Qed.

Lemma StronglySorted_rev {A} (R : A -> A -> Prop) (l : list A) :
  StronglySorted R l -> StronglySorted (fun a b => R b a) (rev l).
Proof.
  induction 1 as [|x l Hs IH Hx]; simpl.
  - constructor.
  - apply StronglySorted_snoc; [exact IH|].
    apply Forall_rev. exact Hx.
Qed.

Lemma firstn_In {A} (n : nat) (l : list A) (x : A) :
  In x (firstn n l) -> In x l.
Proof.
  revert l. induction n as [|n IH]; intros [|y l]; simpl; try tauto.
  intros [->|H]; [left; reflexivity | right; apply IH, H].
Qed.

Lemma StronglySorted_firstn {A} (R : A -> A -> Prop) (n : nat) (l : list A) :
  StronglySorted R l -> StronglySorted R (firstn n l).
Proof.
  intros H. revert n. induction H as [|x l Hs IH Hx]; intros [|n]; simpl;
    try constructor.
  - apply IH.
  - rewrite Forall_forall in *. intros y Hy. apply Hx.
    eapply firstn_In. exact Hy.
Qed.

Lemma StronglySorted_weaken {A} (R S : A -> A -> Prop) (l : list A) :
  (forall a b, R a b -> S a b) -> StronglySorted R l -> StronglySorted S l.
Proof.
  intros HRS. induction 1 as [|x l Hs IH Hx]; constructor.
  - exact IH.
  - eapply Forall_impl; [|exact Hx]. intros b. apply HRS.
Qed.

Lemma StronglySorted_app_inv {A} (R : A -> A -> Prop) (a b : list A) :
  StronglySorted R (a ++ b) ->
  forall x y, In x a -> In y b -> R x y.
Proof.
  induction a as [|z a IH]; simpl; intros Hs x y Hx Hy; [contradiction|].
  inversion Hs as [|? ? Hs' Hz]; subst.
  destruct Hx as [->|Hx].
  - rewrite Forall_forall in Hz. apply Hz, in_or_app. right. exact Hy.
  - apply IH; assumption.
Qed.


Lemma NoDup_map_injective {A B} (f : A -> B) (l : list A) (x y : A) :
  NoDup (map f l) -> In x l -> In y l -> f x = f y -> x = y.
Proof.
  induction l as [|a l IH]; simpl; intros Hnd Hx Hy Hf; [contradiction|].
  inversion Hnd as [|? ? Hnotin Hnd']; subst.
  destruct Hx as [->|Hx], Hy as [->|Hy].
  - reflexivity.
  - exfalso. apply Hnotin. rewrite Hf. apply in_map, Hy.
  - exfalso. apply Hnotin. rewrite <- Hf. apply in_map, Hx.
  - apply IH; assumption.
Qed.

Section KeyOrder.
Context {A : Type} (key : A -> Z).

Lemma asc_total (a b : A) : asc key a b = true \/ asc key b a = true.
Proof. unfold asc. lia. Qed.

Lemma asc_trans (a b c : A) :
  asc key a b = true -> asc key b c = true -> asc key a c = true.
Proof. unfold asc. lia. Qed.

Lemma desc_total (a b : A) : desc key a b = true \/ desc key b a = true.
Proof. unfold desc. lia. Qed.

Lemma desc_trans (a b c : A) :
  desc key a b = true -> desc key b c = true -> desc key a c = true.
Proof. unfold desc. lia. Qed.

Lemma orderBy_asc_sorted (rows : list A) :
  StronglySorted (fun a b => key a <= key b) (orderBy (asc key) rows).
Proof.
  eapply StronglySorted_weaken;
    [| apply (sort_by_sorted (asc key) asc_total asc_trans)].
  unfold asc. intros a b. cbv beta. lia.
Qed.

Lemma orderBy_desc_sorted (rows : list A) :
  StronglySorted (fun a b => key b <= key a) (orderBy (desc key) rows).
Proof.
  eapply StronglySorted_weaken;
    [| apply (sort_by_sorted (desc key) desc_total desc_trans)].
  unfold desc. intros a b. cbv beta. lia.
Qed.

(** With pairwise distinct keys the descending order is the ascending
    one read backwards. *)
Lemma orderBy_desc_rev_asc (rows : list A) :
  NoDup (map key rows) ->
  orderBy (desc key) rows = rev (orderBy (asc key) rows).
Proof.
  intros Hnd.
  apply (sorted_perm_unique (fun a b => key b <= key a)).
  - intros x y Hx Hy Hxy Hyx.
    apply (NoDup_map_injective key rows); try assumption.
    + apply (sort_by_in (desc key)). exact Hx.
    + apply (sort_by_in (desc key)). exact Hy.
    + lia.
  - apply orderBy_desc_sorted.
  - apply (StronglySorted_rev (fun a b => key a <= key b)).
    apply orderBy_asc_sorted.
  - eapply perm_trans; [apply sort_by_perm|].
    eapply perm_trans; [|apply Permutation_rev].
    apply Permutation_sym, sort_by_perm.
Qed.
End KeyOrder.

(** ** The Message Store *)

Lemma recent_length (n : nat) (w : World) : (List.length (recent n w) <= n)%nat.
Proof. unfold recent, limit. apply firstn_le_length. Qed.

Lemma recent_most_recent_first (n : nat) (w : World) :
  most_recent_first (recent n w).
Proof.
  unfold recent, limit, most_recent_first.
  apply StronglySorted_firstn, orderBy_desc_sorted.
Qed.

Lemma all_oldest_first (w : World) : oldest_first (all w).
Proof. apply orderBy_asc_sorted. Qed.

Lemma all_perm (w : World) : Permutation (all w) (Messages w).
Proof. apply sort_by_perm. Qed.

(** C3, as stated, fails: with two rows sharing one createdAt, [recent 2]
    keeps them in table order and so does [all]; the former is not the
    latter reversed. *)
Lemma recent_not_reverse_of_all_on_ties :
  ~ (forall (w : World) (n : nat),
        (List.length (recent n w) <= n)%nat /\
        most_recent_first (recent n w) /\
        oldest_first (all w) /\
        recent n w = firstn n (rev (all w))).
Proof.
  intros H. destruct (H tied_world 2%nat) as (_ & _ & _ & E).
  vm_compute in E. discriminate E.
Qed.

(** C3 (amended). For every store state and every n, recent(n) returns at
    most n rows sorted most-recent-first and all() returns every row sorted
    oldest-first; when no two rows share a createdAt timestamp, recent(n)
    is the first n rows of all() reversed. *)
Theorem recent_all_reverse (w : World) (n : nat) :
  (List.length (recent n w) <= n)%nat /\
  most_recent_first (recent n w) /\
  oldest_first (all w) /\
  Permutation (all w) (Messages w) /\
  (NoDup (map Message.createdAt (Messages w)) ->
   recent n w = firstn n (rev (all w))).
Proof.
  split; [apply recent_length|].
  split; [apply recent_most_recent_first|].
  split; [apply all_oldest_first|].
  split; [apply all_perm|].
  intros Hnd. unfold recent, all, limit.
  rewrite (orderBy_desc_rev_asc Message.createdAt _ Hnd). reflexivity.
Qed.

Lemma recent_all_reverse_witness :
  NoDup (map Message.createdAt (Messages two_turn_world)) /\
  recent 1 two_turn_world = firstn 1 (rev (all two_turn_world)).
Proof.
  assert (Hnd : NoDup (map Message.createdAt (Messages two_turn_world))).
  { simpl. repeat constructor; simpl; intuition discriminate. }
  split; [exact Hnd|].
  exact (proj2 (proj2 (proj2 (proj2 (recent_all_reverse two_turn_world 1)))) Hnd).
Defined.

(** ** clearMessages *)

Lemma delete_Message_spec (w : World) :
  exists w', delete_Message w = (w', Returned (Z.of_nat (List.length (Messages w)))) /\
             Messages w' = [] /\ all w' = [] /\
             select_Message_all w' = (w', Returned []) /\
             delete_Message w' = (w', Returned 0).
Proof.
  eexists. split; [reflexivity|]. repeat split.
Qed.

(** C10. clearMessages deletes every Message row whatever the store holds:
    it returns, getMessages afterwards returns the empty sequence, and a
    second clearMessages returns as well and leaves the store as it is. The
    chat router and both agent routers share the statement. *)
Theorem clearMessages_empties_and_is_idempotent (w : World) :
  exists w' removed,
    chatRouter.clearMessages w = (w', Returned removed) /\
    agentRouter.clearMessages w = (w', Returned removed) /\
    executorAgentRouter.clearMessages w = (w', Returned removed) /\
    Messages w' = [] /\
    chatRouter.getMessages w' = (w', Returned []) /\
    executorAgentRouter.getMessages w' = (w', Returned []) /\
    chatRouter.clearMessages w' = (w', Returned 0) /\
    executorAgentRouter.clearMessages w' = (w', Returned 0).
Proof.
  destruct (delete_Message_spec w) as (w' & Hdel & Hm & _ & Hsel & Hagain).
  exists w', (Z.of_nat (List.length (Messages w))).
  unfold chatRouter.clearMessages, agentRouter.clearMessages,
    executorAgentRouter.clearMessages, chatRouter.getMessages,
    executorAgentRouter.getMessages.
  repeat split; assumption.
Qed.

(** ** Input validation *)

Lemma content_schema_spec (lo hi : Z) (v : JsValue) (s : string) :
  z_max hi (z_min lo z_string) v = Some s <->
  v = JsString s /\ lo <= js_length s <= hi.
Proof.
  unfold z_max, z_min, z_string. split.
  - destruct v; try discriminate.
    destruct (lo <=? js_length s0) eqn:E1; try discriminate.
    destruct (js_length s0 <=? hi) eqn:E2; try discriminate.
    intros [= ->]. split; [reflexivity | lia].
  - intros [-> [H1 H2]].
    apply Z.leb_le in H1, H2. rewrite H1, H2. reflexivity.
Qed.

Lemma z_enum_spec (keys : list string) (v : JsValue) (k : string) :
  z_enum keys v = Some k <-> v = JsString k /\ In k keys.
Proof.
  unfold z_enum. split.
  - destruct v; try discriminate.
    destruct (existsb (String.eqb s) keys) eqn:E; try discriminate.
    intros [= ->]. split; [reflexivity|].
    apply existsb_exists in E. destruct E as (x & Hx & Heq).
    apply String.eqb_eq in Heq. subst. exact Hx.
  - intros [-> Hin].
    assert (E : existsb (String.eqb k) keys = true).
    { apply existsb_exists. exists k. split; [exact Hin | apply String.eqb_refl]. }
    rewrite E. reflexivity.
Qed.

Lemma character_schema_spec (v : JsValue) (k : string) :
  z_default "default"%string (z_optional (z_enum chatRouter.character_keys)) v
    = Some k <->
  (v = JsUndefined /\ k = "default"%string) \/
  (v = JsString k /\ In k chatRouter.character_keys).
Proof.
  unfold z_default, z_optional. split.
  - destruct v; unfold z_enum, option_map; try discriminate.
    + intros [= <-]. left. split; reflexivity.
    + destruct (existsb (String.eqb s) chatRouter.character_keys) eqn:E;
        try discriminate.
      intros [= <-]. right. split; [reflexivity|].
      apply existsb_exists in E. destruct E as (x & Hx & Heq).
      apply String.eqb_eq in Heq. subst. exact Hx.
  - intros [[-> ->] | [-> Hin]]; [reflexivity|].
    rewrite (proj2 (z_enum_spec _ (JsString k) k) (conj eq_refl Hin)).
    reflexivity.
Qed.

Lemma sendChat_input_schema_spec (input : JsValue) (s k : string) :
  chatRouter.input_schema input = Some (chatRouter.mkInput s k) <->
  z_is_object input = true /\
  prop "content" input = JsString s /\ 1 <= js_length s <= 10000 /\
  ((prop "character" input = JsUndefined /\ k = "default"%string) \/
   (prop "character" input = JsString k /\ In k chatRouter.character_keys)).
Proof.
  unfold chatRouter.input_schema. split.
  - destruct (z_is_object input); try discriminate.
    destruct (z_max 10000 (z_min 1 z_string) (prop "content" input)) as [c|] eqn:Ec;
      try discriminate.
    destruct (z_default "default"%string
                (z_optional (z_enum chatRouter.character_keys))
                (prop "character" input)) as [c'|] eqn:Ek; try discriminate.
    intros [= -> ->].
    apply content_schema_spec in Ec. apply character_schema_spec in Ek.
    tauto.
  - intros (-> & Hc & Hlen & Hk).
    rewrite (proj2 (content_schema_spec 1 10000 _ s) (conj Hc Hlen)).
    rewrite (proj2 (character_schema_spec _ k) Hk). reflexivity.
Qed.

Lemma agent_input_schema_spec (input : JsValue) (s : string) :
  agentRouter.input_schema input = Some s <->
  z_is_object input = true /\
  prop "message" input = JsString s /\ 1 <= js_length s <= 10000.
Proof.
  unfold agentRouter.input_schema.
  destruct (z_is_object input).
  - rewrite content_schema_spec. tauto.
  - split; [discriminate | intros [? _]; discriminate].
Qed.

(** A content that is no string in range fails the parse. *)
Lemma sendChat_input_schema_rejects_length (input : JsValue) (s : string) :
  prop "content" input = JsString s ->
  js_length s = 0 \/ 10000 < js_length s ->
  chatRouter.input_schema input = None.
Proof.
  intros Hc Hlen.
  destruct (chatRouter.input_schema input) as [[c k]|] eqn:E; [|reflexivity].
  apply sendChat_input_schema_spec in E.
  destruct E as (_ & Hc' & Hr & _). rewrite Hc in Hc'.
  injection Hc' as <-. lia.
Qed.

Lemma agent_input_schema_rejects_length (input : JsValue) (s : string) :
  prop "message" input = JsString s ->
  js_length s = 0 \/ 10000 < js_length s ->
  agentRouter.input_schema input = None.
Proof.
  intros Hc Hlen.
  destruct (agentRouter.input_schema input) as [c|] eqn:E; [|reflexivity].
  apply agent_input_schema_spec in E.
  destruct E as (_ & Hc' & Hr). rewrite Hc in Hc'.
  injection Hc' as <-. lia.
Qed.

Lemma procedure_rejects {A B} (sch : Schema A) (resolver : A -> M B)
    (input : JsValue) (w : World) :
  sch input = None ->
  procedure sch resolver input w = (w, Thrown ValidationError).
Proof. unfold procedure. intros ->. reflexivity. Qed.

Lemma procedure_accepts {A B} (sch : Schema A) (resolver : A -> M B)
    (input : JsValue) (a : A) (w : World) :
  sch input = Some a ->
  procedure sch resolver input w = resolver a w.
Proof. unfold procedure. intros ->. reflexivity. Qed.

(** ** sendChat, step by step *)

Lemma insert_Message_spec (r : Role) (c : string) (w : World) :
  insert_Message r c w =
    (mkWorld (Messages w ++ [new_row r c w]) (Message_seq w + 1)
             (Users w) (User_seq w) (Posts w) (Post_seq w)
             (clock w) (trace w),
     Returned (new_row r c w)).
Proof. reflexivity. Qed.

Lemma after_user_turn_Messages (c : string) (w : World) :
  Messages (after_user_turn c w) = Messages w ++ [new_row user c w].
Proof. reflexivity. Qed.

(** What a valid sendChat does: store the user turn, call the model once
    with the persona prompt and the window, and store the reply only when
    the call came back. *)
Lemma sendChat_run (model : GenerateText) (input : JsValue)
    (inp : chatRouter.input) (w : World) :
  chatRouter.input_schema input = Some inp ->
  let w1 := after_user_turn (chatRouter.content inp) w in
  let system := object_get (chatRouter.character inp) SYSTEM_PROMPTS in
  let messages := map to_chat_message (context_window w1) in
  let r := model system messages in
  let w2 := with_call (GenerateTextCall system messages) (elapsed r) w1 in
  chatRouter.sendChat model input w =
    match outcome r with
    | inl cause => (w2, Thrown (UpstreamGenerationError cause))
    | inr text =>
        (fst (insert_Message assistant text w2),
         Returned (chatRouter.mkOutput
                     (new_row user (chatRouter.content inp) w)
                     (new_row assistant text w2)))
    end.
Proof.
  intros Hs. unfold chatRouter.sendChat.
  rewrite (procedure_accepts _ _ _ _ _ Hs).
  unfold bind, generateText, bind, emit, sleep, select_Message_recent.
  cbn. destruct (outcome _); reflexivity.
Qed.

(** ** Tools and agent runs leave the Message table alone *)

Lemma entity_step_refl (w : World) : entity_step w w.
Proof. repeat split. Qed.

Section ToolFrame.
Context `{Zod}.

Lemma userRouter_create_frame (input : JsValue) (w : World) :
  entity_step w (fst (userRouter.create input w)).
Proof.
  unfold userRouter.create, procedure.
  destruct (userRouter.CreateUserSchema input) as [i|];
    [|apply entity_step_refl].
  unfold userRouter.insert_User.
  destruct (int4_max <? User_seq w); [apply entity_step_refl|].
  destruct (existsb _ (Users w)); repeat split.
Qed.

Lemma postRouter_create_frame (input : JsValue) (w : World) :
  entity_step w (fst (postRouter.create input w)).
Proof.
  unfold postRouter.create, procedure.
  destruct (postRouter.CreatePostSchema input) as [i|];
    [|apply entity_step_refl].
  unfold postRouter.insert_Post. cbv zeta.
  destruct (negb _ && out_of_range _); [apply entity_step_refl|].
  destruct (int4_max <? Post_seq w); [apply entity_step_refl|].
  destruct (existsb _ (Users w)); repeat split.
Qed.

Lemma userRouter_getById_pure (input : JsValue) (w : World) :
  fst (userRouter.getById input w) = w.
Proof.
  unfold userRouter.getById, procedure.
  destruct (userRouter.id_schema "id" input); [|reflexivity].
  destruct (find _ _); [reflexivity|].
  destruct (out_of_range _); reflexivity.
Qed.

Lemma postRouter_listByUser_pure (input : JsValue) (w : World) :
  fst (postRouter.listByUser input w) = w.
Proof.
  unfold postRouter.listByUser, procedure.
  destruct (userRouter.id_schema "userId" input); [|reflexivity].
  cbv zeta. destruct (is_nil _ && out_of_range _); reflexivity.
Qed.

Lemma postRouter_list_pure (input : JsValue) (w : World) :
  fst (postRouter.list input w) = w.
Proof.
  unfold postRouter.list, procedure.
  destruct (postRouter.list_schema input); reflexivity.
Qed.

Lemma bind_fst_entity_step {A B} (c : M A) (k : A -> M B) (w : World) :
  entity_step w (fst (c w)) ->
  (forall a w', entity_step w' (fst (k a w'))) ->
  entity_step w (fst (bind c k w)).
Proof.
  unfold bind. intros Hc Hk. destruct (c w) as [w1 [a|e]]; simpl in *.
  - specialize (Hk a w1).
    destruct Hc as (? & ? & ? & ?), Hk as (? & ? & ? & ?).
    repeat split; congruence.
  - exact Hc.
Qed.

Lemma ret_frame {A} (a : A) (w : World) : entity_step w (fst (ret a w)).
Proof. apply entity_step_refl. Qed.

Lemma invoke_tool_frame (t : DynamicStructuredTool) (args : JsValue)
    (w : World) :
  In t (createUserTools ++ createPostTools) ->
  entity_step w (fst (invoke_tool t args w)).
Proof.
  intros Hin. unfold invoke_tool.
  simpl in Hin.
  repeat (destruct Hin as [<-|Hin]); [ .. | contradiction]; simpl;
    match goal with
    | |- context [match ?s with Some _ => _ | None => _ end] =>
        destruct s as [i|]; [|apply entity_step_refl]
    end.
  - destruct i as [[n e] b]. apply bind_fst_entity_step.
    + apply userRouter_create_frame.
    + intros; apply ret_frame.
  - apply bind_fst_entity_step.
    + rewrite userRouter_getById_pure. apply entity_step_refl.
    + intros [[u ps]|] w'; apply ret_frame.
  - apply bind_fst_entity_step.
    + apply entity_step_refl.
    + intros a w'. destruct (_ =? 0); apply ret_frame.
  - apply bind_fst_entity_step.
    + apply entity_step_refl.
    + intros; apply ret_frame.
  - destruct i as [[[u t] c] p]. apply bind_fst_entity_step.
    + apply postRouter_create_frame.
    + intros; apply ret_frame.
  - apply bind_fst_entity_step.
    + rewrite postRouter_listByUser_pure. apply entity_step_refl.
    + intros a w'. destruct (_ =? 0); apply ret_frame.
  - apply bind_fst_entity_step.
    + rewrite postRouter_list_pure. apply entity_step_refl.
    + intros a w'. destruct (_ =? 0); apply ret_frame.
Qed.
End ToolFrame.

Lemma agent_step_refl (w : World) : agent_step w w.
Proof.
  repeat split; try lia. exists []. split; [reflexivity | constructor].
Qed.

Lemma agent_step_trans (w1 w2 w3 : World) :
  agent_step w1 w2 -> agent_step w2 w3 -> agent_step w1 w3.
Proof.
  intros (Hm & Hs & Hc & evs & Ht & Hf) (Hm' & Hs' & Hc' & evs' & Ht' & Hf').
  repeat split; try congruence; try lia.
  exists (evs' ++ evs). split.
  - rewrite Ht', Ht. apply app_assoc.
  - apply Forall_app. split; assumption.
Qed.

Lemma sleep_agent_step (d : N) (w : World) : agent_step w (fst (sleep d w)).
Proof.
  repeat split; simpl; try lia. exists []. split; [reflexivity | constructor].
Qed.

Lemma find_tool_In (nm : string) (tools : list DynamicStructuredTool)
    (t : DynamicStructuredTool) :
  find_tool nm tools = Some t -> In t tools.
Proof.
  induction tools as [|t' tools IH]; simpl; [discriminate|].
  destruct (String.eqb (name t') nm).
  - intros [= ->]. left. reflexivity.
  - intros Hf. right. apply IH, Hf.
Qed.

Section AgentFrame.
Variable tools : list DynamicStructuredTool.
Hypothesis tools_frame :
  forall t, In t tools ->
  forall args w, entity_step w (fst (invoke_tool t args w)).

Lemma call_tool_frame (nm : string) (args : JsValue) (w : World) :
  agent_step w (fst (call_tool tools nm args w)).
Proof.
  unfold call_tool. destruct (find_tool nm tools) as [t|] eqn:Ef;
    [|apply agent_step_refl].
  apply find_tool_In in Ef.
  unfold bind, emit.
  match goal with |- context [invoke_tool t args ?w0] =>
    pose proof (tools_frame t Ef args w0) as Hstep;
    destruct (invoke_tool t args w0) as [w' [text|e]]
  end;
    destruct Hstep as (Hm & Hs & Hc & Ht); simpl in *;
    (repeat split; [assumption | assumption | lia |]);
    exists [ToolRun nm args]; (split; [exact Ht | repeat constructor]).
Qed.

Lemma run_agent_frame {R} (run : AgentRun R) (w : World) :
  agent_step w (fst (run_agent tools run w)).
Proof.
  revert w. induction run as [d result | d cause | d nm args k IH]; intros w.
  - apply sleep_agent_step.
  - apply sleep_agent_step.
  - simpl. unfold bind at 1.
    pose proof (sleep_agent_step d w) as H1.
    destruct (sleep d w) as [w1 [[]|e]] eqn:Es; simpl in H1;
      [|unfold sleep in Es; discriminate].
    pose proof (call_tool_frame nm args w1) as H2.
    destruct (call_tool tools nm args w1) as [w2 out]. simpl in H2.
    eapply agent_step_trans; [exact H1|].
    eapply agent_step_trans; [exact H2|]. apply IH.
Qed.
End AgentFrame.

Lemma agent_run_frame `{Zod} {R} (run : AgentRun R) (w : World) :
  agent_step w (fst (run_agent (createUserTools ++ createPostTools) run w)).
Proof.
  apply run_agent_frame. intros t Hin args w'. apply invoke_tool_frame, Hin.
Qed.

(** ** The agent procedures, step by step *)

Lemma role_mapping_is_identity (rows : list Message.row) :
  map (fun msg => (if Role_eqb (Message.role msg) user then user else assistant,
                   Message.content msg)) rows
  = map to_chat_message rows.
Proof.
  apply map_ext. intros [i [] c t]; reflexivity.
Qed.

Lemma type_mapping_is_identity (rows : list Message.row) :
  map (fun msg => match Message.role msg with
                  | user => (user, Message.content msg)
                  | assistant => (assistant, Message.content msg)
                  end) rows
  = map to_chat_message rows.
Proof.
  apply map_ext. intros [i [] c t]; reflexivity.
Qed.

Lemma agent_chat_run `{Zod} (agent : agentRouter.Agent) (input : JsValue)
    (message : string) (w : World) :
  agentRouter.input_schema input = Some message ->
  let w1 := after_user_turn message w in
  let conversation := chat_history w1 ++ [(user, message)] in
  let w1' := with_event (AgentInvoke AGENT_SYSTEM_PROMPT (map name agent_tools)
                                     conversation) w1 in
  agentRouter.chat agent input w =
    match run_agent agent_tools (agent conversation) w1' with
    | (w2, Thrown e) => (w2, Thrown e)
    | (w2, Returned result) =>
        let calls := agentRouter.extract_toolCalls (clock w2) result in
        (fst (insert_Message assistant (agentRouter.aiResponse result) w2),
         Returned (agentRouter.mkOutput
                     (new_row user message w)
                     (new_row assistant (agentRouter.aiResponse result) w2)
                     (if 0 <? Z.of_nat (List.length calls)
                      then Some calls else None)))
    end.
Proof.
  intros Hs. unfold agentRouter.chat.
  rewrite (procedure_accepts _ _ _ _ _ Hs).
  unfold bind at 1. rewrite insert_Message_spec.
  unfold bind at 1. unfold select_Message_recent.
  rewrite role_mapping_is_identity.
  unfold bind at 1. unfold emit.
  unfold bind at 1.
  cbv zeta. unfold chat_history, context_window, recent, agent_tools,
    with_event, after_user_turn.
  rewrite insert_Message_spec. cbn [fst Messages Message_seq Users User_seq
    Posts Post_seq clock trace].
  destruct (run_agent _ _ _) as [w2 [result|e]]; reflexivity.
Qed.

Lemma executor_chat_run `{Zod} (executor : executorAgentRouter.Executor)
    (input : JsValue) (message : string) (w : World) :
  agentRouter.input_schema input = Some message ->
  let w1 := after_user_turn message w in
  let w1' := with_event (ExecutorInvoke AGENT_SYSTEM_PROMPT (map name agent_tools)
                                        message (chat_history w1)) w1 in
  executorAgentRouter.chat executor input w =
    match run_agent agent_tools (executor message (chat_history w1)) w1' with
    | (w2, Thrown e) => (w2, Thrown e)
    | (w2, Returned result) =>
        (fst (insert_Message assistant (executorAgentRouter.output result) w2),
         Returned (executorAgentRouter.mkOutput
                     (new_row user message w)
                     (new_row assistant (executorAgentRouter.output result) w2)
                     (option_map
                        (map (fun step =>
                                executorAgentRouter.mkStep
                                  (executorAgentRouter.tool step)
                                  (executorAgentRouter.toolInput step)
                                  (executorAgentRouter.observation step)))
                        (executorAgentRouter.intermediateSteps result))))
    end.
Proof.
  intros Hs. unfold executorAgentRouter.chat.
  rewrite (procedure_accepts _ _ _ _ _ Hs).
  unfold bind at 1. rewrite insert_Message_spec.
  unfold bind at 1. unfold select_Message_recent.
  rewrite type_mapping_is_identity.
  unfold bind at 1. unfold emit.
  unfold bind at 1.
  cbv zeta. unfold chat_history, context_window, recent, agent_tools,
    with_event, after_user_turn.
  rewrite insert_Message_spec. cbn [fst Messages Message_seq Users User_seq
    Posts Post_seq clock trace].
  destruct (run_agent _ _ _) as [w2 [result|e]]; reflexivity.
Qed.

(** ** Which rows a chat leaves in the Message table *)

Lemma sendChat_Messages (model : GenerateText) (input : JsValue)
    (inp : chatRouter.input) (w : World) :
  chatRouter.input_schema input = Some inp ->
  exists tl,
    Messages (fst (chatRouter.sendChat model input w))
    = Messages w ++ new_row user (chatRouter.content inp) w :: tl.
Proof.
  intros Hs. rewrite (sendChat_run model input inp w Hs). cbv zeta.
  destruct (outcome _) as [cause|text].
  - exists []. reflexivity.
  - eexists [_]. simpl. rewrite <- app_assoc. reflexivity.
Qed.


Lemma executor_chat_Messages `{Zod} (executor : executorAgentRouter.Executor)
    (input : JsValue) (message : string) (w : World) :
  agentRouter.input_schema input = Some message ->
  exists tl,
    Messages (fst (executorAgentRouter.chat executor input w))
    = Messages w ++ new_row user message w :: tl.
Proof.
  intros Hs. rewrite (executor_chat_run executor input message w Hs). cbv zeta.
  match goal with |- context [run_agent agent_tools ?r ?w0] =>
    pose proof (agent_run_frame r w0) as (Hm & _);
    fold agent_tools in Hm;
    destruct (run_agent agent_tools r w0) as [w2 [result|e]]
  end; simpl in Hm |- *; rewrite Hm.
  - eexists [_]. rewrite <- app_assoc. reflexivity.
  - exists []. reflexivity.
Qed.

Lemma sendChat_never_ValidationError_when_parsed (model : GenerateText)
    (input : JsValue) (inp : chatRouter.input) (w : World) :
  chatRouter.input_schema input = Some inp ->
  snd (chatRouter.sendChat model input w) <> Thrown ValidationError.
Proof.
  intros Hs. rewrite (sendChat_run model input inp w Hs). cbv zeta.
  destruct (outcome _); simpl; discriminate.
Qed.

(** C4. A content of length 0 or of more than 10000 characters is rejected
    with a validation error and the world is left as it was: no row is
    stored and the model is not called. A content of 1 to 10000 characters,
    10000 included, passes the schema and the user turn is stored. The
    agent procedures treat their message field the same way. *)
Theorem content_length_validation `{Zod} :
  (forall model input s w,
      prop "content" input = JsString s ->
      js_length s = 0 \/ 10000 < js_length s ->
      chatRouter.sendChat model input w = (w, Thrown ValidationError)) /\
  (forall executor input s w,
      prop "message" input = JsString s ->
      js_length s = 0 \/ 10000 < js_length s ->
      executorAgentRouter.chat executor input w = (w, Thrown ValidationError)) /\
  (forall agent input s w,
      prop "message" input = JsString s ->
      js_length s = 0 \/ 10000 < js_length s ->
      agentRouter.chat agent input w = (w, Thrown ValidationError)) /\
  (forall model s w,
      1 <= js_length s <= 10000 ->
      chatRouter.input_schema (chat_input s)
        = Some (chatRouter.mkInput s "default") /\
      snd (chatRouter.sendChat model (chat_input s) w) <> Thrown ValidationError /\
      exists tl, Messages (fst (chatRouter.sendChat model (chat_input s) w))
                 = Messages w ++ new_row user s w :: tl) /\
  (forall executor s w,
      1 <= js_length s <= 10000 ->
      agentRouter.input_schema (agent_input s) = Some s /\
      exists tl, Messages (fst (executorAgentRouter.chat executor (agent_input s) w))
                 = Messages w ++ new_row user s w :: tl).
Proof.
  split; [|split; [|split; [|split]]].
  - intros model input s w Hc Hlen. apply procedure_rejects.
    eapply sendChat_input_schema_rejects_length; eassumption.
  - intros executor input s w Hc Hlen. apply procedure_rejects.
    eapply agent_input_schema_rejects_length; eassumption.
  - intros agent input s w Hc Hlen. apply procedure_rejects.
    eapply agent_input_schema_rejects_length; eassumption.
  - intros model s w Hlen.
    assert (Hs : chatRouter.input_schema (chat_input s)
                 = Some (chatRouter.mkInput s "default")).
    { apply sendChat_input_schema_spec.
      split; [reflexivity|]. split; [reflexivity|]. split; [exact Hlen|].
      left. split; reflexivity. }
    split; [exact Hs|]. split.
    + eapply sendChat_never_ValidationError_when_parsed. exact Hs.
    + apply (sendChat_Messages model _ _ w Hs).
  - intros executor s w Hlen.
    assert (Hs : agentRouter.input_schema (agent_input s) = Some s).
    { apply agent_input_schema_spec.
      split; [reflexivity|]. split; [reflexivity | exact Hlen]. }
    split; [exact Hs|].
    apply (executor_chat_Messages executor _ _ w Hs).
Qed.

Lemma content_length_validation_witness :
  chatRouter.sendChat failing_model
    (chat_input (replicate (Z.to_nat 10001) "a")) empty_world
  = (empty_world, Thrown ValidationError) /\
  @executorAgentRouter.chat sample_zod failing_executor
    (agent_input (replicate (Z.to_nat 10001) "a")) empty_world
  = (empty_world, Thrown ValidationError) /\
  @agentRouter.chat sample_zod failing_agent (agent_input EmptyString) empty_world
  = (empty_world, Thrown ValidationError) /\
  chatRouter.input_schema (chat_input (replicate (Z.to_nat 10000) "a"))
  = Some (chatRouter.mkInput (replicate (Z.to_nat 10000) "a") "default") /\
  agentRouter.input_schema (agent_input (replicate (Z.to_nat 10000) "a"))
  = Some (replicate (Z.to_nat 10000) "a").
Proof.
  split; [|split; [|split; [|split]]].
  - apply (proj1 (@content_length_validation sample_zod))
      with (s := replicate (Z.to_nat 10001) "a").
    + reflexivity.
    + right. vm_compute. reflexivity.
  - apply (proj1 (proj2 (@content_length_validation sample_zod)))
      with (s := replicate (Z.to_nat 10001) "a").
    + reflexivity.
    + right. vm_compute. reflexivity.
  - apply (proj1 (proj2 (proj2 (@content_length_validation sample_zod))))
      with (s := EmptyString).
    + reflexivity.
    + left. reflexivity.
  - apply (proj1 (proj2 (proj2 (proj2 (@content_length_validation sample_zod))))
             failing_model (replicate (Z.to_nat 10000) "a") empty_world).
    vm_compute. split; discriminate.
  - apply (proj2 (proj2 (proj2 (proj2 (@content_length_validation sample_zod))))
             failing_executor (replicate (Z.to_nat 10000) "a") empty_world).
    vm_compute. split; discriminate.
Defined.

(** ** A failed generation leaves the question behind *)


(** Time that passes makes every stored row older than the clock. *)
Lemma sleep_before_now (d : N) (w : World) :
  no_future w -> (0 < d)%N -> before_now (fst (sleep d w)).
Proof.
  unfold no_future, before_now, sleep. cbn [fst Messages clock].
  intros Hnf Hd. eapply Forall_impl; [|exact Hnf].
  intros m Hm. simpl in Hm. lia.
Qed.

Lemma all_oldest_first_read (w : World) : oldest_first_read (Messages w) (all w).
Proof. split; [apply all_perm | apply all_oldest_first]. Qed.








(** ** The context window *)

Lemma recent_in_Messages (n : nat) (w : World) (m : Message.row) :
  In m (recent n w) -> In m (Messages w).
Proof.
  unfold recent, limit, orderBy. intros Hin.
  apply firstn_In in Hin. apply sort_by_in in Hin. exact Hin.
Qed.

(** A row left out of [recent n] is no more recent than any row in it. *)
Lemma recent_are_the_most_recent (n : nat) (w : World) (m m' : Message.row) :
  In m (recent n w) -> In m' (Messages w) -> ~ In m' (recent n w) ->
  Message.createdAt m' <= Message.createdAt m.
Proof.
  unfold recent, limit, orderBy. intros Hm Hm' Hout.
  set (s := sort_by (desc Message.createdAt) (Messages w)) in *.
  assert (Hs : StronglySorted
                 (fun a b => Message.createdAt b <= Message.createdAt a)
                 (firstn n s ++ skipn n s)).
  { rewrite firstn_skipn. apply orderBy_desc_sorted. }
  apply (StronglySorted_app_inv _ _ _ Hs m m' Hm).
  assert (Hin : In m' (firstn n s ++ skipn n s)).
  { rewrite firstn_skipn. apply sort_by_in. exact Hm'. }
  apply in_app_or in Hin. destruct Hin as [Hin|Hin]; [contradiction | exact Hin].
Qed.

Lemma context_window_oldest_first (w : World) :
  oldest_first (context_window w).
Proof.
  unfold context_window, oldest_first.
  apply (StronglySorted_rev
           (fun a b => Message.createdAt b <= Message.createdAt a)).
  apply recent_most_recent_first.
Qed.

Lemma context_window_length (w : World) :
  List.length (context_window w) = Nat.min 10 (List.length (Messages w)).
Proof.
  unfold context_window, recent, limit, orderBy.
  rewrite length_rev, length_firstn, sort_by_length. reflexivity.
Qed.

Lemma sendChat_trace (model : GenerateText) (input : JsValue)
    (inp : chatRouter.input) (w : World) :
  chatRouter.input_schema input = Some inp ->
  trace (fst (chatRouter.sendChat model input w))
  = GenerateTextCall (object_get (chatRouter.character inp) SYSTEM_PROMPTS)
      (chat_history (after_user_turn (chatRouter.content inp) w))
    :: trace w.
Proof.
  intros Hs. rewrite (sendChat_run model input inp w Hs). cbv zeta.
  destruct (outcome _); reflexivity.
Qed.

Lemma agent_chat_trace `{Zod} (agent : agentRouter.Agent) (input : JsValue)
    (message : string) (w : World) :
  agentRouter.input_schema input = Some message ->
  exists evs,
    trace (fst (agentRouter.chat agent input w))
    = evs ++ AgentInvoke AGENT_SYSTEM_PROMPT (map name agent_tools)
               (chat_history (after_user_turn message w) ++ [(user, message)])
             :: trace w /\
    Forall is_ToolRun evs.
Proof.
  intros Hs. rewrite (agent_chat_run agent input message w Hs). cbv zeta.
  match goal with |- context [run_agent agent_tools ?r ?w0] =>
    pose proof (agent_run_frame r w0) as (_ & _ & _ & evs & Ht & Hf);
    fold agent_tools in Ht;
    destruct (run_agent agent_tools r w0) as [w2 [result|e]]
  end; simpl in Ht |- *; exists evs; (split; [exact Ht | exact Hf]).
Qed.

Lemma executor_chat_trace `{Zod} (executor : executorAgentRouter.Executor)
    (input : JsValue) (message : string) (w : World) :
  agentRouter.input_schema input = Some message ->
  exists evs,
    trace (fst (executorAgentRouter.chat executor input w))
    = evs ++ ExecutorInvoke AGENT_SYSTEM_PROMPT (map name agent_tools) message
               (chat_history (after_user_turn message w))
             :: trace w /\
    Forall is_ToolRun evs.
Proof.
  intros Hs. rewrite (executor_chat_run executor input message w Hs). cbv zeta.
  match goal with |- context [run_agent agent_tools ?r ?w0] =>
    pose proof (agent_run_frame r w0) as (_ & _ & _ & evs & Ht & Hf);
    fold agent_tools in Ht;
    destruct (run_agent agent_tools r w0) as [w2 [result|e]]
  end; simpl in Ht |- *; exists evs; (split; [exact Ht | exact Hf]).
Qed.

(** C2. In every chat the messages handed to the model are the rows of
    [recent 10], read from the store that already holds the user turn and
    reversed into oldest-first order. The limit is the constant 10: the
    window never has more than 10 rows, it has 10 as soon as the store has
    that many, whatever their contents, and every row left out is no more
    recent than every row kept. *)
Theorem context_window_is_ten_most_recent `{Zod} :
  (forall model input inp w,
      chatRouter.input_schema input = Some inp ->
      trace (fst (chatRouter.sendChat model input w))
      = GenerateTextCall
          (object_get (chatRouter.character inp) SYSTEM_PROMPTS)
          (map to_chat_message
               (rev (recent 10 (after_user_turn (chatRouter.content inp) w))))
        :: trace w) /\
  (forall executor input message w,
      agentRouter.input_schema input = Some message ->
      exists evs,
        trace (fst (executorAgentRouter.chat executor input w))
        = evs ++ ExecutorInvoke AGENT_SYSTEM_PROMPT (map name agent_tools) message
                   (map to_chat_message
                        (rev (recent 10 (after_user_turn message w))))
                 :: trace w /\
        Forall is_ToolRun evs) /\
  (forall agent input message w,
      agentRouter.input_schema input = Some message ->
      exists evs,
        trace (fst (agentRouter.chat agent input w))
        = evs ++ AgentInvoke AGENT_SYSTEM_PROMPT (map name agent_tools)
                   (map to_chat_message
                        (rev (recent 10 (after_user_turn message w)))
                    ++ [(user, message)])
                 :: trace w /\
        Forall is_ToolRun evs) /\
  (forall w1,
      (List.length (recent 10 w1) <= 10)%nat /\
      List.length (rev (recent 10 w1)) = Nat.min 10 (List.length (Messages w1)) /\
      most_recent_first (recent 10 w1) /\
      oldest_first (rev (recent 10 w1)) /\
      (forall m, In m (recent 10 w1) -> In m (Messages w1)) /\
      (forall m m', In m (recent 10 w1) -> In m' (Messages w1) ->
                    ~ In m' (recent 10 w1) ->
                    Message.createdAt m' <= Message.createdAt m)).
Proof.
  split; [|split; [|split]].
  - intros model input inp w Hs. apply (sendChat_trace model input inp w Hs).
  - intros executor input message w Hs.
    apply (executor_chat_trace executor input message w Hs).
  - intros agent input message w Hs.
    apply (agent_chat_trace agent input message w Hs).
  - intros w1.
    split; [apply recent_length|].
    split; [apply context_window_length|].
    split; [apply recent_most_recent_first|].
    split; [apply context_window_oldest_first|].
    split; [intros m; apply recent_in_Messages|].
    intros m m'. apply recent_are_the_most_recent.
Qed.

Lemma context_window_is_ten_most_recent_witness :
  chatRouter.input_schema (chat_input "Why?")
  = Some (chatRouter.mkInput "Why?" "default") /\
  trace (fst (chatRouter.sendChat (answering_model 3 "Because.")
                (chat_input "Why?") two_turn_world))
  = [GenerateTextCall (Some prompt_default)
       [(user, "Hello"%string); (assistant, "Hi there"%string);
        (user, "Why?"%string)]] /\
  (exists evs,
      trace (fst (@executorAgentRouter.chat sample_zod failing_executor
                    (agent_input "Why?") two_turn_world))
      = evs ++ [ExecutorInvoke AGENT_SYSTEM_PROMPT
                  (map name (@agent_tools sample_zod)) "Why?"
                  [(user, "Hello"%string); (assistant, "Hi there"%string);
                   (user, "Why?"%string)]]) /\
  (exists evs,
      trace (fst (@agentRouter.chat sample_zod failing_agent
                    (agent_input "Why?") two_turn_world))
      = evs ++ [AgentInvoke AGENT_SYSTEM_PROMPT
                  (map name (@agent_tools sample_zod))
                  ([(user, "Hello"%string); (assistant, "Hi there"%string);
                    (user, "Why?"%string)] ++ [(user, "Why?"%string)])]).
Proof.
  split; [reflexivity|]. split; [|split].
  - exact (proj1 (@context_window_is_ten_most_recent sample_zod)
             (answering_model 3 "Because.") (chat_input "Why?")
             (chatRouter.mkInput "Why?" "default") two_turn_world eq_refl).
  - destruct (proj1 (proj2 (@context_window_is_ten_most_recent sample_zod))
                failing_executor (agent_input "Why?") "Why?"%string
                two_turn_world eq_refl) as (evs & Ht & _).
    exists evs. exact Ht.
  - destruct (proj1 (proj2 (proj2 (@context_window_is_ten_most_recent sample_zod)))
                failing_agent (agent_input "Why?") "Why?"%string
                two_turn_world eq_refl) as (evs & Ht & _).
    exists evs. exact Ht.
Defined.

(** ** An empty answer is stored all the same *)

Lemma aiResponse_empty_cases :
  agentRouter.aiResponse (agentRouter.mkState []) = EmptyString /\
  (forall ms tc,
      agentRouter.aiResponse
        (agentRouter.mkState
           (ms ++ [agentRouter.mkMsg (agentRouter.ContentString EmptyString) tc]))
      = EmptyString) /\
  (forall ms tc,
      agentRouter.aiResponse
        (agentRouter.mkState
           (ms ++ [agentRouter.mkMsg (agentRouter.ContentArray []) tc]))
      = EmptyString) /\
  (forall ms tc,
      agentRouter.aiResponse
        (agentRouter.mkState
           (ms ++ [agentRouter.mkMsg agentRouter.ContentOther tc]))
      = EmptyString).
Proof.
  assert (Hlast : forall (ms : list agentRouter.ResultMessage) m,
             agentRouter.lastMessage (agentRouter.mkState (ms ++ [m])) = Some m).
  { intros ms m. unfold agentRouter.lastMessage. simpl.
    rewrite length_app. simpl.
    replace (List.length ms + 1 - 1)%nat with (List.length ms) by lia.
    rewrite nth_error_app2 by lia. rewrite Nat.sub_diag. reflexivity. }
  split; [reflexivity|].
  repeat split; intros ms tc; unfold agentRouter.aiResponse;
    rewrite Hlast; reflexivity.
Qed.



(** ** The tool-call trace *)

Lemma extract_toolCalls_spec (now : Z) (result : agentRouter.AgentState) :
  agentRouter.extract_toolCalls now result
  = map (trace_entry now) (issued result).
Proof.
  unfold agentRouter.extract_toolCalls, issued.
  induction (agentRouter.messages result) as [|msg ms IH]; simpl.
  - reflexivity.
  - rewrite IH, map_app. f_equal.
    destruct (agentRouter.tool_calls msg); reflexivity.
Qed.

(** C6. In the agent procedure the returned toolCalls field is absent
    exactly when the result messages record no tool call; when present it
    has one entry per recorded call, in order, carrying the call's name
    (or "unknown"), its arguments as input, the time of extraction as
    timestamp and success set; the output of every entry is the empty
    object, whatever the tool returned. *)
Theorem toolCalls_present_iff_issued `{Zod}
    (agent : agentRouter.Agent) (input : JsValue) (message : string)
    (w w2 : World) (result : agentRouter.AgentState) :
  agentRouter.input_schema input = Some message ->
  let w1 := after_user_turn message w in
  let conversation := chat_history w1 ++ [(user, message)] in
  run_agent agent_tools (agent conversation)
    (with_event (AgentInvoke AGENT_SYSTEM_PROMPT (map name agent_tools)
                             conversation) w1)
    = (w2, Returned result) ->
  exists out,
    snd (agentRouter.chat agent input w) = Returned out /\
    (agentRouter.toolCalls out = None <-> issued result = []) /\
    (forall calls,
        agentRouter.toolCalls out = Some calls ->
        issued result <> [] /\
        calls = map (trace_entry (clock w2)) (issued result) /\
        List.length calls = List.length (issued result) /\
        Forall (fun c => agentRouter.output c = JsObject [] /\
                         agentRouter.success c = true /\
                         agentRouter.timestamp c = toISOString (clock w2))
               calls).
Proof.
  intros Hs w1 conversation Hrun.
  rewrite (agent_chat_run agent input message w Hs). cbv zeta.
  fold w1. fold conversation. rewrite Hrun.
  eexists. split; [reflexivity|]. simpl.
  rewrite extract_toolCalls_spec.
  destruct (issued result) as [|raw raws] eqn:Ei.
  - simpl. split; [tauto|]. discriminate.
  - assert (Hpos : (0 <? Z.of_nat (List.length (map (trace_entry (clock w2))
                                                  (raw :: raws)))) = true).
    { apply Z.ltb_lt. simpl List.length. lia. }
    rewrite Hpos. split.
    + split; discriminate.
    + intros calls [= <-].
      split; [discriminate|]. split; [reflexivity|].
      split; [apply (length_map (trace_entry (clock w2)) (raw :: raws))|].
      apply (proj2 (Forall_map (trace_entry (clock w2)) _ (raw :: raws))).
      apply Forall_forall. intros r _. repeat split.
Qed.

Lemma toolCalls_present_iff_issued_witness :
  exists out,
    snd (@agentRouter.chat sample_zod listing_agent (agent_input "Who is there?")
           empty_world) = Returned out /\
    agentRouter.toolCalls out
    = Some [agentRouter.mkToolCall "list_users" (JsObject []) (JsObject [])
              "1970-01-01T00:00:00.002Z" true].
Proof.
  destruct (@toolCalls_present_iff_issued sample_zod listing_agent
              (agent_input "Who is there?") "Who is there?"%string
              empty_world _ _ eq_refl eq_refl)
    as (out & Hr & _ & _).
  exists out. split; [exact Hr|].
  vm_compute in Hr. injection Hr as <-. reflexivity.
Defined.

(** ** The current message reaches the agent twice *)

Lemma recent_after_strictly_newer_turn (n : nat) (message : string) (w : World) :
  Forall (fun m => Message.createdAt m < clock w) (Messages w) ->
  recent (S n) (after_user_turn message w)
  = new_row user message w :: recent n w.
Proof.
  intros Hlt. unfold recent, limit, orderBy.
  rewrite after_user_turn_Messages.
  rewrite sort_by_snoc_first; [reflexivity|].
  eapply Forall_impl; [|exact Hlt].
  intros m Hm. unfold desc, new_row. apply Z.leb_gt. exact Hm.
Qed.

(** With one stored row bearing the clock's own timestamp, the row just
    inserted is within the 10 most recent rows and reaches the agent twice,
    but its copy in the history is not the last history entry: C7 fails as
    stated. *)
Lemma current_message_not_last_history_entry_on_tie :
  no_future just_answered_world /\
  In (new_row user "Why?" just_answered_world)
     (recent 10 (after_user_turn "Why?" just_answered_world)) /\
  trace (fst (@agentRouter.chat sample_zod silent_agent (agent_input "Why?")
                just_answered_world))
  = [AgentInvoke AGENT_SYSTEM_PROMPT (map name (@agent_tools sample_zod))
       ([(user, "Hello"%string); (user, "Why?"%string);
         (assistant, "Hi there"%string)]
        ++ [(user, "Why?"%string)])] /\
  last (chat_history (after_user_turn "Why?" just_answered_world))
       (user, EmptyString)
  <> (user, "Why?"%string).
Proof.
  split.
  { unfold no_future, just_answered_world. simpl.
    repeat constructor; simpl; lia. }
  split; [vm_compute; tauto|].
  split; [reflexivity|].
  vm_compute. discriminate.
Qed.

(** C7 (amended). In agent mode the user turn is stored before the ten
    most recent rows are read, and the current message is appended to what
    was read: whenever the row just inserted is among those ten rows, the
    sequence sent to the agent holds the current user message twice, once
    among the history entries and once as the appended last entry. When
    every stored row is strictly older than the clock, the inserted row is
    among the ten and its copy is the last history entry. *)
Theorem current_message_sent_twice `{Zod} :
  (forall message w,
      In (new_row user message w) (recent 10 (after_user_turn message w)) ->
      exists pre post,
        chat_history (after_user_turn message w)
        = pre ++ (user, message) :: post) /\
  (forall message w,
      Forall (fun m => Message.createdAt m < clock w) (Messages w) ->
      In (new_row user message w) (recent 10 (after_user_turn message w)) /\
      exists pre,
        chat_history (after_user_turn message w) = pre ++ [(user, message)]) /\
  (forall agent input message w,
      agentRouter.input_schema input = Some message ->
      exists evs,
        trace (fst (agentRouter.chat agent input w))
        = evs ++ AgentInvoke AGENT_SYSTEM_PROMPT (map name agent_tools)
                   (chat_history (after_user_turn message w)
                    ++ [(user, message)])
                 :: trace w /\
        Forall is_ToolRun evs) /\
  (forall executor input message w,
      agentRouter.input_schema input = Some message ->
      exists evs,
        trace (fst (executorAgentRouter.chat executor input w))
        = evs ++ ExecutorInvoke AGENT_SYSTEM_PROMPT (map name agent_tools)
                   message (chat_history (after_user_turn message w))
                 :: trace w /\
        Forall is_ToolRun evs /\
        executorAgentRouter.prompt_messages message
          (chat_history (after_user_turn message w))
        = chat_history (after_user_turn message w) ++ [(user, message)]).
Proof.
  split; [|split; [|split]].
  - intros message w Hin.
    apply in_split. unfold chat_history, context_window.
    change (user, message) with (to_chat_message (new_row user message w)).
    apply in_map. apply -> in_rev. exact Hin.
  - intros message w Hlt.
    rewrite (recent_after_strictly_newer_turn 9 message w Hlt).
    split; [left; reflexivity|].
    unfold chat_history, context_window.
    rewrite (recent_after_strictly_newer_turn 9 message w Hlt).
    simpl. rewrite map_app. simpl. eexists. reflexivity.
  - intros agent input message w Hs.
    apply (agent_chat_trace agent input message w Hs).
  - intros executor input message w Hs.
    destruct (executor_chat_trace executor input message w Hs)
      as (evs & Ht & Hf).
    exists evs. repeat split; assumption.
Qed.

Lemma current_message_sent_twice_witness :
  Forall (fun m => Message.createdAt m < clock two_turn_world)
         (Messages two_turn_world) /\
  (exists pre,
      chat_history (after_user_turn "Why?" two_turn_world)
      = pre ++ [(user, "Why?"%string)]) /\
  (exists pre post,
      chat_history (after_user_turn "Why?" just_answered_world)
      = pre ++ (user, "Why?"%string) :: post) /\
  (exists evs,
      trace (fst (@agentRouter.chat sample_zod silent_agent (agent_input "Why?")
                    two_turn_world))
      = evs ++ [AgentInvoke AGENT_SYSTEM_PROMPT
                  (map name (@agent_tools sample_zod))
                  (chat_history (after_user_turn "Why?" two_turn_world)
                   ++ [(user, "Why?"%string)])]) /\
  executorAgentRouter.prompt_messages "Why?"
    (chat_history (after_user_turn "Why?" two_turn_world))
  = chat_history (after_user_turn "Why?" two_turn_world)
    ++ [(user, "Why?"%string)].
Proof.
  assert (Hlt : Forall (fun m => Message.createdAt m < clock two_turn_world)
                       (Messages two_turn_world)).
  { unfold two_turn_world. simpl. repeat constructor; simpl; lia. }
  split; [exact Hlt|]. split; [|split; [|split]].
  - exact (proj2 (proj1 (proj2 (@current_message_sent_twice sample_zod))
                    "Why?"%string two_turn_world Hlt)).
  - apply (proj1 (@current_message_sent_twice sample_zod)
             "Why?"%string just_answered_world).
    vm_compute. tauto.
  - destruct (proj1 (proj2 (proj2 (@current_message_sent_twice sample_zod)))
                silent_agent (agent_input "Why?") "Why?"%string two_turn_world
                eq_refl) as (evs & Ht & _).
    exists evs. exact Ht.
  - destruct (proj2 (proj2 (proj2 (@current_message_sent_twice sample_zod)))
                silent_executor (agent_input "Why?") "Why?"%string
                two_turn_world eq_refl) as (evs & _ & _ & Hp).
    exact Hp.
Defined.

(** ** Personas *)

Lemma SYSTEM_PROMPTS_entries :
  object_get "default" SYSTEM_PROMPTS = Some prompt_default /\
  object_get "luffy" SYSTEM_PROMPTS = Some prompt_luffy /\
  object_get "ironman" SYSTEM_PROMPTS = Some prompt_ironman /\
  object_get "goku" SYSTEM_PROMPTS = Some prompt_goku.
Proof. repeat split. Qed.

Lemma object_get_In (k : string) (o : list (string * string)) (v : string) :
  object_get k o = Some v -> In (k, v) o.
Proof.
  induction o as [|[k' v'] o IH]; simpl; [discriminate|].
  destruct (String.eqb k k') eqn:E.
  - apply String.eqb_eq in E. intros [= ->]. left. subst. reflexivity.
  - intros Hg. right. apply IH, Hg.
Qed.

Lemma character_keys_have_prompts (k : string) :
  In k chatRouter.character_keys ->
  exists p, object_get k SYSTEM_PROMPTS = Some p.
Proof.
  simpl. intros [<-|[<-|[<-|[<-|[]]]]]; eexists; reflexivity.
Qed.

(** C8. A sendChat whose character key is a string outside default, luffy,
    ironman and goku is rejected by the input schema: the procedure throws
    the validation error in the world it was called in, so no row is stored
    and the model is not called. With the key left out the default prompt
    is used, and for every accepted key the system prompt of the one model
    call is the entry SYSTEM_PROMPTS holds for that key. *)
Theorem persona_key_validation :
  (forall model input k w,
      prop "character" input = JsString k ->
      ~ In k chatRouter.character_keys ->
      chatRouter.sendChat model input w = (w, Thrown ValidationError)) /\
  (forall model input s w,
      z_is_object input = true ->
      prop "content" input = JsString s -> 1 <= js_length s <= 10000 ->
      prop "character" input = JsUndefined ->
      trace (fst (chatRouter.sendChat model input w))
      = GenerateTextCall (Some prompt_default)
                         (chat_history (after_user_turn s w))
        :: trace w) /\
  (forall model input s k w,
      z_is_object input = true ->
      prop "content" input = JsString s -> 1 <= js_length s <= 10000 ->
      prop "character" input = JsString k ->
      In k chatRouter.character_keys ->
      exists p,
        In (k, p) SYSTEM_PROMPTS /\
        object_get k SYSTEM_PROMPTS = Some p /\
        trace (fst (chatRouter.sendChat model input w))
        = GenerateTextCall (Some p) (chat_history (after_user_turn s w))
          :: trace w) /\
  SYSTEM_PROMPTS
  = [ ("default"%string, prompt_default); ("luffy"%string, prompt_luffy);
      ("ironman"%string, prompt_ironman); ("goku"%string, prompt_goku) ].
Proof.
  split; [|split; [|split]].
  - intros model input k w Hk Hout. apply procedure_rejects.
    destruct (chatRouter.input_schema input) as [[c k']|] eqn:E; [|reflexivity].
    apply sendChat_input_schema_spec in E.
    destruct E as (_ & _ & _ & [[Hu _] | [Hk' Hin]]).
    + rewrite Hk in Hu. discriminate.
    + rewrite Hk in Hk'. injection Hk' as <-. contradiction.
  - intros model input s w Hobj Hc Hlen Hk.
    assert (Hs : chatRouter.input_schema input
                 = Some (chatRouter.mkInput s "default")).
    { apply sendChat_input_schema_spec. repeat split; try assumption; try lia.
      left. split; [exact Hk | reflexivity]. }
    rewrite (sendChat_trace model input _ w Hs). reflexivity.
  - intros model input s k w Hobj Hc Hlen Hk Hin.
    assert (Hs : chatRouter.input_schema input
                 = Some (chatRouter.mkInput s k)).
    { apply sendChat_input_schema_spec. repeat split; try assumption; try lia.
      right. split; assumption. }
    destruct (character_keys_have_prompts k Hin) as (p & Hp).
    exists p. split; [apply object_get_In, Hp|]. split; [exact Hp|].
    rewrite (sendChat_trace model input _ w Hs).
    cbn [chatRouter.character chatRouter.content]. rewrite Hp. reflexivity.
  - reflexivity.
Qed.

Lemma persona_key_validation_witness :
  chatRouter.sendChat failing_model
    (JsObject [("content", JsString "Hi"); ("character", JsString "stark")])
    two_turn_world
  = (two_turn_world, Thrown ValidationError) /\
  (exists p,
      In ("goku"%string, p) SYSTEM_PROMPTS /\
      object_get "goku" SYSTEM_PROMPTS = Some p /\
      trace (fst (chatRouter.sendChat failing_model
                    (JsObject [("content", JsString "Hi");
                               ("character", JsString "goku")])
                    two_turn_world))
      = GenerateTextCall (Some p)
          (chat_history (after_user_turn "Hi" two_turn_world))
        :: trace two_turn_world) /\
  trace (fst (chatRouter.sendChat failing_model (chat_input "Hi") two_turn_world))
  = GenerateTextCall (Some prompt_default)
      (chat_history (after_user_turn "Hi" two_turn_world))
    :: trace two_turn_world.
Proof.
  split; [|split].
  - apply (proj1 persona_key_validation) with (k := "stark"%string).
    + reflexivity.
    + simpl. intros [E|[E|[E|[E|[]]]]]; discriminate E.
  - apply (proj1 (proj2 (proj2 persona_key_validation))).
    + reflexivity.
    + reflexivity.
    + vm_compute. split; discriminate.
    + reflexivity.
    + simpl. tauto.
  - apply (proj1 (proj2 persona_key_validation)).
    + reflexivity.
    + reflexivity.
    + vm_compute. split; discriminate.
    + reflexivity.
Defined.

(** ** Tool adapters on missing data *)

Lemma find_none_iff {A} (f : A -> bool) (l : list A) :
  find f l = None <-> forall x, In x l -> f x = false.
Proof.
  induction l as [|a l IH]; simpl.
  - split; [intros _ x [] | reflexivity].
  - destruct (f a) eqn:E.
    + split; [discriminate|]. intros Hall.
      specialize (Hall a (or_introl eq_refl)). congruence.
    + rewrite IH. split.
      * intros Hall x [<-|Hx]; [exact E | apply Hall, Hx].
      * intros Hall x Hx. apply Hall. right. exact Hx.
Qed.

Lemma filter_nil_iff {A} (f : A -> bool) (l : list A) :
  filter f l = [] <-> forall x, In x l -> f x = false.
Proof.
  induction l as [|a l IH]; simpl.
  - split; [intros _ x [] | reflexivity].
  - destruct (f a) eqn:E.
    + split; [discriminate|]. intros Hall.
      specialize (Hall a (or_introl eq_refl)). congruence.
    + rewrite IH. split.
      * intros Hall x [<-|Hx]; [exact E | apply Hall, Hx].
      * intros Hall x Hx. apply Hall. right. exact Hx.
Qed.

Lemma invoke_tool_validated (t : DynamicStructuredTool) (args : JsValue)
    (i : Input t) (w : World) :
  schema t args = Some i -> invoke_tool t args w = func t i w.
Proof. unfold invoke_tool. intros ->. reflexivity. Qed.

(** C9. On validated input the adapters answer missing data with a
    sentence and do not throw: list_users and list_posts on an empty table
    return their "No ... found in the database." sentence, get_user for an
    id up to 2147483647 that no user has returns "User with ID <id> not
    found", and get_posts_by_user for a user id up to 2147483647 without
    posts returns "User <id> has not created any posts yet."; the world is
    left as it was. *)
Theorem adapters_answer_missing_data_with_a_sentence :
  (forall w,
      Users w = [] ->
      func listUsersTool tt w
      = (w, Returned "No users found in the database."%string)) /\
  (forall w,
      Posts w = [] ->
      func listPostsTool tt w
      = (w, Returned "No posts found in the database."%string)) /\
  (forall w id,
      0 < id <= int4_max ->
      (forall u, In u (Users w) -> User.id u <> id) ->
      func getUserTool id w
      = (w, Returned ("User with ID " ++ string_of_Z id ++ " not found")%string)) /\
  (forall w userId,
      0 < userId <= int4_max ->
      (forall p, In p (Posts w) -> Post.userId p <> userId) ->
      func getPostsByUserTool userId w
      = (w, Returned ("User " ++ string_of_Z userId ++
                      " has not created any posts yet.")%string)).
Proof.
  split; [|split; [|split]].
  - intros w Hu. simpl. unfold bind, userRouter.list. rewrite Hu. reflexivity.
  - intros w Hp. simpl. unfold bind, postRouter.list, procedure. simpl.
    rewrite Hp. reflexivity.
  - intros w id [Hid Hmax] Hmiss. simpl.
    unfold bind, userRouter.getById, procedure, userRouter.id_schema. simpl.
    apply Z.ltb_lt in Hid. unfold z_number_int_positive. rewrite Hid.
    assert (Hf : find (fun u => User.id u =? id) (Users w) = None).
    { apply find_none_iff. intros u Hu. apply Z.eqb_neq, Hmiss, Hu. }
    rewrite Hf.
    assert (Hr : out_of_range id = false)
      by (unfold out_of_range; apply Z.ltb_ge; exact Hmax).
    rewrite Hr. reflexivity.
  - intros w userId [Hid Hmax] Hmiss. simpl.
    unfold bind, postRouter.listByUser, procedure, userRouter.id_schema. simpl.
    apply Z.ltb_lt in Hid. unfold z_number_int_positive. rewrite Hid.
    assert (Hf : filter (fun p => Post.userId p =? userId) (Posts w) = []).
    { apply filter_nil_iff. intros p Hp. apply Z.eqb_neq, Hmiss, Hp. }
    rewrite Hf.
    assert (Hr : out_of_range userId = false)
      by (unfold out_of_range; apply Z.ltb_ge; exact Hmax).
    rewrite Hr. reflexivity.
Qed.

Lemma adapters_answer_missing_data_with_a_sentence_witness :
  func listUsersTool tt empty_world
  = (empty_world, Returned "No users found in the database."%string) /\
  func listPostsTool tt empty_world
  = (empty_world, Returned "No posts found in the database."%string) /\
  func getUserTool 7 blog_world
  = (blog_world, Returned "User with ID 7 not found"%string) /\
  func getPostsByUserTool 1 blog_world
  = (blog_world, Returned "User 1 has not created any posts yet."%string).
Proof.
  split; [|split; [|split]].
  - apply (proj1 adapters_answer_missing_data_with_a_sentence).
    reflexivity.
  - apply (proj1 (proj2 adapters_answer_missing_data_with_a_sentence)).
    reflexivity.
  - apply (proj1 (proj2 (proj2
             adapters_answer_missing_data_with_a_sentence))
             blog_world 7).
    + unfold int4_max. lia.
    + simpl. intros u [<-|[<-|[]]]; simpl; lia.
  - apply (proj2 (proj2 (proj2
             adapters_answer_missing_data_with_a_sentence))
             blog_world 1).
    + unfold int4_max. lia.
    + simpl. intros p [<-|[]]; simpl; lia.
Defined.

(** C9, counterexample. 2147483648 passes the schema of get_user and of
    get_posts_by_user, no user and no post of the store carries it, and
    both adapters throw: the id is no integer of the column it is compared
    with, the query raises, and nothing between the query and the agent
    catches the failure. *)
Lemma adapters_throw_beyond_the_integer_range :
  schema getUserTool (JsObject [("id", JsNumber 2147483648)]) = Some 2147483648 /\
  (forall u, In u (Users blog_world) -> User.id u <> 2147483648) /\
  func getUserTool 2147483648 blog_world
  = (blog_world, Thrown (StoreError "value out of range for type integer")) /\
  snd (@call_tool (@agent_tools sample_zod) "get_user"
         (JsObject [("id", JsNumber 2147483648)]) blog_world)
  = ToolThrew (StoreError "value out of range for type integer") /\
  schema getPostsByUserTool (JsObject [("userId", JsNumber 2147483648)])
  = Some 2147483648 /\
  (forall p, In p (Posts blog_world) -> Post.userId p <> 2147483648) /\
  func getPostsByUserTool 2147483648 blog_world
  = (blog_world, Thrown (StoreError "value out of range for type integer")) /\
  snd (@call_tool (@agent_tools sample_zod) "get_posts_by_user"
         (JsObject [("userId", JsNumber 2147483648)]) blog_world)
  = ToolThrew (StoreError "value out of range for type integer").
Proof.
  split; [reflexivity|]. split.
  { simpl. intros u [<-|[<-|[]]]; simpl; lia. }
  split; [reflexivity|]. split; [reflexivity|].
  split; [reflexivity|]. split.
  { simpl. intros p [<-|[]]; simpl; lia. }
  split; reflexivity.
Qed.

(** Through the runtime the same answers arrive as returned text. *)
Lemma call_tool_on_missing_data `{Zod} (w : World) :
  Users w = [] -> Posts w = [] ->
  snd (call_tool agent_tools "list_users" (JsObject []) w)
    = ToolReturned "No users found in the database." /\
  snd (call_tool agent_tools "list_posts" (JsObject []) w)
    = ToolReturned "No posts found in the database." /\
  snd (call_tool agent_tools "get_user" (JsObject [("id", JsNumber 1)]) w)
    = ToolReturned "User with ID 1 not found" /\
  snd (call_tool agent_tools "get_posts_by_user"
         (JsObject [("userId", JsNumber 1)]) w)
    = ToolReturned "User 1 has not created any posts yet.".
Proof.
  intros Hu Hp. unfold call_tool. simpl.
  unfold bind, emit, invoke_tool. simpl.
  unfold bind, userRouter.list, postRouter.list, userRouter.getById,
    postRouter.listByUser, procedure. simpl.
  rewrite Hu, Hp. simpl. repeat split.
Qed.

(** ** Reachable worlds *)

Lemma no_future_extend (w w' : World) (tl : list Message.row) :
  no_future w -> clock w <= clock w' ->
  Messages w' = Messages w ++ tl ->
  Forall (fun m => Message.createdAt m <= clock w') tl ->
  no_future w'.
Proof.
  unfold no_future. intros Hnf Hc Hm Htl. rewrite Hm.
  apply Forall_app. split; [|exact Htl].
  eapply Forall_impl; [|exact Hnf]. intros m Hle. simpl in Hle. lia.
Qed.

Lemma insert_Message_no_future (r : Role) (c : string) (w : World) :
  no_future w -> no_future (fst (insert_Message r c w)).
Proof.
  intros Hnf. eapply (no_future_extend w _ [new_row r c w]); try eassumption.
  - simpl. lia.
  - reflexivity.
  - repeat constructor. simpl. lia.
Qed.

Lemma agent_step_no_future (w w' : World) :
  agent_step w w' -> no_future w -> no_future w'.
Proof.
  intros (Hm & _ & Hc & _) Hnf.
  apply (no_future_extend w w' []); try assumption.
  - rewrite app_nil_r. exact Hm.
  - constructor.
Qed.

Lemma entity_step_no_future (w w' : World) :
  entity_step w w' -> no_future w -> no_future w'.
Proof.
  intros (Hm & _ & Hc & _) Hnf.
  apply (no_future_extend w w' []); try assumption.
  - lia.
  - rewrite app_nil_r. exact Hm.
  - constructor.
Qed.

Lemma with_call_no_future (e : Event) (d : N) (w : World) :
  no_future w -> no_future (with_call e d w).
Proof.
  intros Hnf. apply (no_future_extend w _ []); try assumption.
  - simpl. lia.
  - simpl. rewrite app_nil_r. reflexivity.
  - constructor.
Qed.

Lemma with_event_no_future (e : Event) (w : World) :
  no_future w -> no_future (with_event e w).
Proof. intros Hnf. exact Hnf. Qed.

Lemma serve_no_future `{Zod} (rq : Request) (w : World) :
  no_future w -> no_future (serve rq w).
Proof.
  intros Hnf. destruct rq as [model input | agent input | executor input
                              | | | input | input | d]; simpl.
  - destruct (chatRouter.input_schema input) as [inp|] eqn:Hs.
    + rewrite (sendChat_run model input inp w Hs). cbv zeta.
      pose proof (insert_Message_no_future user (chatRouter.content inp) w Hnf)
        as H1.
      fold (after_user_turn (chatRouter.content inp) w) in H1.
      destruct (outcome _); cbn [fst].
      * apply with_call_no_future, H1.
      * apply (insert_Message_no_future assistant), with_call_no_future, H1.
    + unfold chatRouter.sendChat. rewrite procedure_rejects by exact Hs.
      exact Hnf.
  - destruct (agentRouter.input_schema input) as [message|] eqn:Hs.
    + rewrite (agent_chat_run agent input message w Hs). cbv zeta.
      pose proof (insert_Message_no_future user message w Hnf) as H1.
      fold (after_user_turn message w) in H1.
      match goal with |- context [run_agent agent_tools ?r ?w0] =>
        pose proof (agent_run_frame r w0) as Hstep;
        fold agent_tools in Hstep;
        assert (H2 : no_future (fst (run_agent agent_tools r w0)))
          by (apply (agent_step_no_future w0); [exact Hstep | exact H1]);
        destruct (run_agent agent_tools r w0) as [w2 [result|e]]
      end; cbn [fst] in H2 |- *.
      * apply (insert_Message_no_future assistant), H2.
      * exact H2.
    + unfold agentRouter.chat. rewrite procedure_rejects by exact Hs.
      exact Hnf.
  - destruct (agentRouter.input_schema input) as [message|] eqn:Hs.
    + rewrite (executor_chat_run executor input message w Hs). cbv zeta.
      pose proof (insert_Message_no_future user message w Hnf) as H1.
      fold (after_user_turn message w) in H1.
      match goal with |- context [run_agent agent_tools ?r ?w0] =>
        pose proof (agent_run_frame r w0) as Hstep;
        fold agent_tools in Hstep;
        assert (H2 : no_future (fst (run_agent agent_tools r w0)))
          by (apply (agent_step_no_future w0); [exact Hstep | exact H1]);
        destruct (run_agent agent_tools r w0) as [w2 [result|e]]
      end; cbn [fst] in H2 |- *.
      * apply (insert_Message_no_future assistant), H2.
      * exact H2.
    + unfold executorAgentRouter.chat. rewrite procedure_rejects by exact Hs.
      exact Hnf.
  - exact Hnf.
  - constructor.
  - apply (entity_step_no_future w); [apply userRouter_create_frame | exact Hnf].
  - apply (entity_step_no_future w); [apply postRouter_create_frame | exact Hnf].
  - apply (agent_step_no_future w); [apply sleep_agent_step | exact Hnf].
Qed.

(** Every world the procedures can reach from the empty store has no row
    stamped in the future. *)
Lemma reachable_no_future `{Zod} (w : World) : reachable w -> no_future w.
Proof.
  intros [rqs ->]. unfold serve_all.
  assert (Hgen : forall w0, no_future w0 ->
                   no_future (fold_left (fun w' rq => serve rq w') rqs w0)).
  { induction rqs as [|rq rqs IH]; intros w0 H0; simpl.
    - exact H0.
    - apply IH, serve_no_future, H0. }
  apply Hgen. constructor.
Qed.

(** Rows tied on createdAt are reachable: two requests within one tick. *)
Lemma tied_rows_reachable `{Zod} :
  exists w, reachable w /\ Messages w = Messages tied_world.
Proof.
  exists (serve_all [ Idle 5; SendChat failing_model (chat_input "first");
                      SendChat failing_model (chat_input "second") ]
                    empty_world).
  split; [eexists; reflexivity | reflexivity].
Qed.

(** So is a store whose last answer bears the clock's own timestamp: the
    next request arrives within the tick the answer was stored in. *)
Lemma just_answered_reachable `{Zod} :
  exists w, reachable w /\
            Messages w = Messages just_answered_world /\
            clock w = clock just_answered_world.
Proof.
  exists (serve_all [ Idle 5;
                      SendChat (answering_model 4 "Hi there") (chat_input "Hello") ]
                    empty_world).
  split; [eexists; reflexivity | split; reflexivity].
Qed.

(* ===================================================================== *)
(** * Further properties *)
(* ===================================================================== *)

(** ** The Message table as an append-only log *)

Lemma sort_by_sorted_id {A} (le : A -> A -> bool) (l : list A) :
  StronglySorted (fun a b => le a b = true) l -> sort_by le l = l.
Proof.
  induction 1 as [|x l Hs IH Hx]; simpl; [reflexivity|].
  rewrite IH. destruct l as [|y l]; [reflexivity|].
  simpl. inversion Hx as [|? ? Hxy _]; subst. rewrite Hxy. reflexivity.
Qed.

Lemma message_wf_frame (w w' : World) :
  message_wf w ->
  Messages w' = Messages w -> Message_seq w' = Message_seq w ->
  clock w <= clock w' ->
  message_wf w'.
Proof.
  intros (Hid & Hinc & Hold & Hnf) Hm Hs Hc.
  unfold message_wf, no_future. rewrite Hm, Hs.
  repeat split; try assumption.
  eapply Forall_impl; [|exact Hnf]. intros m Hle. simpl in Hle. lia.
Qed.

Lemma insert_Message_message_wf (r : Role) (c : string) (w : World) :
  message_wf w -> message_wf (fst (insert_Message r c w)).
Proof.
  intros (Hid & Hinc & Hold & Hnf).
  rewrite insert_Message_spec. unfold message_wf, no_future, oldest_first.
  cbn [fst Messages Message_seq clock].
  split; [|split; [|split]].
  - apply Forall_app. split.
    + eapply Forall_impl; [|exact Hid]. intros m Hm. simpl in Hm. lia.
    + repeat constructor. unfold new_row. simpl. lia.
  - apply StronglySorted_snoc; [exact Hinc|].
    eapply Forall_impl; [|exact Hid]. intros m Hm. unfold new_row. simpl. exact Hm.
  - apply StronglySorted_snoc; [exact Hold|].
    eapply Forall_impl; [|exact Hnf]. intros m Hm. unfold new_row. simpl. exact Hm.
  - apply Forall_app. split; [exact Hnf|].
    repeat constructor. unfold new_row. simpl. lia.
Qed.

Lemma agent_step_message_wf (w w' : World) :
  agent_step w w' -> message_wf w -> message_wf w'.
Proof.
  intros (Hm & Hs & Hc & _) Hwf. apply (message_wf_frame w); assumption.
Qed.

Lemma entity_step_message_wf (w w' : World) :
  entity_step w w' -> message_wf w -> message_wf w'.
Proof.
  intros (Hm & Hs & Hc & _) Hwf. apply (message_wf_frame w); try assumption. lia.
Qed.

Lemma userRouter_update_frame `{Zod} (input : JsValue) (w : World) :
  entity_step w (fst (userRouter.update input w)).
Proof.
  unfold userRouter.update, procedure.
  destruct (userRouter.update_schema input) as [[i data]|];
    [|apply entity_step_refl].
  unfold userRouter.update_User. cbv zeta.
  destruct (negb _ && out_of_range i); [apply entity_step_refl|].
  destruct (match userRouter.set_email data with Some _ => _ | None => _ end);
    repeat split.
Qed.

Lemma postRouter_update_frame (input : JsValue) (w : World) :
  entity_step w (fst (postRouter.update input w)).
Proof.
  unfold postRouter.update, procedure.
  destruct (postRouter.update_schema input) as [[i data]|];
    [|apply entity_step_refl].
  unfold postRouter.update_Post. cbv zeta.
  destruct (_ || _); [apply entity_step_refl|].
  destruct (match postRouter.set_userId data with Some _ => _ | None => _ end);
    repeat split.
Qed.

Lemma postRouter_getById_pure (input : JsValue) (w : World) :
  fst (postRouter.getById input w) = w.
Proof.
  unfold postRouter.getById, procedure.
  destruct (userRouter.id_schema "id" input); [|reflexivity].
  destruct (find _ _); [reflexivity|].
  destruct (out_of_range _); reflexivity.
Qed.

Lemma serve_message_wf `{Zod} (rq : Request) (w : World) :
  message_wf w -> message_wf (serve rq w).
Proof.
  intros Hwf. destruct rq as [model input | agent input | executor input
                              | | | input | input | d]; simpl.
  - destruct (chatRouter.input_schema input) as [inp|] eqn:Hs.
    + rewrite (sendChat_run model input inp w Hs). cbv zeta.
      pose proof (insert_Message_message_wf user (chatRouter.content inp) w Hwf)
        as H1.
      fold (after_user_turn (chatRouter.content inp) w) in H1.
      assert (H2 : forall e d, message_wf
                     (with_call e d (after_user_turn (chatRouter.content inp) w))).
      { intros e d. eapply message_wf_frame; [exact H1 | | |]; simpl;
          try reflexivity; lia. }
      destruct (outcome _); cbn [fst].
      * apply H2.
      * apply (insert_Message_message_wf assistant), H2.
    + unfold chatRouter.sendChat. rewrite procedure_rejects by exact Hs.
      exact Hwf.
  - destruct (agentRouter.input_schema input) as [message|] eqn:Hs.
    + rewrite (agent_chat_run agent input message w Hs). cbv zeta.
      pose proof (insert_Message_message_wf user message w Hwf) as H1.
      fold (after_user_turn message w) in H1.
      match goal with |- context [run_agent agent_tools ?r ?w0] =>
        pose proof (agent_run_frame r w0) as Hstep;
        fold agent_tools in Hstep;
        assert (H2 : message_wf (fst (run_agent agent_tools r w0)))
          by (apply (agent_step_message_wf w0); [exact Hstep | exact H1]);
        destruct (run_agent agent_tools r w0) as [w2 [result|e]]
      end; cbn [fst] in H2 |- *.
      * apply (insert_Message_message_wf assistant), H2.
      * exact H2.
    + unfold agentRouter.chat. rewrite procedure_rejects by exact Hs.
      exact Hwf.
  - destruct (agentRouter.input_schema input) as [message|] eqn:Hs.
    + rewrite (executor_chat_run executor input message w Hs). cbv zeta.
      pose proof (insert_Message_message_wf user message w Hwf) as H1.
      fold (after_user_turn message w) in H1.
      match goal with |- context [run_agent agent_tools ?r ?w0] =>
        pose proof (agent_run_frame r w0) as Hstep;
        fold agent_tools in Hstep;
        assert (H2 : message_wf (fst (run_agent agent_tools r w0)))
          by (apply (agent_step_message_wf w0); [exact Hstep | exact H1]);
        destruct (run_agent agent_tools r w0) as [w2 [result|e]]
      end; cbn [fst] in H2 |- *.
      * apply (insert_Message_message_wf assistant), H2.
      * exact H2.
    + unfold executorAgentRouter.chat. rewrite procedure_rejects by exact Hs.
      exact Hwf.
  - exact Hwf.
  - destruct Hwf as (Hid & Hinc & Hold & Hnf).
    repeat split; constructor.
  - apply (entity_step_message_wf w); [apply userRouter_create_frame | exact Hwf].
  - apply (entity_step_message_wf w); [apply postRouter_create_frame | exact Hwf].
  - apply (agent_step_message_wf w); [apply sleep_agent_step | exact Hwf].
Qed.

Lemma perform_message_wf `{Zod} (c : Call) (w : World) :
  message_wf w -> message_wf (perform c w).
Proof.
  intros Hwf. destruct c as [rq | input | input | | | input | input | input | input];
    simpl.
  - apply serve_message_wf, Hwf.
  - apply (entity_step_message_wf w); [apply userRouter_update_frame | exact Hwf].
  - rewrite userRouter_getById_pure. exact Hwf.
  - exact Hwf.
  - exact Hwf.
  - apply (entity_step_message_wf w); [apply postRouter_update_frame | exact Hwf].
  - rewrite postRouter_getById_pure. exact Hwf.
  - rewrite postRouter_list_pure. exact Hwf.
  - rewrite postRouter_listByUser_pure. exact Hwf.
Qed.

Lemma empty_world_message_wf : message_wf empty_world.
Proof. repeat split; constructor. Qed.

(** X1. Whatever sequence of procedures runs from the empty store, the
    Message table keeps its shape: ids strictly increase along the table
    and stay below the identity sequence (clearMessages does not reset it),
    createdAt never decreases along the table and no row is stamped in the
    future. *)
Theorem message_table_invariant `{Zod} (cs : list Call) :
  message_wf (perform_all cs empty_world).
Proof.
  unfold perform_all.
  assert (Hgen : forall w0, message_wf w0 ->
                   message_wf (fold_left (fun w' c => perform c w') cs w0)).
  { induction cs as [|c cs IH]; intros w0 H0; simpl.
    - exact H0.
    - apply IH, perform_message_wf, H0. }
  apply Hgen, empty_world_message_wf.
Qed.

Lemma strictly_sorted_keys_NoDup {A} (key : A -> Z) (l : list A) :
  StronglySorted (fun a b => key a < key b) l -> NoDup (map key l).
Proof.
  induction 1 as [|x l Hs IH Hx]; simpl; constructor; [|exact IH].
  intros Hin. apply in_map_iff in Hin. destruct Hin as (y & Hk & Hy).
  rewrite Forall_forall in Hx. specialize (Hx y Hy). lia.
Qed.

(** X2. On a Message table along which createdAt strictly increases, so
    that no two rows share a timestamp, getMessages returns the rows in
    the very order they were inserted, and the table itself is the only
    oldest-first arrangement of its rows. *)
Theorem getMessages_returns_insertion_order (w : World) :
  strictly_chronological w ->
  chatRouter.getMessages w = (w, Returned (Messages w)) /\
  agentRouter.getMessages w = (w, Returned (Messages w)) /\
  executorAgentRouter.getMessages w = (w, Returned (Messages w)) /\
  (forall l, oldest_first_read (Messages w) l -> l = Messages w).
Proof.
  intros Hstrict.
  assert (Hold : oldest_first (Messages w)).
  { eapply StronglySorted_weaken; [|exact Hstrict].
    intros a b Hab. simpl in Hab. lia. }
  assert (E : orderBy (asc Message.createdAt) (Messages w) = Messages w).
  { apply sort_by_sorted_id.
    eapply StronglySorted_weaken; [|exact Hold].
    intros a b Hab. unfold asc. apply Z.leb_le. exact Hab. }
  unfold chatRouter.getMessages, agentRouter.getMessages,
    executorAgentRouter.getMessages, select_Message_all.
  rewrite E. repeat split.
  intros l [HP Hl].
  apply (sorted_perm_unique
           (fun a b => Message.createdAt a <= Message.createdAt b));
    [| exact Hl | exact Hold | exact HP].
  intros x y Hx Hy Hxy Hyx.
  apply (NoDup_map_injective Message.createdAt (Messages w)).
  - apply strictly_sorted_keys_NoDup. exact Hstrict.
  - eapply Permutation_in; [exact HP | exact Hx].
  - eapply Permutation_in; [exact HP | exact Hy].
  - lia.
Qed.

Lemma getMessages_returns_insertion_order_witness :
  strictly_chronological two_turn_world /\
  chatRouter.getMessages two_turn_world
  = (two_turn_world, Returned (Messages two_turn_world)).
Proof.
  assert (Hs : strictly_chronological two_turn_world).
  { unfold strictly_chronological, two_turn_world. simpl.
    repeat constructor; simpl; lia. }
  split; [exact Hs|].
  exact (proj1 (getMessages_returns_insertion_order two_turn_world Hs)).
Defined.

(** ** A chat that succeeds *)




(** ** Chatting after a clear *)



(** ** How much history the model sees *)

(** X5. When every stored row is older than the clock, the window of a
    chat is the nine most recent earlier rows, oldest first, followed by
    the user turn just stored: the current message takes one of the ten
    places. *)
Theorem window_is_nine_earlier_rows_and_current (c : string) (w : World) :
  Forall (fun m => Message.createdAt m < clock w) (Messages w) ->
  context_window (after_user_turn c w) = rev (recent 9 w) ++ [new_row user c w] /\
  chat_history (after_user_turn c w)
  = map to_chat_message (rev (recent 9 w)) ++ [(user, c)] /\
  (List.length (chat_history (after_user_turn c w))
   = Nat.min 9 (List.length (Messages w)) + 1)%nat.
Proof.
  intros Hlt.
  assert (E : context_window (after_user_turn c w)
              = rev (recent 9 w) ++ [new_row user c w]).
  { unfold context_window.
    rewrite (recent_after_strictly_newer_turn 9 c w Hlt). reflexivity. }
  split; [exact E|].
  unfold chat_history. rewrite E, map_app. split; [reflexivity|].
  rewrite length_app, length_map, length_rev. simpl.
  unfold recent, limit, orderBy. rewrite length_firstn, sort_by_length.
  reflexivity.
Qed.

Lemma window_is_nine_earlier_rows_and_current_witness :
  Forall (fun m => Message.createdAt m < clock two_turn_world)
         (Messages two_turn_world) /\
  chat_history (after_user_turn "Why?" two_turn_world)
  = map to_chat_message (rev (recent 9 two_turn_world)) ++ [(user, "Why?"%string)].
Proof.
  assert (Hlt : Forall (fun m => Message.createdAt m < clock two_turn_world)
                       (Messages two_turn_world)).
  { unfold two_turn_world. simpl. repeat constructor; simpl; lia. }
  split; [exact Hlt|].
  exact (proj1 (proj2 (window_is_nine_earlier_rows_and_current
                         "Why?" two_turn_world Hlt))).
Defined.

(** ** What each side leaves alone *)

(** X6. sendChat never touches the User and Post tables or their
    sequences, whatever the input and whatever the model does, and it calls
    the model at most once. *)
Theorem sendChat_leaves_entities_alone (model : GenerateText) (input : JsValue)
    (w : World) :
  let w' := fst (chatRouter.sendChat model input w) in
  Users w' = Users w /\ User_seq w' = User_seq w /\
  Posts w' = Posts w /\ Post_seq w' = Post_seq w /\
  (trace w' = trace w \/
   exists system messages,
     trace w' = GenerateTextCall system messages :: trace w).
Proof.
  cbv zeta. destruct (chatRouter.input_schema input) as [inp|] eqn:Hs.
  - rewrite (sendChat_run model input inp w Hs). cbv zeta.
    destruct (outcome _); cbn; repeat split; right; eauto.
  - unfold chatRouter.sendChat. rewrite procedure_rejects by exact Hs.
    repeat split. left. reflexivity.
Qed.

(** X7. No tool adapter and no agent run touches the Message table: a
    tool leaves the rows, the id sequence, the clock and the trace as they
    were, and after a whole run, however many tools it called, the rows
    and the sequence are unchanged. *)
Theorem agent_runs_leave_messages_alone `{Zod} :
  (forall t args w,
      In t agent_tools ->
      let w' := fst (invoke_tool t args w) in
      Messages w' = Messages w /\ Message_seq w' = Message_seq w /\
      clock w' = clock w /\ trace w' = trace w) /\
  (forall (R : Type) (run : AgentRun R) w,
      let w' := fst (run_agent agent_tools run w) in
      Messages w' = Messages w /\ Message_seq w' = Message_seq w /\
      clock w <= clock w').
Proof.
  split.
  - intros t args w Hin. exact (invoke_tool_frame t args w Hin).
  - intros R run w.
    destruct (agent_run_frame run w) as (Hm & Hs & Hc & _).
    repeat split; assumption.
Qed.

Lemma agent_runs_leave_messages_alone_witness :
  Messages (fst (invoke_tool createPostTool
                   (JsObject [("userId", JsNumber 1); ("title", JsString "T");
                              ("content", JsString "C")])
                   two_turn_world))
  = Messages two_turn_world.
Proof.
  apply (proj1 (@agent_runs_leave_messages_alone sample_zod)).
  simpl. tauto.
Defined.

(** ** The User and Post tables *)

Lemma entity_wf_ext (w w' : World) :
  Users w' = Users w -> User_seq w' = User_seq w ->
  Posts w' = Posts w -> Post_seq w' = Post_seq w ->
  entity_wf w -> entity_wf w'.
Proof.
  unfold entity_wf. intros -> -> -> ->. tauto.
Qed.

Lemma existsb_false_iff {A} (f : A -> bool) (l : list A) :
  existsb f l = false <-> forall x, In x l -> f x = false.
Proof.
  induction l as [|a l IH]; simpl.
  - split; [intros _ x [] | reflexivity].
  - rewrite orb_false_iff, IH. split.
    + intros [Ha Hl] x [<-|Hx]; [exact Ha | apply Hl, Hx].
    + intros Hall. split; [apply Hall; left; reflexivity|].
      intros x Hx. apply Hall. right. exact Hx.
Qed.

Lemma existsb_app_one {A} (f : A -> bool) (l : list A) (x : A) :
  existsb f l = true -> existsb f (l ++ [x]) = true.
Proof. intros Hl. rewrite existsb_app, Hl. reflexivity. Qed.

Lemma NoDup_snoc {A} (l : list A) (x : A) :
  NoDup l -> ~ In x l -> NoDup (l ++ [x]).
Proof.
  intros Hl Hx. apply NoDup_app; [exact Hl | repeat constructor; intros [] |].
  intros a Ha [<-|[]]. contradiction.
Qed.

Lemma insert_User_entity_wf (input : userRouter.create_input) (w : World) :
  entity_wf w -> entity_wf (fst (userRouter.insert_User input w)).
Proof.
  intros Hwf. unfold userRouter.insert_User.
  destruct (int4_max <? User_seq w); [exact Hwf|].
  destruct Hwf as (Hus & Hps & Hu & Hnid & Hnem & Hp & Hnpid & Hfk).
  destruct (existsb _ (Users w)) eqn:Edup.
  { unfold entity_wf. cbn [fst Users User_seq Posts Post_seq set_Users].
    split; [lia|]. split; [exact Hps|]. split; [|tauto].
    eapply Forall_impl; [|exact Hu]. intros u Hlt. simpl in Hlt. lia. }
  unfold entity_wf. cbn [fst Users User_seq Posts Post_seq set_Users].
  split; [lia|]. split; [exact Hps|]. split; [|split; [|split; [|split; [|split]]]].
  - apply Forall_app. split.
    + eapply Forall_impl; [|exact Hu]. intros u Hlt. simpl in Hlt. lia.
    + repeat constructor; simpl; lia.
  - rewrite map_app. simpl. apply NoDup_snoc; [exact Hnid|].
    intros Hin. apply in_map_iff in Hin. destruct Hin as (u & Hid & Hin).
    rewrite Forall_forall in Hu. specialize (Hu u Hin). simpl in Hu. lia.
  - rewrite map_app. simpl. apply NoDup_snoc; [exact Hnem|].
    intros Hin. apply in_map_iff in Hin. destruct Hin as (u & Hem & Hin).
    rewrite existsb_false_iff in Edup. specialize (Edup u Hin).
    rewrite Hem, String.eqb_refl in Edup. discriminate.
  - exact Hp.
  - exact Hnpid.
  - eapply Forall_impl; [|exact Hfk]. intros p Hex.
    apply existsb_app_one. exact Hex.
Qed.

Lemma insert_Post_entity_wf (input : postRouter.create_input) (w : World) :
  entity_wf w -> entity_wf (fst (postRouter.insert_Post input w)).
Proof.
  intros Hwf. unfold postRouter.insert_Post. cbv zeta.
  destruct (negb _ && out_of_range _); [exact Hwf|].
  destruct (int4_max <? Post_seq w); [exact Hwf|].
  destruct Hwf as (Hus & Hps & Hu & Hnid & Hnem & Hp & Hnpid & Hfk).
  destruct (existsb _ (Users w)) eqn:Efk.
  2:{ unfold entity_wf. cbn [fst Users User_seq Posts Post_seq set_Posts].
      split; [exact Hus|]. split; [lia|].
      split; [exact Hu|]. split; [exact Hnid|]. split; [exact Hnem|].
      split; [|tauto].
      eapply Forall_impl; [|exact Hp]. intros p Hlt. simpl in Hlt. lia. }
  unfold entity_wf. cbn [fst Users User_seq Posts Post_seq set_Posts].
  split; [exact Hus|]. split; [lia|].
  split; [exact Hu|]. split; [exact Hnid|]. split; [exact Hnem|].
  split; [|split].
  - apply Forall_app. split.
    + eapply Forall_impl; [|exact Hp]. intros p Hlt. simpl in Hlt. lia.
    + repeat constructor; simpl; lia.
  - rewrite map_app. simpl. apply NoDup_snoc; [exact Hnpid|].
    intros Hin. apply in_map_iff in Hin. destruct Hin as (p & Hid & Hin).
    rewrite Forall_forall in Hp. specialize (Hp p Hin). simpl in Hp. lia.
  - apply Forall_app. split; [exact Hfk|].
    repeat constructor. simpl. exact Efk.
Qed.

(** Rewriting rows in place without changing their ids. *)
Section InPlace.
Context {A : Type} (key : A -> Z) (f : A -> A) (i : Z).
Hypothesis f_keeps_key : forall x, key (f x) = key x.

Let g (x : A) : A := if key x =? i then f x else x.

Lemma in_place_keys (l : list A) : map key (map g l) = map key l.
Proof.
  rewrite map_map. apply map_ext. intros x. unfold g.
  destruct (key x =? i); [apply f_keeps_key | reflexivity].
Qed.

Lemma in_place_miss (l : list A) :
  existsb (fun x => key x =? i) l = false -> map g l = l.
Proof.
  intros Hmiss. rewrite existsb_false_iff in Hmiss.
  rewrite <- (map_id l) at 2. apply map_ext_in. intros x Hx.
  unfold g. rewrite (Hmiss x Hx). reflexivity.
Qed.

Lemma in_place_existsb (k : Z) (l : list A) :
  existsb (fun x => key x =? k) (map g l) = existsb (fun x => key x =? k) l.
Proof.
  induction l as [|x l IH]; simpl; [reflexivity|].
  rewrite IH. f_equal. unfold g.
  destruct (key x =? i); [rewrite f_keeps_key|]; reflexivity.
Qed.

Lemma in_place_Forall (P : A -> Prop) (l : list A) :
  (forall x, P x -> P (f x)) -> Forall P l -> Forall P (map g l).
Proof.
  intros HP Hl. apply Forall_map. eapply Forall_impl; [|exact Hl].
  intros x Hx. unfold g. destruct (key x =? i); [apply HP, Hx | exact Hx].
Qed.

(** A second column stays free of repeats when the one rewritten row
    takes a value no other row holds. *)
Lemma in_place_unique {B} (col : A -> B) (l : list A) :
  NoDup (map key l) -> NoDup (map col l) ->
  (forall x y, In x l -> In y l -> key x = i -> key y <> i ->
               col (f x) <> col y) ->
  NoDup (map col (map g l)).
Proof.
  induction l as [|a l IH]; simpl; intros Hk Hc Hfree; [constructor|].
  inversion Hk as [|? ? Hka Hk']; subst.
  inversion Hc as [|? ? Hca Hc']; subst.
  constructor.
  - intros Hin. apply in_map_iff in Hin. destruct Hin as (y' & Hy' & Hin').
    apply in_map_iff in Hin'. destruct Hin' as (y & <- & Hy).
    unfold g in Hy'.
    destruct (key a =? i) eqn:Ea, (key y =? i) eqn:Ey.
    + apply Z.eqb_eq in Ea, Ey. apply Hka. rewrite Ea, <- Ey.
      apply in_map, Hy.
    + apply Z.eqb_eq in Ea. apply Z.eqb_neq in Ey.
      apply (Hfree a y); auto.
    + apply Z.eqb_neq in Ea. apply Z.eqb_eq in Ey.
      apply (Hfree y a); auto.
    + apply Hca. rewrite <- Hy'. apply in_map, Hy.
  - apply IH; try assumption.
    intros x y Hx Hy. apply Hfree; right; assumption.
Qed.
End InPlace.

Lemma update_User_entity_wf (input : Z * userRouter.update_data) (w : World) :
  entity_wf w -> entity_wf (fst (userRouter.update_User input w)).
Proof.
  intros Hwf. destruct input as [i data]. unfold userRouter.update_User.
  cbv zeta. destruct (negb _ && out_of_range i); [exact Hwf|].
  destruct (match userRouter.set_email data with Some _ => _ | None => _ end)
    eqn:Eclash; [exact Hwf|].
  destruct Hwf as (Hus & Hps & Hu & Hnid & Hnem & Hp & Hnpid & Hfk).
  unfold entity_wf. cbn [fst Users User_seq Posts Post_seq set_Users].
  assert (Hkeep : forall u, User.id (userRouter.apply_data data (clock w) u)
                            = User.id u) by reflexivity.
  split; [exact Hus|]. split; [exact Hps|].
  split; [|split; [|split; [|split; [|split]]]].
  - apply (in_place_Forall User.id); [|exact Hu]. intros u Hlt. exact Hlt.
  - rewrite (in_place_keys User.id _ i Hkeep). exact Hnid.
  - destruct (userRouter.set_email data) as [e|] eqn:Ee.
    + destruct (existsb (fun u => User.id u =? i) (Users w)) eqn:Ehit.
      * simpl in Eclash. rewrite existsb_false_iff in Eclash.
        apply (in_place_unique User.id _ i User.email);
          [exact Hnid | exact Hnem |].
        intros x y Hx Hy Hxi Hyi. unfold userRouter.apply_data. rewrite Ee.
        simpl. specialize (Eclash y Hy). apply andb_false_iff in Eclash.
        destruct Eclash as [Hc|Hc].
        -- apply negb_false_iff, Z.eqb_eq in Hc. contradiction.
        -- apply String.eqb_neq in Hc. congruence.
      * rewrite (in_place_miss User.id _ i _ Ehit). exact Hnem.
    + replace (map User.email (map _ (Users w))) with (map User.email (Users w));
        [exact Hnem|].
      rewrite map_map. apply map_ext. intros u.
      destruct (User.id u =? i); [|reflexivity].
      unfold userRouter.apply_data. rewrite Ee. reflexivity.
  - exact Hp.
  - exact Hnpid.
  - eapply Forall_impl; [|exact Hfk]. intros p Hex.
    rewrite (in_place_existsb User.id _ i Hkeep). exact Hex.
Qed.

Lemma update_Post_entity_wf (input : Z * postRouter.update_data) (w : World) :
  entity_wf w -> entity_wf (fst (postRouter.update_Post input w)).
Proof.
  intros Hwf. destruct input as [i data]. unfold postRouter.update_Post.
  cbv zeta. destruct (_ || _); [exact Hwf|].
  destruct (match postRouter.set_userId data with Some _ => _ | None => _ end)
    eqn:Eorphan; [exact Hwf|].
  destruct Hwf as (Hus & Hps & Hu & Hnid & Hnem & Hp & Hnpid & Hfk).
  unfold entity_wf. cbn [fst Users User_seq Posts Post_seq set_Posts].
  assert (Hkeep : forall p, Post.id (postRouter.apply_data data (clock w) p)
                            = Post.id p) by reflexivity.
  split; [exact Hus|]. split; [exact Hps|].
  split; [exact Hu|]. split; [exact Hnid|]. split; [exact Hnem|].
  split; [|split].
  - apply (in_place_Forall Post.id); [|exact Hp]. intros p Hlt. exact Hlt.
  - rewrite (in_place_keys Post.id _ i Hkeep). exact Hnpid.
  - destruct (existsb (fun p => Post.id p =? i) (Posts w)) eqn:Ehit.
    + apply (in_place_Forall Post.id); [|exact Hfk].
      intros p Hex. unfold postRouter.apply_data.
      destruct (postRouter.set_userId data) as [u|]; [|exact Hex].
      simpl in Eorphan |- *. apply negb_false_iff in Eorphan. exact Eorphan.
    + rewrite (in_place_miss Post.id _ i _ Ehit). exact Hfk.
Qed.

Lemma procedure_keeps {A B} (P : World -> Prop) (sch : Schema A)
    (resolver : A -> M B) (input : JsValue) (w : World) :
  (forall a, P w -> P (fst (resolver a w))) ->
  P w -> P (fst (procedure sch resolver input w)).
Proof.
  intros Hres Hw. unfold procedure. destruct (sch input) as [a|].
  - apply Hres, Hw.
  - exact Hw.
Qed.

Lemma bind_keeps {A B} (P : World -> Prop) (c : M A) (k : A -> M B) (w : World) :
  P (fst (c w)) -> (forall a w', P w' -> P (fst (k a w'))) ->
  P (fst (bind c k w)).
Proof.
  unfold bind. intros Hc Hk. destruct (c w) as [w1 [a|e]]; simpl in *.
  - apply Hk, Hc.
  - exact Hc.
Qed.

(** A property of the User and Post tables and their sequences that the
    four statements writing to them keep is kept by every procedure, agent
    runs with their tool calls included. *)
Section Keeps.
Context `{Zod}.
Variable P : World -> Prop.
Hypothesis P_ext :
  forall w w', Users w' = Users w -> User_seq w' = User_seq w ->
               Posts w' = Posts w -> Post_seq w' = Post_seq w -> P w -> P w'.
Hypothesis P_insert_User :
  forall i w, P w -> P (fst (userRouter.insert_User i w)).
Hypothesis P_insert_Post :
  forall i w, P w -> P (fst (postRouter.insert_Post i w)).
Hypothesis P_update_User :
  forall i w, P w -> P (fst (userRouter.update_User i w)).
Hypothesis P_update_Post :
  forall i w, P w -> P (fst (postRouter.update_Post i w)).

Lemma invoke_tool_keeps (t : DynamicStructuredTool) (args : JsValue)
    (w : World) :
  In t agent_tools -> P w -> P (fst (invoke_tool t args w)).
Proof.
  intros Hin Hwf. unfold invoke_tool. unfold agent_tools in Hin. simpl in Hin.
  repeat (destruct Hin as [<-|Hin]); [ .. | contradiction];
    unfold createUserTool, getUserTool, listUsersTool, countUsersTool,
      createPostTool, getPostsByUserTool, listPostsTool;
    cbn [schema func Input];
    match goal with
    | |- context [match ?s with Some _ => _ | None => _ end] =>
        destruct s as [i|]; [|exact Hwf]
    end.
  - destruct i as [[n e] b]. apply bind_keeps; [|intros; assumption].
    unfold userRouter.create. apply procedure_keeps; [|exact Hwf]. intros a _.
    apply P_insert_User, Hwf.
  - apply bind_keeps; [|intros [[u ps]|] w' Hw'; exact Hw'].
    rewrite userRouter_getById_pure. exact Hwf.
  - apply bind_keeps; [exact Hwf|].
    intros a w' Hw'. destruct (_ =? 0); exact Hw'.
  - apply bind_keeps; [exact Hwf | intros; assumption].
  - destruct i as [[[u t] c] p]. apply bind_keeps; [|intros; assumption].
    unfold postRouter.create. apply procedure_keeps; [|exact Hwf]. intros a _.
    apply P_insert_Post, Hwf.
  - apply bind_keeps; [|intros a w' Hw'; destruct (_ =? 0); exact Hw'].
    rewrite postRouter_listByUser_pure. exact Hwf.
  - apply bind_keeps; [|intros a w' Hw'; destruct (_ =? 0); exact Hw'].
    rewrite postRouter_list_pure. exact Hwf.
Qed.

Lemma run_agent_keeps {R} (run : AgentRun R) (w : World) :
  P w -> P (fst (run_agent agent_tools run w)).
Proof.
  revert w. induction run as [d result | d cause | d nm args k IH]; intros w Hwf.
  - simpl. eapply P_ext; [| | | |exact Hwf]; reflexivity.
  - simpl. eapply P_ext; [| | | |exact Hwf]; reflexivity.
  - simpl. unfold bind at 1. simpl.
    unfold call_tool. destruct (find_tool nm agent_tools) as [t|] eqn:Ef.
    + apply find_tool_In in Ef. unfold bind at 1. unfold emit.
      match goal with |- context [invoke_tool t args ?w0] =>
        assert (H0 : P w0)
          by (eapply P_ext; [| | | |exact Hwf]; reflexivity);
        pose proof (invoke_tool_keeps t args w0 Ef H0) as H1;
        destruct (invoke_tool t args w0) as [w1 [text|e]]
      end; simpl in H1; apply IH, H1.
    + apply IH. eapply P_ext; [| | | |exact Hwf]; reflexivity.
Qed.

Lemma insert_Message_keeps (r : Role) (c : string) (w : World) :
  P w -> P (fst (insert_Message r c w)).
Proof. apply P_ext; reflexivity. Qed.

Lemma serve_keeps (rq : Request) (w : World) : P w -> P (serve rq w).
Proof.
  intros Hwf. destruct rq as [model input | agent input | executor input
                              | | | input | input | d]; simpl.
  - destruct (chatRouter.input_schema input) as [inp|] eqn:Hs.
    + rewrite (sendChat_run model input inp w Hs). cbv zeta.
      destruct (outcome _); cbn [fst];
        (eapply P_ext; [| | | |exact Hwf]; reflexivity).
    + unfold chatRouter.sendChat. rewrite procedure_rejects by exact Hs.
      exact Hwf.
  - destruct (agentRouter.input_schema input) as [message|] eqn:Hs.
    + rewrite (agent_chat_run agent input message w Hs). cbv zeta.
      match goal with |- context [run_agent agent_tools ?r ?w0] =>
        assert (H0 : P w0)
          by (eapply P_ext; [| | | |exact Hwf]; reflexivity);
        pose proof (run_agent_keeps r w0 H0) as H2;
        destruct (run_agent agent_tools r w0) as [w2 [result|e]]
      end; cbn [fst] in H2 |- *.
      * apply insert_Message_keeps, H2.
      * exact H2.
    + unfold agentRouter.chat. rewrite procedure_rejects by exact Hs.
      exact Hwf.
  - destruct (agentRouter.input_schema input) as [message|] eqn:Hs.
    + rewrite (executor_chat_run executor input message w Hs). cbv zeta.
      match goal with |- context [run_agent agent_tools ?r ?w0] =>
        assert (H0 : P w0)
          by (eapply P_ext; [| | | |exact Hwf]; reflexivity);
        pose proof (run_agent_keeps r w0 H0) as H2;
        destruct (run_agent agent_tools r w0) as [w2 [result|e]]
      end; cbn [fst] in H2 |- *.
      * apply insert_Message_keeps, H2.
      * exact H2.
    + unfold executorAgentRouter.chat. rewrite procedure_rejects by exact Hs.
      exact Hwf.
  - exact Hwf.
  - eapply P_ext; [| | | |exact Hwf]; reflexivity.
  - unfold userRouter.create. apply procedure_keeps; [|exact Hwf].
    intros a _. apply P_insert_User, Hwf.
  - unfold postRouter.create. apply procedure_keeps; [|exact Hwf].
    intros a _. apply P_insert_Post, Hwf.
  - eapply P_ext; [| | | |exact Hwf]; reflexivity.
Qed.

Lemma perform_keeps (c : Call) (w : World) : P w -> P (perform c w).
Proof.
  intros Hwf. destruct c as [rq | input | input | | | input | input | input | input];
    simpl.
  - apply serve_keeps, Hwf.
  - unfold userRouter.update. apply procedure_keeps; [|exact Hwf].
    intros a _. apply P_update_User, Hwf.
  - rewrite userRouter_getById_pure. exact Hwf.
  - exact Hwf.
  - exact Hwf.
  - unfold postRouter.update. apply procedure_keeps; [|exact Hwf].
    intros a _. apply P_update_Post, Hwf.
  - rewrite postRouter_getById_pure. exact Hwf.
  - rewrite postRouter_list_pure. exact Hwf.
  - rewrite postRouter_listByUser_pure. exact Hwf.
Qed.

Lemma perform_all_keeps (cs : list Call) (w : World) :
  P w -> P (perform_all cs w).
Proof.
  unfold perform_all. revert w.
  induction cs as [|c cs IH]; intros w Hw; simpl.
  - exact Hw.
  - apply IH, perform_keeps, Hw.
Qed.
End Keeps.

Lemma perform_entity_wf `{Zod} (c : Call) (w : World) :
  entity_wf w -> entity_wf (perform c w).
Proof.
  apply perform_keeps.
  - apply entity_wf_ext.
  - apply insert_User_entity_wf.
  - apply insert_Post_entity_wf.
  - apply update_User_entity_wf.
  - apply update_Post_entity_wf.
Qed.

Lemma empty_world_entity_wf : entity_wf empty_world.
Proof. unfold entity_wf. simpl. repeat split; try lia; constructor. Qed.

(** X8. Whatever sequence of procedures runs from the empty store, chats
    with tool-calling agents included, the User and Post tables keep their
    constraints: ids are positive, below their sequence and never repeated,
    no two users share an email, and every post's userId is the id of a
    stored user. *)
Theorem entity_tables_invariant `{Zod} (cs : list Call) :
  entity_wf (perform_all cs empty_world).
Proof.
  unfold perform_all.
  assert (Hgen : forall w0, entity_wf w0 ->
                   entity_wf (fold_left (fun w' c => perform c w') cs w0)).
  { induction cs as [|c cs IH]; intros w0 H0; simpl.
    - exact H0.
    - apply IH, perform_entity_wf, H0. }
  apply Hgen, empty_world_entity_wf.
Qed.

(** ** Ids and the range of the integer columns *)

Lemma seqs_fit_ext (w w' : World) :
  Users w' = Users w -> User_seq w' = User_seq w ->
  Posts w' = Posts w -> Post_seq w' = Post_seq w ->
  seqs_fit w -> seqs_fit w'.
Proof. unfold seqs_fit. intros _ -> _ ->. tauto. Qed.

Lemma insert_User_seqs_fit (input : userRouter.create_input) (w : World) :
  seqs_fit w -> seqs_fit (fst (userRouter.insert_User input w)).
Proof.
  intros [Hu Hp]. unfold userRouter.insert_User.
  destruct (int4_max <? User_seq w) eqn:Emax; [split; assumption|].
  apply Z.ltb_ge in Emax.
  destruct (existsb _ (Users w));
    split; cbn [fst User_seq Post_seq set_Users set_Posts];
    try assumption; lia.
Qed.

Lemma insert_Post_seqs_fit (input : postRouter.create_input) (w : World) :
  seqs_fit w -> seqs_fit (fst (postRouter.insert_Post input w)).
Proof.
  intros [Hu Hp]. unfold postRouter.insert_Post. cbv zeta.
  destruct (negb _ && out_of_range _); [split; assumption|].
  destruct (int4_max <? Post_seq w) eqn:Emax; [split; assumption|].
  apply Z.ltb_ge in Emax.
  destruct (existsb _ (Users w));
    split; cbn [fst User_seq Post_seq set_Users set_Posts];
    try assumption; lia.
Qed.

Lemma update_User_seqs_fit (input : Z * userRouter.update_data) (w : World) :
  seqs_fit w -> seqs_fit (fst (userRouter.update_User input w)).
Proof.
  intros Hfit. destruct input as [i data]. unfold userRouter.update_User.
  cbv zeta. destruct (negb _ && out_of_range i); [exact Hfit|].
  destruct (match userRouter.set_email data with Some _ => _ | None => _ end);
    exact Hfit.
Qed.

Lemma update_Post_seqs_fit (input : Z * postRouter.update_data) (w : World) :
  seqs_fit w -> seqs_fit (fst (postRouter.update_Post input w)).
Proof.
  intros Hfit. destruct input as [i data]. unfold postRouter.update_Post.
  cbv zeta. destruct (_ || _); [exact Hfit|].
  destruct (match postRouter.set_userId data with Some _ => _ | None => _ end);
    exact Hfit.
Qed.

(** From the empty store no sequence of procedures takes an identity
    sequence past the first value that no longer fits. *)
Lemma perform_all_seqs_fit `{Zod} (cs : list Call) :
  seqs_fit (perform_all cs empty_world).
Proof.
  apply perform_all_keeps.
  - apply seqs_fit_ext.
  - apply insert_User_seqs_fit.
  - apply insert_Post_seqs_fit.
  - apply update_User_seqs_fit.
  - apply update_Post_seqs_fit.
  - unfold seqs_fit, int4_max. simpl. lia.
Qed.

(** On tables that satisfy their constraints every stored id, and every
    userId of a post, fits the integer column. *)
Lemma stored_ids_fit (w : World) :
  entity_wf w -> seqs_fit w ->
  Forall (fun u => User.id u <= int4_max) (Users w) /\
  Forall (fun p => Post.id p <= int4_max /\ Post.userId p <= int4_max) (Posts w).
Proof.
  intros (_ & _ & Hu & _ & _ & Hp & _ & Hfk) [Hus Hps].
  assert (Husers : Forall (fun u => User.id u <= int4_max) (Users w)).
  { eapply Forall_impl; [|exact Hu]. intros u Hlt. simpl in Hlt. lia. }
  split; [exact Husers|].
  rewrite Forall_forall in Hp, Hfk, Husers |- *. intros p Hin. split.
  - specialize (Hp p Hin). simpl in Hp. lia.
  - specialize (Hfk p Hin). apply existsb_exists in Hfk.
    destruct Hfk as (u & Hu' & Heq). apply Z.eqb_eq in Heq.
    rewrite <- Heq. apply Husers, Hu'.
Qed.

(** So on such tables an id beyond the range is never found, and the
    lookups, which raise on a miss with such an id, raise on every such
    id: the parameter is refused whatever the table holds. *)
Lemma id_beyond_the_range_raises (w : World) (id : Z) :
  entity_wf w -> seqs_fit w -> int4_max < id ->
  userRouter.getById (JsObject [("id", JsNumber id)]) w
  = (w, Thrown (StoreError "value out of range for type integer")) /\
  postRouter.getById (JsObject [("id", JsNumber id)]) w
  = (w, Thrown (StoreError "value out of range for type integer")) /\
  postRouter.listByUser (JsObject [("userId", JsNumber id)]) w
  = (w, Thrown (StoreError "value out of range for type integer")) /\
  (forall data, userRouter.update_User (id, data) w
                = (w, Thrown (StoreError "value out of range for type integer"))) /\
  (forall data, postRouter.update_Post (id, data) w
                = (w, Thrown (StoreError "value out of range for type integer"))).
Proof.
  intros Hwf Hfit Hid.
  destruct (stored_ids_fit w Hwf Hfit) as [Hu Hp].
  rewrite Forall_forall in Hu, Hp.
  assert (Hpos : (0 <? id) = true) by (apply Z.ltb_lt; unfold int4_max in Hid; lia).
  assert (Hr : out_of_range id = true) by (apply Z.ltb_lt; exact Hid).
  assert (Hnu : forall u, In u (Users w) -> (User.id u =? id) = false).
  { intros u Hin. apply Z.eqb_neq. specialize (Hu u Hin). simpl in Hu. lia. }
  assert (Hnp : forall p, In p (Posts w) -> (Post.id p =? id) = false).
  { intros p Hin. apply Z.eqb_neq. destruct (Hp p Hin) as [H1 _]. lia. }
  assert (Hnf : forall p, In p (Posts w) -> (Post.userId p =? id) = false).
  { intros p Hin. apply Z.eqb_neq. destruct (Hp p Hin) as [_ H2]. lia. }
  split; [|split; [|split; [|split]]].
  - unfold userRouter.getById, procedure, userRouter.id_schema.
    cbn [z_is_object prop lookup_field]. rewrite String.eqb_refl.
    unfold z_number_int_positive. rewrite Hpos.
    rewrite (proj2 (find_none_iff _ _) Hnu), Hr. reflexivity.
  - unfold postRouter.getById, procedure, userRouter.id_schema.
    cbn [z_is_object prop lookup_field]. rewrite String.eqb_refl.
    unfold z_number_int_positive. rewrite Hpos.
    rewrite (proj2 (find_none_iff _ _) Hnp), Hr. reflexivity.
  - unfold postRouter.listByUser, procedure, userRouter.id_schema.
    cbn [z_is_object prop lookup_field]. rewrite String.eqb_refl.
    unfold z_number_int_positive. rewrite Hpos. cbv zeta.
    rewrite (proj2 (filter_nil_iff _ _) Hnf), Hr. reflexivity.
  - intros data. unfold userRouter.update_User. cbv zeta.
    rewrite (proj2 (existsb_false_iff _ _) Hnu), Hr. reflexivity.
  - intros data. unfold postRouter.update_Post. cbv zeta.
    rewrite (proj2 (existsb_false_iff _ _) Hnp), Hr. reflexivity.
Qed.

(** ** Creating and finding users and posts *)

Lemma find_snoc {A} (f : A -> bool) (l : list A) (x : A) :
  find f (l ++ [x])
  = match find f l with
    | Some y => Some y
    | None => if f x then Some x else None
    end.
Proof.
  induction l as [|a l IH]; simpl; [reflexivity|].
  destruct (f a); [reflexivity | exact IH].
Qed.

Lemma find_by_unique_key {A} (key : A -> Z) (l : list A) (x : A) :
  NoDup (map key l) -> In x l ->
  find (fun y => key y =? key x) l = Some x.
Proof.
  induction l as [|a l IH]; simpl; intros Hnd Hin; [contradiction|].
  inversion Hnd as [|? ? Hnotin Hnd']; subst.
  destruct Hin as [->|Hin].
  - rewrite Z.eqb_refl. reflexivity.
  - destruct (key a =? key x) eqn:E.
    + apply Z.eqb_eq in E. exfalso. apply Hnotin. rewrite E.
      apply in_map, Hin.
    + apply IH; assumption.
Qed.

Lemma CreateUserSchema_fields `{Zod} (input : JsValue)
    (i : userRouter.create_input) :
  userRouter.CreateUserSchema input = Some i ->
  prop "name" input = JsString (userRouter.name i) /\
  1 <= js_length (userRouter.name i) <= 255 /\
  prop "email" input = JsString (userRouter.email i) /\
  is_email (userRouter.email i) = true /\
  js_length (userRouter.email i) <= 255 /\
  match userRouter.bio i with
  | Some b => prop "bio" input = JsString b /\ js_length b <= 1000
  | None => prop "bio" input = JsUndefined
  end.
Proof.
  unfold userRouter.CreateUserSchema.
  destruct (z_is_object input); [|discriminate].
  destruct (z_max 255 (z_min 1 z_string) (prop "name" input)) as [n|] eqn:En;
    [|discriminate].
  destruct (z_max 255 (z_email z_string) (prop "email" input)) as [e|] eqn:Ee;
    [|discriminate].
  destruct (z_optional (z_max 1000 z_string) (prop "bio" input)) as [b|] eqn:Eb;
    [|discriminate].
  intros [= <-]. simpl.
  apply content_schema_spec in En. destruct En as [Hn Hln].
  unfold z_max, z_email, z_string in Ee.
  destruct (prop "email" input) as [| | | |s| | |] eqn:Ep; try discriminate.
  destruct (is_email s) eqn:Eis; [|discriminate].
  destruct (js_length s <=? 255) eqn:El; [|discriminate].
  injection Ee as <-.
  split; [exact Hn|]. split; [exact Hln|]. split; [reflexivity|].
  split; [exact Eis|]. split; [lia|].
  unfold z_optional, z_max, z_string, option_map in Eb.
  destruct (prop "bio" input) as [| | | |s'| | |]; try discriminate.
  - injection Eb as <-. reflexivity.
  - destruct (js_length s' <=? 1000) eqn:El'; [|discriminate].
    injection Eb as <-. split; [reflexivity | lia].
Qed.

(** X9. A user that create returns is stored and found again: it takes the
    next id of the sequence and the fields of the input, the count grows by
    one, and getById with its id returns that very row with an empty list
    of posts. *)
Theorem created_user_is_found `{Zod} (input : JsValue) (w w1 : World)
    (u : User.row) :
  entity_wf w ->
  userRouter.create input w = (w1, Returned u) ->
  User.id u = User_seq w /\
  prop "name" input = JsString (User.name u) /\
  prop "email" input = JsString (User.email u) /\
  User.createdAt u = clock w /\ User.updatedAt u = clock w /\
  Users w1 = Users w ++ [u] /\
  userRouter.count w1 = (w1, Returned (Z.of_nat (List.length (Users w)) + 1)) /\
  userRouter.getById (JsObject [("id", JsNumber (User.id u))]) w1
  = (w1, Returned (Some (u, []))).
Proof.
  intros Hwf Hc. unfold userRouter.create, procedure in Hc.
  destruct (userRouter.CreateUserSchema input) as [i|] eqn:Hs; [|discriminate].
  apply CreateUserSchema_fields in Hs.
  destruct Hs as (Hn & _ & He & _).
  unfold userRouter.insert_User in Hc.
  destruct (int4_max <? User_seq w); [discriminate|].
  destruct (existsb _ (Users w)) eqn:Edup; [discriminate|].
  injection Hc as <- <-.
  destruct Hwf as (Hus & Hps & Hu & Hnid & Hnem & Hp & Hnpid & Hfk).
  cbn [User.id User.name User.email User.createdAt User.updatedAt].
  repeat split; try assumption.
  - unfold userRouter.count. cbn [Users set_Users].
    rewrite length_app. simpl. f_equal. f_equal. lia.
  - unfold userRouter.getById, procedure, userRouter.id_schema.
    cbn [z_is_object prop lookup_field z_number_int_positive User.id].
    rewrite String.eqb_refl.
    unfold z_number_int_positive.
    apply Z.ltb_lt in Hus. rewrite Hus. cbn [Users Posts set_Users].
    rewrite find_snoc.
    assert (Hnone : find (fun u0 => User.id u0 =? User_seq w) (Users w) = None).
    { apply find_none_iff. intros x Hx. apply Z.eqb_neq.
      rewrite Forall_forall in Hu. specialize (Hu x Hx). simpl in Hu. lia. }
    rewrite Hnone. cbn [User.id]. rewrite Z.eqb_refl.
    assert (Hnoposts : filter (fun p => Post.userId p =? User_seq w) (Posts w) = []).
    { apply filter_nil_iff. intros p Hpin. apply Z.eqb_neq.
      rewrite Forall_forall in Hfk. specialize (Hfk p Hpin).
      apply existsb_exists in Hfk. destruct Hfk as (x & Hx & Heq).
      apply Z.eqb_eq in Heq.
      rewrite Forall_forall in Hu. specialize (Hu x Hx). simpl in Hu. lia. }
    cbn [User.id Posts set_Users]. rewrite Hnoposts. reflexivity.
Qed.

Lemma created_user_is_found_witness :
  entity_wf empty_world /\
  userRouter.getById (JsObject [("id", JsNumber 1)])
    (set_Users [User.mk 1 "Ada" "ada@example.com" None 0 0] 2 empty_world)
  = (set_Users [User.mk 1 "Ada" "ada@example.com" None 0 0] 2 empty_world,
     Returned (Some (User.mk 1 "Ada" "ada@example.com" None 0 0, []))).
Proof.
  split; [exact empty_world_entity_wf|].
  destruct (@created_user_is_found sample_zod
              (JsObject [("name", JsString "Ada");
                         ("email", JsString "ada@example.com")])
              empty_world
              (set_Users [User.mk 1 "Ada" "ada@example.com" None 0 0] 2 empty_world)
              (User.mk 1 "Ada" "ada@example.com" None 0 0)
              empty_world_entity_wf eq_refl)
    as (_ & _ & _ & _ & _ & _ & _ & Hfound).
  exact Hfound.
Defined.

(** X10. The email column stays unique by refusal. create with an email
    some user already holds throws a store error and stores nothing: both
    tables are as they were. The identity sequence has still moved on by
    one, unless it was exhausted, so the id drawn for the refused row is
    never given to a user. update of an existing user to an email another
    user holds throws a store error and leaves the world as it was. *)
Theorem duplicate_email_is_refused `{Zod} :
  (forall input i w u,
      userRouter.CreateUserSchema input = Some i ->
      In u (Users w) -> User.email u = userRouter.email i ->
      exists cause w',
        userRouter.create input w = (w', Thrown (StoreError cause)) /\
        Users w' = Users w /\ Posts w' = Posts w /\ Post_seq w' = Post_seq w /\
        entity_step w w' /\
        (User_seq w <= int4_max -> User_seq w' = User_seq w + 1) /\
        (int4_max < User_seq w -> User_seq w' = User_seq w)) /\
  (forall input id data e w u u',
      userRouter.update_schema input = Some (id, data) ->
      userRouter.set_email data = Some e ->
      In u (Users w) -> User.id u = id ->
      In u' (Users w) -> User.id u' <> id -> User.email u' = e ->
      exists cause,
        userRouter.update input w = (w, Thrown (StoreError cause))).
Proof.
  split.
  - intros input i w u Hs Hin Hem.
    unfold userRouter.create, procedure. rewrite Hs.
    unfold userRouter.insert_User.
    assert (E : existsb (fun u0 => String.eqb (User.email u0) (userRouter.email i))
                        (Users w) = true).
    { apply existsb_exists. exists u. split; [exact Hin|].
      apply String.eqb_eq. exact Hem. }
    rewrite E. destruct (int4_max <? User_seq w) eqn:Emax.
    + apply Z.ltb_lt in Emax. eexists. exists w.
      split; [reflexivity|]. repeat split. intros Hle. lia.
    + apply Z.ltb_ge in Emax. eexists. eexists.
      split; [reflexivity|]. cbn [Users Posts Post_seq User_seq set_Users].
      repeat split. intros Hgt. lia.
  - intros input id data e w u u' Hs He Hin Hid Hin' Hid' Hem.
    unfold userRouter.update, procedure. rewrite Hs.
    unfold userRouter.update_User. rewrite He.
    assert (E1 : existsb (fun u0 => User.id u0 =? id) (Users w) = true).
    { apply existsb_exists. exists u. split; [exact Hin|].
      apply Z.eqb_eq. exact Hid. }
    assert (E2 : existsb (fun u0 => negb (User.id u0 =? id) &&
                                    String.eqb (User.email u0) e) (Users w) = true).
    { apply existsb_exists. exists u'. split; [exact Hin'|].
      apply andb_true_iff. split.
      - apply negb_true_iff, Z.eqb_neq. exact Hid'.
      - apply String.eqb_eq. exact Hem. }
    cbv zeta. rewrite E1, E2. eexists. reflexivity.
Qed.

Lemma blog_world_entity_wf : entity_wf blog_world.
Proof.
  unfold entity_wf, blog_world. simpl.
  repeat split; try lia; repeat constructor; simpl; try lia;
    intuition discriminate.
Qed.

Lemma duplicate_email_is_refused_witness :
  (exists cause w',
      @userRouter.create sample_zod
        (JsObject [("name", JsString "Ada II"); ("email", JsString "ada@example.com")])
        blog_world = (w', Thrown (StoreError cause)) /\
      Users w' = [ada; bob] /\ User_seq w' = 4) /\
  (exists cause,
      @userRouter.update sample_zod
        (JsObject [("id", JsNumber 2);
                   ("data", JsObject [("email", JsString "ada@example.com")])])
        blog_world = (blog_world, Thrown (StoreError cause))).
Proof.
  split.
  - destruct (proj1 (@duplicate_email_is_refused sample_zod)
                (JsObject [("name", JsString "Ada II");
                           ("email", JsString "ada@example.com")])
                (userRouter.mkCreate "Ada II" "ada@example.com" None)
                blog_world ada eq_refl (or_introl eq_refl) eq_refl)
      as (cause & w' & Hc & Hu & _ & _ & _ & Hseq & _).
    exists cause, w'. split; [exact Hc|]. split; [exact Hu|].
    apply Hseq. vm_compute. discriminate.
  - apply (proj2 (@duplicate_email_is_refused sample_zod) _ 2
             (userRouter.mkData None (Some "ada@example.com"%string) None)
             "ada@example.com"%string blog_world bob ada).
    + reflexivity.
    + reflexivity.
    + right. left. reflexivity.
    + reflexivity.
    + left. reflexivity.
    + simpl. lia.
    + reflexivity.
Defined.

(** X11. A post needs its user. create for a userId no user has throws a
    store error and stores nothing: both tables are as they were; when the
    userId fits the column and the sequence is not exhausted, the row was
    formed before it was refused and the identity sequence has moved on by
    one. For the id of a stored user, with ids left in the sequence, create
    stores the post under the next id, unpublished unless asked otherwise;
    the post is then found by its id together with its author, and the
    author's getById lists the posts the author already had and the new
    one, in an order the query does not name. *)
Theorem post_needs_its_user :
  (forall input i w,
      postRouter.CreatePostSchema input = Some i ->
      (forall u, In u (Users w) -> User.id u <> postRouter.userId i) ->
      exists cause w',
        postRouter.create input w = (w', Thrown (StoreError cause)) /\
        Posts w' = Posts w /\ Users w' = Users w /\ User_seq w' = User_seq w /\
        entity_step w w' /\
        (postRouter.userId i <= int4_max -> Post_seq w <= int4_max ->
         Post_seq w' = Post_seq w + 1) /\
        (int4_max < postRouter.userId i \/ int4_max < Post_seq w ->
         Post_seq w' = Post_seq w)) /\
  (forall input i w u,
      entity_wf w ->
      Post_seq w <= int4_max ->
      postRouter.CreatePostSchema input = Some i ->
      In u (Users w) -> User.id u = postRouter.userId i ->
      exists p w1 posts,
        postRouter.create input w = (w1, Returned p) /\
        Post.id p = Post_seq w /\ Post.userId p = User.id u /\
        Post.title p = postRouter.title i /\
        Post.content p = postRouter.content i /\
        Post.published p
        = match postRouter.published i with Some b => b | None => false end /\
        Posts w1 = Posts w ++ [p] /\
        Post_seq w1 = Post_seq w + 1 /\
        postRouter.getById (JsObject [("id", JsNumber (Post.id p))]) w1
        = (w1, Returned (Some (p, Some u))) /\
        userRouter.getById (JsObject [("id", JsNumber (User.id u))]) w1
        = (w1, Returned (Some (u, posts))) /\
        Permutation posts
          (filter (fun q => Post.userId q =? User.id u) (Posts w) ++ [p])).
Proof.
  split.
  - intros input i w Hs Hmiss.
    unfold postRouter.create, procedure. rewrite Hs.
    unfold postRouter.insert_Post. cbv zeta.
    assert (E : existsb (fun u => User.id u =? postRouter.userId i) (Users w)
                = false).
    { apply existsb_false_iff. intros u Hu. apply Z.eqb_neq, Hmiss, Hu. }
    rewrite E. cbn [negb andb]. unfold out_of_range.
    destruct (int4_max <? postRouter.userId i) eqn:Er.
    + apply Z.ltb_lt in Er. eexists. exists w.
      split; [reflexivity|]. repeat split. intros Hle. lia.
    + apply Z.ltb_ge in Er. destruct (int4_max <? Post_seq w) eqn:Emax.
      * apply Z.ltb_lt in Emax. eexists. exists w.
        split; [reflexivity|]. repeat split. intros _ Hle. lia.
      * apply Z.ltb_ge in Emax. eexists. eexists.
        split; [reflexivity|]. cbn [Users Posts Post_seq User_seq set_Posts].
        repeat split. intros [Hgt|Hgt]; lia.
  - intros input i w u Hwf Hfree Hs Hin Hid.
    destruct Hwf as (Hus & Hps & Hu & Hnid & Hnem & Hp & Hnpid & Hfk).
    assert (E : existsb (fun x => User.id x =? postRouter.userId i) (Users w)
                = true).
    { apply existsb_exists. exists u. split; [exact Hin|].
      apply Z.eqb_eq. exact Hid. }
    assert (Hupos : 0 < User.id u).
    { rewrite Forall_forall in Hu. specialize (Hu u Hin). simpl in Hu. lia. }
    assert (Emax : (int4_max <? Post_seq w) = false)
      by (apply Z.ltb_ge; exact Hfree).
    eexists. eexists. eexists.
    split.
    { unfold postRouter.create, procedure. rewrite Hs.
      unfold postRouter.insert_Post. cbv zeta. rewrite E, Emax. reflexivity. }
    cbn [Post.id Post.userId Post.title Post.content Post.published
         Posts Post_seq set_Posts].
    split; [reflexivity|]. split; [symmetry; exact Hid|].
    split; [reflexivity|]. split; [reflexivity|]. split; [reflexivity|].
    split; [reflexivity|]. split; [reflexivity|]. split; [|split].
    + unfold postRouter.getById, procedure, userRouter.id_schema.
      cbn [z_is_object prop lookup_field]. rewrite String.eqb_refl.
      unfold z_number_int_positive.
      apply Z.ltb_lt in Hps. rewrite Hps. cbn [Posts Users set_Posts].
      rewrite find_snoc.
      assert (Hnone : find (fun p => Post.id p =? Post_seq w) (Posts w) = None).
      { apply find_none_iff. intros x Hx. apply Z.eqb_neq.
        rewrite Forall_forall in Hp. specialize (Hp x Hx). simpl in Hp. lia. }
      rewrite Hnone. cbn [Post.id]. rewrite Z.eqb_refl. cbn [Post.userId].
      rewrite <- Hid. rewrite (find_by_unique_key User.id _ u Hnid Hin).
      reflexivity.
    + unfold userRouter.getById, procedure, userRouter.id_schema.
      cbn [z_is_object prop lookup_field]. rewrite String.eqb_refl.
      unfold z_number_int_positive.
      apply Z.ltb_lt in Hupos. rewrite Hupos. cbn [Posts Users set_Posts].
      rewrite (find_by_unique_key User.id _ u Hnid Hin).
      reflexivity.
    + rewrite filter_app. cbn [filter Post.userId].
      rewrite <- Hid, Z.eqb_refl. apply Permutation_refl.
Qed.

Lemma post_needs_its_user_witness :
  (exists cause w',
      postRouter.create
        (JsObject [("userId", JsNumber 7); ("title", JsString "T");
                   ("content", JsString "C")])
        blog_world = (w', Thrown (StoreError cause)) /\
      Posts w' = [bobs_post] /\ Post_seq w' = 3) /\
  (exists p w1 posts,
      postRouter.create
        (JsObject [("userId", JsNumber 1); ("title", JsString "T");
                   ("content", JsString "C")])
        blog_world = (w1, Returned p) /\
      userRouter.getById (JsObject [("id", JsNumber 1)]) w1
      = (w1, Returned (Some (ada, posts))) /\
      Permutation posts [p]).
Proof.
  split.
  - destruct (proj1 post_needs_its_user
                (JsObject [("userId", JsNumber 7); ("title", JsString "T");
                           ("content", JsString "C")])
                (postRouter.mkCreate 7 "T" "C" None) blog_world eq_refl)
      as (cause & w' & Hc & Hp & _ & _ & _ & Hseq & _).
    { simpl. intros u [<-|[<-|[]]]; simpl; lia. }
    exists cause, w'. split; [exact Hc|]. split; [exact Hp|].
    apply Hseq; vm_compute; discriminate.
  - destruct (proj2 post_needs_its_user
                (JsObject [("userId", JsNumber 1); ("title", JsString "T");
                           ("content", JsString "C")])
                (postRouter.mkCreate 1 "T" "C" None) blog_world ada
                blog_world_entity_wf)
      as (p & w1 & posts & Hc & _ & _ & _ & _ & _ & _ & _ & _ & Hget & Hperm).
    + vm_compute. discriminate.
    + reflexivity.
    + left. reflexivity.
    + reflexivity.
    + exists p, w1, posts. split; [exact Hc|]. split; [exact Hget | exact Hperm].
Defined.

(** ** Listing posts *)

Lemma list_schema_spec (input : JsValue) (o : option Z) :
  postRouter.list_schema input = Some o ->
  (input = JsUndefined /\ o = None) \/
  (z_is_object input = true /\ prop "limit" input = JsUndefined /\ o = Some 50) \/
  (exists n, z_is_object input = true /\ prop "limit" input = JsNumber n /\
             o = Some n /\ 0 < n <= 100).
Proof.
  unfold postRouter.list_schema.
  destruct input as [| | | | | | |fields]; try discriminate.
  - intros [= <-]. left. split; reflexivity.
  - destruct (prop "limit" (JsObject fields)) as [| | |n| | | |] eqn:El;
      unfold z_number_int_positive; try discriminate.
    + intros [= <-]. right. left. repeat split.
    + destruct (0 <? n) eqn:E0; [|discriminate].
      destruct (n <=? 100) eqn:E1; [|discriminate].
      intros [= <-]. right. right. exists n. repeat split; lia.
Qed.

(** X12. post.list never returns more than 100 posts: with no input, or
    with no limit in it, at most 50; with a limit from 1 to 100, at most
    that many; a limit of 0, below 0 or above 100 is a validation error.
    The posts come most recent first, each is a stored post, and on tables
    that satisfy their constraints each comes with its author. *)
Theorem post_list_is_bounded :
  (forall input w w' rows,
      postRouter.list input w = (w', Returned rows) ->
      w' = w /\
      (List.length rows <= 100)%nat /\
      (input = JsUndefined \/ prop "limit" input = JsUndefined ->
       (List.length rows <= 50)%nat) /\
      (forall n, prop "limit" input = JsNumber n ->
                 Z.of_nat (List.length rows) <= n) /\
      StronglySorted (fun a b => Post.createdAt b <= Post.createdAt a)
                     (map fst rows) /\
      (forall pu, In pu rows -> In (fst pu) (Posts w)) /\
      (entity_wf w ->
       Forall (fun pu => exists u, snd pu = Some u /\ In u (Users w) /\
                                   User.id u = Post.userId (fst pu)) rows)) /\
  (forall input n w,
      z_is_object input = true -> prop "limit" input = JsNumber n ->
      n <= 0 \/ 100 < n ->
      postRouter.list input w = (w, Thrown ValidationError)).
Proof.
  split.
  - intros input w w' rows Hl. unfold postRouter.list, procedure in Hl.
    destruct (postRouter.list_schema input) as [o|] eqn:Hs; [|discriminate].
    injection Hl as <- <-.
    set (sorted := orderBy (desc Post.createdAt) (Posts w)).
    assert (Hlen : forall k, (List.length (limit (Z.to_nat k) sorted)
                              <= Z.to_nat k)%nat)
      by (intros k; apply firstn_le_length).
    apply list_schema_spec in Hs.
    split; [reflexivity|]. rewrite length_map.
    split; [|split; [|split; [|split; [|split]]]].
    + destruct Hs as [[-> ->] | [(_ & _ & ->) | (k & _ & _ & -> & Hk)]].
      * specialize (Hlen 50). lia.
      * specialize (Hlen 50). lia.
      * specialize (Hlen k). lia.
    + intros Hcase.
      destruct Hs as [[-> ->] | [(_ & _ & ->) | (k & _ & Hp & -> & Hk)]].
      * specialize (Hlen 50). lia.
      * specialize (Hlen 50). lia.
      * destruct Hcase as [E|E]; [subst input; discriminate|].
        rewrite E in Hp. discriminate.
    + intros k Hk.
      destruct Hs as [[-> ->] | [(_ & Hp & ->) | (k' & _ & Hp & -> & Hk')]].
      * discriminate.
      * rewrite Hk in Hp. discriminate.
      * rewrite Hk in Hp. injection Hp as <-. specialize (Hlen k). lia.
    + rewrite map_map. simpl. rewrite map_id.
      apply StronglySorted_firstn, orderBy_desc_sorted.
    + intros pu Hin. apply in_map_iff in Hin. destruct Hin as (p & <- & Hin).
      simpl. apply firstn_In in Hin. apply (sort_by_in _ p (Posts w)) in Hin.
      exact Hin.
    + intros (_ & _ & _ & Hnid & _ & _ & _ & Hfk).
      apply Forall_map, Forall_forall. intros p Hin. simpl.
      apply firstn_In in Hin. apply (sort_by_in _ p (Posts w)) in Hin.
      rewrite Forall_forall in Hfk. specialize (Hfk p Hin).
      apply existsb_exists in Hfk. destruct Hfk as (u & Hu & Heq).
      apply Z.eqb_eq in Heq. exists u. rewrite <- Heq.
      rewrite (find_by_unique_key User.id _ u Hnid Hu). repeat split. exact Hu.
  - intros input n w Hobj Hlim Hbad.
    apply procedure_rejects. unfold postRouter.list_schema.
    destruct input as [| | | | | | |fields]; try discriminate.
    rewrite Hlim. unfold z_number_int_positive.
    destruct (0 <? n) eqn:E0; [|reflexivity].
    destruct (n <=? 100) eqn:E1; [|reflexivity]. lia.
Qed.

Lemma post_list_is_bounded_witness :
  postRouter.list (JsObject [("limit", JsNumber 101)]) blog_world
  = (blog_world, Thrown ValidationError) /\
  (List.length [(bobs_post, Some bob)] <= 50)%nat.
Proof.
  split.
  - apply (proj2 post_list_is_bounded _ 101 blog_world).
    + reflexivity.
    + reflexivity.
    + right. lia.
  - destruct (proj1 post_list_is_bounded JsUndefined blog_world blog_world
                [(bobs_post, Some bob)] eq_refl) as (_ & _ & H50 & _).
    apply H50. left. reflexivity.
Defined.

(** X13. For a user id from 1 to 2147483647, the range of the integer
    column, post.listByUser returns exactly the posts of that user, each
    once, most recent first, and changes nothing. *)
Theorem listByUser_returns_that_users_posts (userId : Z) (w : World) :
  0 < userId <= int4_max ->
  exists rows,
    postRouter.listByUser (JsObject [("userId", JsNumber userId)]) w
    = (w, Returned rows) /\
    Permutation rows (filter (fun p => Post.userId p =? userId) (Posts w)) /\
    (forall p, In p rows <-> In p (Posts w) /\ Post.userId p = userId) /\
    StronglySorted (fun a b => Post.createdAt b <= Post.createdAt a) rows.
Proof.
  intros [Hpos Hmax]. eexists. split.
  { unfold postRouter.listByUser, procedure, userRouter.id_schema.
    cbn [z_is_object prop lookup_field]. rewrite String.eqb_refl.
    unfold z_number_int_positive. apply Z.ltb_lt in Hpos. rewrite Hpos.
    cbv zeta.
    assert (Hr : out_of_range userId = false)
      by (unfold out_of_range; apply Z.ltb_ge; exact Hmax).
    rewrite Hr, andb_false_r. reflexivity. }
  split; [apply sort_by_perm|]. split.
  - intros p. unfold orderBy. rewrite sort_by_in, filter_In, Z.eqb_eq. tauto.
  - apply orderBy_desc_sorted.
Qed.

Lemma listByUser_returns_that_users_posts_witness :
  exists rows,
    postRouter.listByUser (JsObject [("userId", JsNumber 2)]) blog_world
    = (blog_world, Returned rows) /\
    Permutation rows [bobs_post].
Proof.
  destruct (listByUser_returns_that_users_posts 2 blog_world
              ltac:(unfold int4_max; lia))
    as (rows & Hr & Hp & _).
  exists rows. split; [exact Hr | exact Hp].
Defined.

(** ** Where the tool schemas are laxer than the procedures *)

Lemma CreatePostSchema_fields (input : JsValue) (i : postRouter.create_input) :
  postRouter.CreatePostSchema input = Some i ->
  prop "userId" input = JsNumber (postRouter.userId i) /\
  0 < postRouter.userId i /\
  prop "title" input = JsString (postRouter.title i) /\
  1 <= js_length (postRouter.title i) <= 500 /\
  prop "content" input = JsString (postRouter.content i) /\
  1 <= js_length (postRouter.content i).
Proof.
  unfold postRouter.CreatePostSchema.
  destruct (z_is_object input); [|discriminate].
  destruct (z_number_int_positive (prop "userId" input)) as [u|] eqn:Eu;
    [|discriminate].
  destruct (z_max 500 (z_min 1 z_string) (prop "title" input)) as [t|] eqn:Et;
    [|discriminate].
  destruct (z_min 1 z_string (prop "content" input)) as [c|] eqn:Ec;
    [|discriminate].
  destruct (z_optional z_boolean (prop "published" input)) as [p|];
    [|discriminate].
  intros [= <-]. simpl.
  apply content_schema_spec in Et. destruct Et as [Ht Hlt].
  unfold z_number_int_positive in Eu.
  destruct (prop "userId" input) as [| | |n| | | |]; try discriminate.
  destruct (0 <? n) eqn:E0; [|discriminate]. injection Eu as <-.
  unfold z_min, z_string in Ec.
  destruct (prop "content" input) as [| | | |s| | |]; try discriminate.
  destruct (1 <=? js_length s) eqn:E1; [|discriminate]. injection Ec as <-.
  repeat split; try assumption; try lia.
Qed.

(** X14. The create_user and create_post adapters accept what their own
    schemas accept, which asks less than the procedures do: a name that is
    empty or longer than 255, an email longer than 255, a bio longer than
    1000, a title that is empty or longer than 500, or an empty content
    passes the tool and makes the adapter throw the procedure's validation
    error, with nothing stored. *)
Theorem create_adapters_throw_on_router_validation `{Zod} :
  (forall n e b w,
      js_length n = 0 \/ 255 < js_length n \/ 255 < js_length e \/
      (exists s, b = Some s /\ 1000 < js_length s) ->
      func createUserTool (n, e, b) w = (w, Thrown ValidationError)) /\
  (forall u t c p w,
      js_length t = 0 \/ 500 < js_length t \/ js_length c = 0 ->
      func createPostTool (u, t, c, p) w = (w, Thrown ValidationError)) /\
  (forall e, is_email e = true ->
             schema createUserTool
               (JsObject [("name", JsString EmptyString); ("email", JsString e)])
             = Some (EmptyString, e, None)) /\
  (forall u, 0 < u ->
             schema createPostTool
               (JsObject [("userId", JsNumber u); ("title", JsString EmptyString);
                          ("content", JsString EmptyString)])
             = Some (u, EmptyString, EmptyString, None)).
Proof.
  split; [|split; [|split]].
  - intros n e b w Hbad. cbn [func createUserTool].
    unfold bind, userRouter.create.
    rewrite procedure_rejects; [reflexivity|].
    destruct (userRouter.CreateUserSchema _) as [i|] eqn:Hs; [|reflexivity].
    apply CreateUserSchema_fields in Hs.
    destruct Hs as (Hn & Hln & He & _ & Hle & Hb).
    cbn in Hn, He. injection Hn as Hn. injection He as He.
    destruct Hbad as [Hbad|[Hbad|[Hbad|(s & -> & Hbad)]]]; try (subst; lia).
    destruct (userRouter.bio i) as [b'|]; cbn in Hb.
    + destruct Hb as [Hb Hlb]. injection Hb as <-. lia.
    + discriminate.
  - intros u t c p w Hbad. cbn [func createPostTool].
    unfold bind, postRouter.create.
    rewrite procedure_rejects; [reflexivity|].
    destruct (postRouter.CreatePostSchema _) as [i|] eqn:Hs; [|reflexivity].
    apply CreatePostSchema_fields in Hs.
    destruct Hs as (_ & _ & Ht & Hlt & Hc & Hlc).
    cbn in Ht, Hc. injection Ht as Ht. injection Hc as Hc.
    destruct Hbad as [Hbad|[Hbad|Hbad]]; subst; lia.
  - intros e He. cbn. unfold z_email, z_string. rewrite He. reflexivity.
  - intros u Hu. cbn. unfold z_number_int_positive.
    apply Z.ltb_lt in Hu. rewrite Hu. reflexivity.
Qed.

Lemma create_adapters_throw_on_router_validation_witness :
  func (@createUserTool sample_zod) (EmptyString, "ada@example.com"%string, None)
       blog_world
  = (blog_world, Thrown ValidationError) /\
  func createPostTool (1, EmptyString, "C"%string, None) blog_world
  = (blog_world, Thrown ValidationError) /\
  schema (@createUserTool sample_zod)
    (JsObject [("name", JsString EmptyString); ("email", JsString "ada@example.com")])
  = Some (EmptyString, "ada@example.com"%string, None).
Proof.
  split; [|split].
  - apply (proj1 (@create_adapters_throw_on_router_validation sample_zod)).
    left. reflexivity.
  - apply (proj1 (proj2 (@create_adapters_throw_on_router_validation sample_zod))).
    left. reflexivity.
  - apply (proj1 (proj2 (proj2
             (@create_adapters_throw_on_router_validation sample_zod)))).
    reflexivity.
Defined.

(** ** Adapters when there is data *)

Lemma stringify_nonempty_array (x : JsValue) (l : list JsValue) :
  starts_with "[" (JSON_stringify (JsArray (x :: l))) = true.
Proof. reflexivity. Qed.

Lemma sort_by_nonempty {A} (le : A -> A -> bool) (l : list A) :
  l <> [] -> exists x r, sort_by le l = x :: r.
Proof.
  intros Hne. destruct (sort_by le l) as [|x r] eqn:E.
  - exfalso. apply Hne. apply length_zero_iff_nil.
    rewrite <- (sort_by_length le l), E. reflexivity.
  - exists x, r. reflexivity.
Qed.

(** X15. When the data is there the adapters answer with a JSON document
    and not with their no-data sentence: list_users and list_posts on a
    table with rows, and get_posts_by_user for a user with a post, return
    text that opens an array; get_user for a stored id returns text that
    opens an object. None changes the world. *)
Theorem adapters_answer_with_json_when_data_exists :
  (forall w, Users w <> [] ->
     exists text, func listUsersTool tt w = (w, Returned text) /\
                  starts_with "[" text = true /\
                  text <> "No users found in the database."%string) /\
  (forall w, Posts w <> [] ->
     exists text, func listPostsTool tt w = (w, Returned text) /\
                  starts_with "[" text = true /\
                  text <> "No posts found in the database."%string) /\
  (forall w id u, 0 < id -> In u (Users w) -> User.id u = id ->
     exists text, func getUserTool id w = (w, Returned text) /\
                  starts_with "{" text = true /\
                  text <> ("User with ID " ++ string_of_Z id ++ " not found")%string) /\
  (forall w userId p, 0 < userId -> In p (Posts w) -> Post.userId p = userId ->
     exists text, func getPostsByUserTool userId w = (w, Returned text) /\
                  starts_with "[" text = true /\
                  text <> ("User " ++ string_of_Z userId ++
                           " has not created any posts yet.")%string).
Proof.
  assert (Hneq : forall c c' text rest,
             starts_with c text = true -> Ascii.eqb c c' = false ->
             text <> String c' rest).
  { intros c c' text rest Hs Hc ->. simpl in Hs. congruence. }
  split; [|split; [|split]].
  - intros w Hne. cbn [func listUsersTool]. unfold bind, userRouter.list, orderBy.
    destruct (sort_by_nonempty (desc User.createdAt) (Users w) Hne) as (x & r & E).
    rewrite E. cbn [List.length map]. eexists. split; [reflexivity|].
    split; [apply stringify_nonempty_array|].
    eapply Hneq; [apply stringify_nonempty_array | reflexivity].
  - intros w Hne. cbn [func listPostsTool].
    unfold bind, postRouter.list, procedure, orderBy. cbn [postRouter.list_schema].
    destruct (sort_by_nonempty (desc Post.createdAt) (Posts w) Hne) as (x & r & E).
    rewrite E. cbn [limit firstn Z.to_nat Pos.to_nat Pos.iter_op Nat.add
                    List.length map].
    eexists. split; [reflexivity|].
    split; [apply stringify_nonempty_array|].
    eapply Hneq; [apply stringify_nonempty_array | reflexivity].
  - intros w id u Hid Hin Hu. cbn [func getUserTool].
    unfold bind, userRouter.getById, procedure, userRouter.id_schema.
    cbn [z_is_object prop lookup_field]. rewrite String.eqb_refl.
    unfold z_number_int_positive. apply Z.ltb_lt in Hid. rewrite Hid.
    destruct (find (fun u0 => User.id u0 =? id) (Users w)) as [u'|] eqn:Ef.
    + eexists. split; [reflexivity|]. split; [reflexivity|].
      apply (Hneq "{"%char); reflexivity.
    + exfalso. rewrite find_none_iff in Ef. specialize (Ef u Hin).
      apply Z.eqb_neq in Ef. contradiction.
  - intros w userId p Hid Hin Hp. cbn [func getPostsByUserTool].
    unfold bind, postRouter.listByUser, procedure, userRouter.id_schema, orderBy.
    cbn [z_is_object prop lookup_field]. rewrite String.eqb_refl.
    unfold z_number_int_positive. apply Z.ltb_lt in Hid. rewrite Hid.
    assert (Hne : filter (fun q => Post.userId q =? userId) (Posts w) <> []).
    { intros E. rewrite filter_nil_iff in E. specialize (E p Hin).
      apply Z.eqb_neq in E. contradiction. }
    cbv zeta.
    destruct (filter (fun q => Post.userId q =? userId) (Posts w))
      as [|q qs] eqn:Efilter; [contradiction|].
    cbn [is_nil andb].
    destruct (sort_by_nonempty (desc Post.createdAt) (q :: qs)) as (x & r & E);
      [discriminate|].
    rewrite E. cbn [List.length map]. eexists. split; [reflexivity|].
    split; [apply stringify_nonempty_array|].
    eapply Hneq; [apply stringify_nonempty_array | reflexivity].
Qed.

Lemma adapters_answer_with_json_when_data_exists_witness :
  (exists text, func listUsersTool tt blog_world = (blog_world, Returned text) /\
                starts_with "[" text = true) /\
  (exists text, func getUserTool 2 blog_world = (blog_world, Returned text) /\
                starts_with "{" text = true) /\
  (exists text, func getPostsByUserTool 2 blog_world = (blog_world, Returned text) /\
                starts_with "[" text = true) /\
  (exists text, func listPostsTool tt blog_world = (blog_world, Returned text) /\
                starts_with "[" text = true).
Proof.
  split; [|split; [|split]].
  - destruct (proj1 adapters_answer_with_json_when_data_exists blog_world)
      as (text & Hr & Hs & _); [discriminate|].
    exists text. split; assumption.
  - destruct (proj1 (proj2 (proj2 adapters_answer_with_json_when_data_exists))
                blog_world 2 bob) as (text & Hr & Hs & _).
    + lia.
    + right. left. reflexivity.
    + reflexivity.
    + exists text. split; assumption.
  - destruct (proj2 (proj2 (proj2 adapters_answer_with_json_when_data_exists))
                blog_world 2 bobs_post) as (text & Hr & Hs & _).
    + lia.
    + left. reflexivity.
    + reflexivity.
    + exists text. split; assumption.
  - destruct (proj1 (proj2 adapters_answer_with_json_when_data_exists) blog_world)
      as (text & Hr & Hs & _); [discriminate|].
    exists text. split; assumption.
Defined.

(** ** Updating *)

Lemma find_in_place {A} (key : A -> Z) (f : A -> A) (i : Z) (l : list A) :
  (forall x, key (f x) = key x) ->
  find (fun x => key x =? i) (map (fun x => if key x =? i then f x else x) l)
  = option_map f (find (fun x => key x =? i) l).
Proof.
  intros Hkeep. induction l as [|a l IH]; simpl; [reflexivity|].
  destruct (key a =? i) eqn:E.
  - rewrite Hkeep, E. reflexivity.
  - rewrite E. exact IH.
Qed.

(** X16. user.update rewrites one row and nothing else. For an id up to
    2147483647 that no user has it returns no row and the table is as
    before. For a stored id,
    when the new email (if any) is held by no other user, it returns the
    row with the given fields replaced, the others kept, id and createdAt
    kept, and updatedAt set to the clock, even when the data names no
    field; every other row, the number of rows and the sequence are
    unchanged. *)
Theorem user_update_rewrites_one_row `{Zod} :
  (forall input id data w,
      userRouter.update_schema input = Some (id, data) ->
      id <= int4_max ->
      (forall u, In u (Users w) -> User.id u <> id) ->
      exists w',
        userRouter.update input w = (w', Returned None) /\
        Users w' = Users w /\ User_seq w' = User_seq w) /\
  (forall input id data w u,
      entity_wf w ->
      userRouter.update_schema input = Some (id, data) ->
      In u (Users w) -> User.id u = id ->
      (forall e u', userRouter.set_email data = Some e ->
                    In u' (Users w) -> User.id u' <> id -> User.email u' <> e) ->
      exists w' u1,
        userRouter.update input w = (w', Returned (Some u1)) /\
        In u1 (Users w') /\
        User.id u1 = id /\ User.createdAt u1 = User.createdAt u /\
        User.updatedAt u1 = clock w /\
        User.name u1 = match userRouter.set_name data with
                       | Some n => n | None => User.name u end /\
        User.email u1 = match userRouter.set_email data with
                        | Some e => e | None => User.email u end /\
        User.bio u1 = match userRouter.set_bio data with
                      | Some b => Some b | None => User.bio u end /\
        List.length (Users w') = List.length (Users w) /\
        User_seq w' = User_seq w /\
        (forall x, In x (Users w) -> User.id x <> id -> In x (Users w'))).
Proof.
  split.
  - intros input id data w Hs Hmax Hmiss.
    unfold userRouter.update, procedure. rewrite Hs.
    unfold userRouter.update_User. cbv zeta.
    assert (Ehit : existsb (fun u => User.id u =? id) (Users w) = false).
    { apply existsb_false_iff. intros u Hu. apply Z.eqb_neq, Hmiss, Hu. }
    rewrite Ehit.
    assert (Hr : out_of_range id = false)
      by (unfold out_of_range; apply Z.ltb_ge; exact Hmax).
    rewrite Hr.
    assert (Eclash : match userRouter.set_email data with
                     | Some e => false && existsb (fun u => negb (User.id u =? id) &&
                                                   String.eqb (User.email u) e) (Users w)
                     | None => false
                     end = false)
      by (destruct (userRouter.set_email data); reflexivity).
    rewrite Eclash. cbn [negb andb].
    rewrite (in_place_miss User.id _ id _ Ehit).
    assert (Hf : find (fun u => User.id u =? id) (Users w) = None).
    { apply find_none_iff. intros u Hu. apply Z.eqb_neq, Hmiss, Hu. }
    rewrite Hf. eexists. split; [reflexivity|]. split; reflexivity.
  - intros input id data w u Hwf Hs Hin Hid Hfree.
    destruct Hwf as (_ & _ & _ & Hnid & _).
    unfold userRouter.update, procedure. rewrite Hs.
    unfold userRouter.update_User. cbv zeta.
    assert (Ehit : existsb (fun x => User.id x =? id) (Users w) = true).
    { apply existsb_exists. exists u. split; [exact Hin|].
      apply Z.eqb_eq. exact Hid. }
    assert (Hguard : negb (existsb (fun x => User.id x =? id) (Users w))
                     && out_of_range id = false)
      by (rewrite Ehit; reflexivity).
    rewrite Hguard.
    assert (Eclash : match userRouter.set_email data with
                     | Some e => existsb (fun u => User.id u =? id) (Users w) &&
                                 existsb (fun u => negb (User.id u =? id) &&
                                                   String.eqb (User.email u) e) (Users w)
                     | None => false
                     end = false).
    { destruct (userRouter.set_email data) as [e|]; [|reflexivity].
      apply andb_false_iff. right. apply existsb_false_iff. intros u' Hu'.
      destruct (User.id u' =? id) eqn:E; [reflexivity|]. simpl.
      apply String.eqb_neq. apply (Hfree e u' eq_refl Hu').
      apply Z.eqb_neq. exact E. }
    rewrite Eclash.
    assert (Hkeep : forall x, User.id (userRouter.apply_data data (clock w) x)
                              = User.id x) by reflexivity.
    rewrite (find_in_place User.id _ id (Users w) Hkeep).
    rewrite <- Hid.
    rewrite (find_by_unique_key User.id _ u Hnid Hin). cbn [option_map].
    eexists. eexists. split; [reflexivity|].
    cbn [Users User_seq set_Users].
    split.
    { apply in_map_iff. exists u. rewrite Z.eqb_refl. split; [reflexivity|exact Hin]. }
    split; [reflexivity|]. split; [reflexivity|]. split; [reflexivity|].
    split; [reflexivity|]. split; [reflexivity|]. split; [reflexivity|].
    split; [apply length_map|]. split; [reflexivity|].
    intros x Hx Hne. apply in_map_iff. exists x.
    apply Z.eqb_neq in Hne. rewrite Hne. split; [reflexivity | exact Hx].
Qed.

Lemma user_update_rewrites_one_row_witness :
  (exists w',
      @userRouter.update sample_zod
        (JsObject [("id", JsNumber 9); ("data", JsObject [])]) blog_world
      = (w', Returned None) /\ Users w' = Users blog_world) /\
  (exists w' u1,
      @userRouter.update sample_zod
        (JsObject [("id", JsNumber 1); ("data", JsObject [])]) blog_world
      = (w', Returned (Some u1)) /\
      User.updatedAt u1 = 8 /\ User.name u1 = "Ada"%string).
Proof.
  split.
  - destruct (proj1 (@user_update_rewrites_one_row sample_zod)
                (JsObject [("id", JsNumber 9); ("data", JsObject [])]) 9
                (userRouter.mkData None None None) blog_world eq_refl)
      as (w' & Hr & Hu & _).
    + unfold int4_max. lia.
    + simpl. intros u [<-|[<-|[]]]; simpl; lia.
    + exists w'. split; assumption.
  - destruct (proj2 (@user_update_rewrites_one_row sample_zod)
                (JsObject [("id", JsNumber 1); ("data", JsObject [])]) 1
                (userRouter.mkData None None None) blog_world ada
                blog_world_entity_wf eq_refl (or_introl eq_refl) eq_refl)
      as (w' & u1 & Hr & _ & _ & _ & Hup & Hn & _).
    + intros e u' He. discriminate He.
    + exists w', u1. split; [exact Hr|]. split; [exact Hup | exact Hn].
Defined.

(** X17. post.update keeps every post attached to a user: moving a stored
    post to a userId no user has throws a store error and changes nothing;
    for an id up to 2147483647 that no post has the update returns no row
    and changes no table, whatever the data, provided the userId in it, if
    any, is at most 2147483647 as well. *)
Theorem post_update_keeps_its_user :
  (forall input id data uid w p,
      postRouter.update_schema input = Some (id, data) ->
      postRouter.set_userId data = Some uid ->
      In p (Posts w) -> Post.id p = id ->
      (forall u, In u (Users w) -> User.id u <> uid) ->
      exists cause,
        postRouter.update input w = (w, Thrown (StoreError cause))) /\
  (forall input id data w,
      postRouter.update_schema input = Some (id, data) ->
      id <= int4_max ->
      (forall uid, postRouter.set_userId data = Some uid -> uid <= int4_max) ->
      (forall p, In p (Posts w) -> Post.id p <> id) ->
      exists w',
        postRouter.update input w = (w', Returned None) /\
        Posts w' = Posts w /\ Post_seq w' = Post_seq w /\ Users w' = Users w).
Proof.
  split.
  - intros input id data uid w p Hs Hu Hin Hid Hmiss.
    unfold postRouter.update, procedure. rewrite Hs.
    unfold postRouter.update_Post. cbv zeta. rewrite Hu.
    assert (E1 : existsb (fun q => Post.id q =? id) (Posts w) = true).
    { apply existsb_exists. exists p. split; [exact Hin|].
      apply Z.eqb_eq. exact Hid. }
    assert (E2 : existsb (fun x => User.id x =? uid) (Users w) = false).
    { apply existsb_false_iff. intros u Hu'. apply Z.eqb_neq, Hmiss, Hu'. }
    rewrite E1, E2. cbn [negb andb orb].
    destruct (out_of_range uid); eexists; reflexivity.
  - intros input id data w Hs Hmax Hfit Hmiss.
    unfold postRouter.update, procedure. rewrite Hs.
    unfold postRouter.update_Post. cbv zeta.
    assert (Ehit : existsb (fun q => Post.id q =? id) (Posts w) = false).
    { apply existsb_false_iff. intros q Hq. apply Z.eqb_neq, Hmiss, Hq. }
    rewrite Ehit.
    assert (Hr : out_of_range id = false)
      by (unfold out_of_range; apply Z.ltb_ge; exact Hmax).
    rewrite Hr.
    assert (Eunfit : match postRouter.set_userId data with
                     | Some u => negb (existsb (fun x => User.id x =? u) (Users w))
                                 && out_of_range u
                     | None => false
                     end = false).
    { destruct (postRouter.set_userId data) as [u|]; [|reflexivity].
      apply andb_false_iff. right. unfold out_of_range.
      apply Z.ltb_ge. apply Hfit. reflexivity. }
    rewrite Eunfit.
    assert (Eorphan : match postRouter.set_userId data with
                      | Some u => false && negb (existsb (fun x => User.id x =? u)
                                                         (Users w))
                      | None => false
                      end = false)
      by (destruct (postRouter.set_userId data); reflexivity).
    rewrite Eorphan. cbn [negb andb orb].
    rewrite (in_place_miss Post.id _ id _ Ehit).
    assert (Hf : find (fun q => Post.id q =? id) (Posts w) = None).
    { apply find_none_iff. intros q Hq. apply Z.eqb_neq, Hmiss, Hq. }
    rewrite Hf. eexists. split; [reflexivity|]. repeat split.
Qed.

Lemma post_update_keeps_its_user_witness :
  (exists cause,
      postRouter.update
        (JsObject [("id", JsNumber 1); ("data", JsObject [("userId", JsNumber 7)])])
        blog_world = (blog_world, Thrown (StoreError cause))) /\
  (exists w',
      postRouter.update
        (JsObject [("id", JsNumber 5); ("data", JsObject [("userId", JsNumber 7)])])
        blog_world = (w', Returned None) /\ Posts w' = Posts blog_world).
Proof.
  split.
  - apply (proj1 post_update_keeps_its_user _ 1
             (postRouter.mkData (Some 7) None None None) 7 blog_world bobs_post).
    + reflexivity.
    + reflexivity.
    + left. reflexivity.
    + reflexivity.
    + simpl. intros u [<-|[<-|[]]]; simpl; lia.
  - destruct (proj2 post_update_keeps_its_user
                (JsObject [("id", JsNumber 5);
                           ("data", JsObject [("userId", JsNumber 7)])]) 5
                (postRouter.mkData (Some 7) None None None) blog_world eq_refl)
      as (w' & Hr & Hp & _).
    + unfold int4_max. lia.
    + simpl. intros uid [= <-]. unfold int4_max. lia.
    + simpl. intros p [<-|[]]. simpl. lia.
    + exists w'. split; assumption.
Defined.

(** ** The chat page *)

Lemma trimStart_spec (s : string) :
  ChatPage.trimStart s = EmptyString /\ all_white_space s = true \/
  not_white_space (first_char (ChatPage.trimStart s)) /\ all_white_space s = false.
Proof.
  induction s as [|c rest IH]; simpl.
  - left. split; reflexivity.
  - destruct (ChatPage.is_white_space c) eqn:E; simpl.
    + exact IH.
    + right. split; [|reflexivity]. exists c. split; [reflexivity | exact E].
Qed.

Lemma trimEnd_spec (s : string) :
  (ChatPage.trimEnd s = EmptyString /\ all_white_space s = true) \/
  (not_white_space (last_char (ChatPage.trimEnd s)) /\
   first_char (ChatPage.trimEnd s) = first_char s).
Proof.
  induction s as [|c rest IH]; simpl.
  - left. split; reflexivity.
  - destruct IH as [[E Hw] | [Hl Hf]].
    + rewrite E, Hw. destruct (ChatPage.is_white_space c) eqn:Ec; simpl.
      * left. split; reflexivity.
      * right. split; [|reflexivity]. exists c. split; [reflexivity | exact Ec].
    + right. destruct (ChatPage.trimEnd rest) as [|c' kept] eqn:E.
      * destruct Hl as (x & Hx & _). discriminate.
      * split; [|reflexivity]. simpl. exact Hl.
Qed.

Lemma trimEnd_length (s : string) :
  (String.length (ChatPage.trimEnd s) <= String.length s)%nat.
Proof.
  induction s as [|c rest IH]; simpl; [lia|].
  destruct (ChatPage.trimEnd rest) as [|c' kept].
  - destruct (ChatPage.is_white_space c); simpl in *; lia.
  - simpl in *. lia.
Qed.

Lemma trimStart_length (s : string) :
  (String.length (ChatPage.trimStart s) <= String.length s)%nat.
Proof.
  induction s as [|c rest IH]; simpl; [lia|].
  destruct (ChatPage.is_white_space c); simpl; lia.
Qed.

Lemma trim_spec (s : string) :
  (ChatPage.trim s = EmptyString /\ all_white_space s = true) \/
  (all_white_space s = false /\
   not_white_space (first_char (ChatPage.trim s)) /\
   not_white_space (last_char (ChatPage.trim s)) /\
   1 <= js_length (ChatPage.trim s) <= js_length s).
Proof.
  unfold ChatPage.trim.
  destruct (trimStart_spec s) as [[E Hw] | [Hf Hw]].
  - left. rewrite E. split; [reflexivity | exact Hw].
  - right. split; [exact Hw|].
    destruct (trimEnd_spec (ChatPage.trimStart s)) as [[E Hw'] | [Hl Hf']].
    + exfalso. destruct Hf as (c & Hc & Hnw).
      destruct (ChatPage.trimStart s) as [|c0 r]; [discriminate|].
      simpl in Hc, Hw'. injection Hc as ->. rewrite Hnw in Hw'. discriminate.
    + rewrite Hf'. split; [exact Hf|]. split; [exact Hl|].
      pose proof (trimEnd_length (ChatPage.trimStart s)) as H1.
      pose proof (trimStart_length s) as H2.
      unfold js_length. split; [|lia].
      destruct Hl as (c & Hc & _).
      destruct (ChatPage.trimEnd (ChatPage.trimStart s)); [discriminate|].
      simpl. lia.
Qed.

(** X18. The page submits only what is worth sending. handleSubmit sends
    nothing and keeps its state when a request is in flight or the input
    is white space throughout; otherwise it sets isLoading and sends the
    input trimmed: at least one character, none of them white space at
    either end, so the procedure's schema accepts it unless it is longer
    than 10000. Enter without Shift does the same, any other key sends
    nothing. *)
Theorem page_sends_trimmed_nonempty_messages (s : ChatPage.state) :
  (ChatPage.isLoading s = true \/ all_white_space (ChatPage.input s) = true ->
   ChatPage.handleSubmit s = (s, None)) /\
  (ChatPage.isLoading s = false -> all_white_space (ChatPage.input s) = false ->
   let m := ChatPage.trim (ChatPage.input s) in
   ChatPage.handleSubmit s
   = (ChatPage.mkState (ChatPage.input s) true, Some (agent_input m)) /\
   1 <= js_length m <= js_length (ChatPage.input s) /\
   not_white_space (first_char m) /\ not_white_space (last_char m) /\
   (js_length m <= 10000 -> agentRouter.input_schema (agent_input m) = Some m)) /\
  (forall key shiftKey,
      key <> "Enter"%string \/ shiftKey = true ->
      ChatPage.handleKeyPress key shiftKey s = (s, None)) /\
  ChatPage.handleKeyPress "Enter" false s = ChatPage.handleSubmit s.
Proof.
  split; [|split; [|split]].
  - intros Hcase. unfold ChatPage.handleSubmit.
    destruct Hcase as [Hl|Hw].
    + rewrite Hl, orb_true_r. reflexivity.
    + destruct (trim_spec (ChatPage.input s)) as [[E _] | [Hw' _]];
        [|congruence].
      rewrite E. reflexivity.
  - intros Hl Hw m. subst m.
    destruct (trim_spec (ChatPage.input s)) as [[_ Hw'] | (_ & Hf & Hla & Hlen)];
      [congruence|].
    split.
    + unfold ChatPage.handleSubmit. rewrite Hl.
      destruct (ChatPage.trim (ChatPage.input s)) eqn:E.
      * destruct Hf as (c & Hc & _). discriminate.
      * reflexivity.
    + split; [exact Hlen|]. split; [exact Hf|]. split; [exact Hla|].
      intros Hmax. apply agent_input_schema_spec.
      split; [reflexivity|]. split; [reflexivity | lia].
  - intros key shiftKey Hcase. unfold ChatPage.handleKeyPress.
    destruct Hcase as [Hk | ->].
    + apply String.eqb_neq in Hk. rewrite Hk. reflexivity.
    + rewrite andb_false_r. reflexivity.
  - reflexivity.
Qed.

Lemma page_sends_trimmed_nonempty_messages_witness :
  ChatPage.handleSubmit (ChatPage.mkState "   " false)
  = (ChatPage.mkState "   " false, None) /\
  ChatPage.handleSubmit (ChatPage.mkState "  hi there " false)
  = (ChatPage.mkState "  hi there " true, Some (agent_input "hi there")).
Proof.
  split.
  - apply (proj1 (page_sends_trimmed_nonempty_messages
                    (ChatPage.mkState "   " false))).
    right. reflexivity.
  - apply (proj1 (proj2 (page_sends_trimmed_nonempty_messages
                           (ChatPage.mkState "  hi there " false))));
      reflexivity.
Defined.

(** X19. The page keeps one request in flight and loses no draft. Two
    submits in a row send at most one message; after a failure the input
    is still there and submitting again sends the same message; after a
    success the input is empty and submitting sends nothing. *)
Theorem page_has_one_request_in_flight (s : ChatPage.state) :
  snd (ChatPage.handleSubmit (fst (ChatPage.handleSubmit s))) = None /\
  (ChatPage.isLoading s = false ->
   ChatPage.handleSubmit (ChatPage.onError (fst (ChatPage.handleSubmit s)))
   = ChatPage.handleSubmit s) /\
  ChatPage.handleSubmit (ChatPage.onSuccess (fst (ChatPage.handleSubmit s)))
  = (ChatPage.mkState EmptyString false, None).
Proof.
  split; [|split].
  - unfold ChatPage.handleSubmit.
    destruct (ChatPage.is_empty (ChatPage.trim (ChatPage.input s))) eqn:E,
             (ChatPage.isLoading s) eqn:L; simpl; rewrite ?E, ?L; simpl;
      rewrite ?orb_true_r; reflexivity.
  - intros L. unfold ChatPage.handleSubmit. rewrite L.
    destruct (ChatPage.is_empty (ChatPage.trim (ChatPage.input s))) eqn:E; simpl.
    + destruct s as [i l]. simpl in *. subst l. rewrite E. reflexivity.
    + rewrite E. reflexivity.
  - reflexivity.
Qed.

Lemma page_has_one_request_in_flight_witness :
  ChatPage.handleSubmit
    (ChatPage.onError (fst (ChatPage.handleSubmit (ChatPage.mkState " hi" false))))
  = (ChatPage.mkState " hi" true, Some (agent_input "hi")).
Proof.
  rewrite (proj1 (proj2 (page_has_one_request_in_flight
                           (ChatPage.mkState " hi" false))) eq_refl).
  reflexivity.
Defined.

(** ** Rows and the insert schema *)




(** ** Reading the agent's answer *)

Lemma or_else_empty (s : string) : or_else s EmptyString = s.
Proof. destruct s; reflexivity. Qed.

(** X21. The text the agent procedure stores is read off the last result
    message alone: a string content is taken as it is, an array content is
    the concatenation of its string parts and of the text of its other
    parts (a part without text adding nothing), anything else gives the
    empty text; the messages before the last make no difference. *)
Theorem aiResponse_reads_the_last_message
    (ms : list agentRouter.ResultMessage) (m : agentRouter.ResultMessage) :
  agentRouter.aiResponse (agentRouter.mkState (ms ++ [m]))
  = match agentRouter.content m with
    | agentRouter.ContentString s => s
    | agentRouter.ContentArray parts =>
        String.concat EmptyString
          (map (fun c => match c with
                         | agentRouter.PartString s => s
                         | agentRouter.PartObject (Some s) => s
                         | agentRouter.PartObject None => EmptyString
                         end) parts)
    | agentRouter.ContentOther => EmptyString
    end /\
  agentRouter.aiResponse (agentRouter.mkState (ms ++ [m]))
  = agentRouter.aiResponse (agentRouter.mkState [m]).
Proof.
  assert (Hlast : forall l : list agentRouter.ResultMessage,
             agentRouter.lastMessage (agentRouter.mkState (l ++ [m])) = Some m).
  { intros l. unfold agentRouter.lastMessage. simpl.
    rewrite length_app. simpl.
    replace (List.length l + 1 - 1)%nat with (List.length l) by lia.
    rewrite nth_error_app2 by lia. rewrite Nat.sub_diag. reflexivity. }
  split.
  - unfold agentRouter.aiResponse. rewrite Hlast. cbn [option_map].
    rewrite or_else_empty.
    destruct (agentRouter.content m) as [s|parts|]; try reflexivity.
    f_equal. apply map_ext. intros [s|[s|]]; simpl; try reflexivity.
    apply or_else_empty.
  - unfold agentRouter.aiResponse. rewrite Hlast.
    change [m] with ([] ++ [m]). rewrite Hlast. reflexivity.
Qed.

(** ** An agent chat that succeeds *)



(** ** Listing and counting users *)

(** X23. user.list returns every stored user exactly once, most recently
    created first, and user.count is the number of rows it returns;
    neither changes the world. *)
Theorem user_list_and_count_agree (w : World) :
  exists rows,
    userRouter.list w = (w, Returned rows) /\
    userRouter.count w = (w, Returned (Z.of_nat (List.length rows))) /\
    Permutation rows (Users w) /\
    StronglySorted (fun a b => User.createdAt b <= User.createdAt a) rows.
Proof.
  eexists. split; [reflexivity|]. split; [|split].
  - unfold userRouter.count, orderBy. rewrite sort_by_length. reflexivity.
  - apply sort_by_perm.
  - apply orderBy_desc_sorted.
Qed.
